(** * STOCHASTIX-TWIN: a shallow embedding of the simulation core

    The development follows the Python sources under [backend/simulation]:
    - [actors/base.py], [actors/store.py], [actors/distribution_center.py]
    - [logic/policy.py], [distributions.py], [chaos/events.py]
    - [runner.py] ([run_single], [monte_carlo]),
    and the job table of [backend/api/app.py].

    Python [int] is [Z].  In a run a Python [float] is the rational [Q] it
    stands for: the arithmetic of the clock, of the lead times and of the
    demand intensity rounds its results with a rounding function that is a
    parameter, and the comparisons the code makes ([<], [<=], [==]) are made
    on the rounded values.  Infinities and nan are no rationals, so a run in
    which a float overflows is outside the run-level model; the lognormal
    sampler is therefore also embedded over the binary64 floats themselves
    (module [Binary64]), where underflow, overflow and nan are what IEEE 754
    makes them.  [math.log], [math.sqrt] and the NumPy generator are
    parameters of the development.  A raised exception is the left injection
    of a sum. *)

From Stdlib Require Import ZArith QArith Qround Lia Lqa List String Bool.
From Stdlib Require Import Floats.SpecFloat.
Import ListNotations.

Local Open Scope Z_scope.

(** ** Exceptions *)

Inductive Exception : Type :=
| ValueError (msg : string)
| RuntimeError (msg : string)
| ZeroDivisionError (msg : string).

Definition result (A : Type) : Type := (Exception + A)%type.

Definition Qltb (x y : Q) : bool := negb (Qle_bool y x).

(** ** actors/base.py *)

Record InventoryState : Type := mkInventoryState {
  on_hand : Z;
  backorder : Z;
  on_order : Z
}.

Definition inventory_position (i : InventoryState) : Z :=
  on_hand i + on_order i - backorder i.

(** ** actors/store.py

    The [env] and [name] fields are never read by the methods and are left
    out of the records. *)

Record Store : Type := mkStore {
  store_inventory : InventoryState;
  demand_units : Z;
  fulfilled_units : Z;
  stockout_days : Z;
  store_orders_placed : Z
}.

Definition Store_consume_demand (demand_qty : Z) (self : Store) : Store :=
  let demand_qty := Z.max 0 demand_qty in
  let inv := store_inventory self in
  let fulfilled := Z.min (on_hand inv) demand_qty in
  let unmet := demand_qty - fulfilled in
  mkStore
    (mkInventoryState (on_hand inv - fulfilled)
       (if 0 <? unmet then backorder inv + unmet else backorder inv)
       (on_order inv))
    (demand_units self + demand_qty)
    (fulfilled_units self + fulfilled)
    (if 0 <? unmet then stockout_days self + 1 else stockout_days self)
    (store_orders_placed self).

Definition Store_receive (quantity : Z) (self : Store) : Store :=
  if quantity <=? 0 then self
  else
    let inv := store_inventory self in
    let used := if 0 <? backorder inv then Z.min (backorder inv) quantity else 0 in
    mkStore
      (mkInventoryState (on_hand inv + (quantity - used))
         (backorder inv - used)
         (on_order inv))
      (demand_units self) (fulfilled_units self) (stockout_days self)
      (store_orders_placed self).

(** ** actors/distribution_center.py *)

Record DistributionCenter : Type := mkDistributionCenter {
  dc_inventory : InventoryState;
  dc_orders_placed : Z
}.

Definition DistributionCenter_receive (quantity : Z) (self : DistributionCenter)
  : DistributionCenter :=
  if quantity <=? 0 then self
  else
    let inv := dc_inventory self in
    mkDistributionCenter
      (mkInventoryState (on_hand inv + quantity) (backorder inv) (on_order inv))
      (dc_orders_placed self).

Definition DistributionCenter_ship_to_store (quantity : Z) (self : DistributionCenter)
  : Z * DistributionCenter :=
  if quantity <=? 0 then (0, self)
  else
    let inv := dc_inventory self in
    let shipped := Z.min (on_hand inv) quantity in
    (shipped,
     mkDistributionCenter
       (mkInventoryState (on_hand inv - shipped) (backorder inv) (on_order inv))
       (dc_orders_placed self)).

(** ** logic/policy.py *)

Definition order_up_to_sS (inventory_position s S : Z) : result Z :=
  if S <? s then inl (ValueError "Policy requires s <= S")
  else if inventory_position <=? s then inr (Z.max 0 (S - inventory_position))
  else inr 0.

(** ** models.py *)

Record DemandPeak : Type := mkDemandPeak {
  start_day : Z;
  end_day : Z;
  multiplier : Q
}.

Record SimulationConfig : Type := mkSimulationConfig {
  days : Z;
  demand_lambda_per_day : Q;
  demand_peaks : list DemandPeak;
  s_store : Z;
  S_store : Z;
  s_dc : Z;
  S_dc : Z;
  initial_on_hand_store : Z;
  initial_on_hand_dc : Z;
  lead_time_mean_days : Q;
  lead_time_std_days : Q;
  disruption_probability_per_shipment : Q;
  disruption_delay_days : Q;
  holding_cost_per_unit_per_day : Q;
  seed : option Z
}.

Record KPIs : Type := mkKPIs {
  service_level : Q;
  fill_rate : Q;
  kpi_demand_units : Z;
  kpi_fulfilled_units : Z;
  kpi_stockout_days : Z;
  avg_on_hand_store : Q;
  avg_on_hand_dc : Q;
  avg_backorder_store : Q;
  total_orders_store : Z;
  total_orders_dc : Z
}.

(** One entry of the [timeseries] list: the dictionary built at the end of
    each day, with its six keys as fields (all values are [float(...)] of an
    integer). *)
Record Row : Type := mkRow {
  row_day : Q;
  row_store_on_hand : Q;
  row_store_backorder : Q;
  row_store_on_order : Q;
  row_dc_on_hand : Q;
  row_dc_on_order : Q
}.

Record SimulationResult : Type := mkSimulationResult {
  result_config : SimulationConfig;
  kpis : KPIs;
  timeseries : list Row
}.

Record MonteCarloSummary : Type := mkMonteCarloSummary {
  replications : Z;
  kpi_mean : list (string * Q);
  kpi_std : list (string * Q)
}.

Record MonteCarloResult : Type := mkMonteCarloResult {
  mc_config : SimulationConfig;
  summary : MonteCarloSummary;
  samples : list KPIs
}.

(** ** The random source and the samplers

    What the code takes from NumPy and from Python's [math] module.  [Rng] is
    the state of a [numpy.random.Generator]; each sampling method returns the
    drawn value and the advanced state.  [default_rng seed call] is
    [np.random.default_rng(seed)]: with a seed the generator is determined by
    it; without one NumPy takes fresh entropy from the operating system, so
    the result also depends on which call of the process it is.  The
    generator's methods, [default_rng] and [float(config.days)] are taken
    where they return: on a seed that is not negative, on an intensity that
    NumPy accepts, on a horizon that is a finite float.  [float_round] and
    [division_by_zero] belong to the interpreter's float arithmetic (see
    below). *)

Class Runtime : Type := {
  Rng : Type;
  rng_poisson : Rng -> Q -> Z * Rng;
  rng_lognormal : Rng -> Q -> Q -> Q * Rng;
  rng_random : Rng -> Q * Rng;
  math_log : Q -> Q;
  math_sqrt : Q -> Q;
  default_rng : option Z -> nat -> Rng;
  float_round : Q -> Q;
  division_by_zero : string
}.

(** ** Float arithmetic

    A float is the rational it stands for; [float_round] is the rounding of
    a real result to a float, and [division_by_zero] the message the
    interpreter gives a [ZeroDivisionError].  A product, a difference and a
    quotient are rounded.  The sum of two floats is exact when one of them is
    zero and when both are integers (integers are floats up to 2^53, beyond
    any horizon that can be simulated); any other sum is rounded.  Infinities
    and nan have no counterpart here: module [Binary64] below has the
    lognormal sampler over the binary64 floats themselves. *)

Definition is_integer (q : Q) : bool := Qeq_bool q (inject_Z (Qfloor q)).

Definition float_add {rt : Runtime} (x y : Q) : Q :=
  if Qeq_bool y 0 then x
  else if Qeq_bool x 0 then y
  else if is_integer x && is_integer y then (x + y)%Q
  else float_round (x + y)%Q.

Definition float_sub {rt : Runtime} (x y : Q) : Q := float_round (x - y)%Q.

Definition float_mul {rt : Runtime} (x y : Q) : Q := float_round (x * y)%Q.

(** [x / y] on floats raises on a zero divisor. *)
Definition float_div {rt : Runtime} (x y : Q) : result Q :=
  if Qeq_bool y 0 then inl (ZeroDivisionError division_by_zero)
  else inr (float_round (x / y)%Q).

Section Samplers.

Context {rt : Runtime}.

(** distributions.py *)

Definition poisson_demand (rng : Rng) (lam : Q) : result (Z * Rng) :=
  if Qltb lam 0 then inl (ValueError "demand lambda must be >= 0")
  else inr (rng_poisson rng lam).

Definition _lognormal_mu_sigma_from_mean_std (mean std : Q) : result (Q * Q) :=
  if Qle_bool mean 0 then inl (ValueError "lognormal mean must be > 0")
  else if Qltb std 0 then inl (ValueError "lognormal std must be >= 0")
  else if Qeq_bool std 0 then inr (math_log mean, 0%Q)
  else
    let variance := float_mul std std in
    match float_div variance (float_mul mean mean) with
    | inl e => inl e
    | inr ratio =>
        let sigma2 := math_log (float_add 1 ratio) in
        let mu := float_sub (math_log mean) (float_mul (1 # 2) sigma2) in
        inr (mu, math_sqrt sigma2)
    end.

Definition lognormal_days (rng : Rng) (mean_days std_days : Q) : result (Q * Rng) :=
  match _lognormal_mu_sigma_from_mean_std mean_days std_days with
  | inl e => inl e
  | inr (mu, sigma) =>
      if Qeq_bool sigma 0 then inr (mean_days, rng)
      else inr (rng_lognormal rng mu sigma)
  end.

(** chaos/events.py *)

Definition disruption_delay (rng : Rng) (probability_per_shipment delay_days : Q)
  : result (Q * Rng) :=
  if Qltb probability_per_shipment 0 || Qltb 1 probability_per_shipment
  then inl (ValueError "disruption_probability_per_shipment must be in [0,1]")
  else if Qltb delay_days 0
  then inl (ValueError "disruption_delay_days must be >= 0")
  else if Qeq_bool probability_per_shipment 0 || Qeq_bool delay_days 0
  then inr (0%Q, rng)
  else
    let (u, rng') := rng_random rng in
    inr (if Qltb u probability_per_shipment then delay_days else 0%Q, rng').

End Samplers.

(** ** distributions.py over binary64 floats

    The lognormal sampler once more, on IEEE 754 binary64 floats as the
    interpreter has them ([spec_float] with 53 bits of precision): a product
    can underflow to zero or overflow to infinity, a quotient of infinities
    is nan, every comparison with nan is false, and [/] raises
    [ZeroDivisionError] on a zero divisor.  [math_log] and [math_sqrt] are the
    values [math.log] and [math.sqrt] return; the code calls the first on a
    float that is positive or nan and on 1.0 plus a quotient that is not
    negative, the second on the logarithm so obtained. *)

Module Binary64.

Definition prec : Z := 53.
Definition emax : Z := 1024.

Definition zero : spec_float := S754_zero false.
Definition one : spec_float := S754_finite false 4503599627370496 (-52).
Definition half : spec_float := S754_finite false 4503599627370496 (-53).

Definition add : spec_float -> spec_float -> spec_float := SFadd prec emax.
Definition sub : spec_float -> spec_float -> spec_float := SFsub prec emax.
Definition mul : spec_float -> spec_float -> spec_float := SFmul prec emax.


Class Runtime : Type := {
  Rng : Type;
  rng_lognormal : Rng -> spec_float -> spec_float -> spec_float * Rng;
  math_log : spec_float -> spec_float;
  math_sqrt : spec_float -> spec_float;
  division_by_zero : string
}.

Section Samplers.

Context {rt : Runtime}.

(** [x / y] on floats. *)
Definition div (x y : spec_float) : result spec_float :=
  if SFeqb y zero then inl (ZeroDivisionError division_by_zero)
  else inr (SFdiv prec emax x y).

Definition _lognormal_mu_sigma_from_mean_std (mean std : spec_float)
  : result (spec_float * spec_float) :=
  if SFleb mean zero then inl (ValueError "lognormal mean must be > 0")
  else if SFltb std zero then inl (ValueError "lognormal std must be >= 0")
  else if SFeqb std zero then inr (math_log mean, zero)
  else
    let variance := mul std std in
    match div variance (mul mean mean) with
    | inl e => inl e
    | inr ratio =>
        let sigma2 := math_log (add one ratio) in
        let mu := sub (math_log mean) (mul half sigma2) in
        inr (mu, math_sqrt sigma2)
    end.

Definition lognormal_days (rng : Rng) (mean_days std_days : spec_float)
  : result (spec_float * Rng) :=
  match _lognormal_mu_sigma_from_mean_std mean_days std_days with
  | inl e => inl e
  | inr (mu, sigma) =>
      if SFeqb sigma zero then inr (mean_days, rng)
      else inr (rng_lognormal rng mu sigma)
  end.

End Samplers.

(** *** A stand-in runtime and some floats for the examples *)





End Binary64.

(** ** The SimPy environment

    [simpy.Environment] keeps a heap of [(time, priority, eid, event)] tuples;
    [schedule] pushes [(now + delay, priority, next(eid), event)], and [step]
    pops the least tuple (the [eid] counter makes the first three components
    a strict total order), sets [now] to its time and runs its callbacks.
    [Environment.process] schedules an [Initialize] event with priority
    [URGENT] and delay 0; [Environment.timeout] schedules an event with
    priority [NORMAL] ([Timeout] raises [ValueError] on a negative delay);
    a generator that returns schedules its own process event ([NORMAL],
    delay 0), which has no callback here; an exception escaping a generator
    is re-raised by [step] when that process event is popped, and is raised
    at once in this model: no callback running in between can raise first, and
    the state of the run is local to [run_single].  [run(until=t)] raises
    [ValueError] unless [t > now], and otherwise schedules an [URGENT] event
    at [t] whose callback stops the loop. *)

Inductive Receiver : Type := ToStore | ToDistributionCenter.

(** What the popped event resumes.  [daily_process] is a single generator and
    keeps its loop counter in the state of the run; every [arrival_process]
    generator carries its own closure ([receiver], [quantity],
    [lead_time_days]) and is named by the [eid] of its [Initialize] event. *)
Inductive Callback : Type :=
| DailyResume
| ArrivalStart (receiver : Receiver) (quantity : Z) (lead_time_days : Q)
| ArrivalResume (pid : nat) (receiver : Receiver) (quantity : Z)
| StopSimulation
| ProcessDone.

Definition URGENT : nat := 0.
Definition NORMAL : nat := 1.

Record Scheduled : Type := mkScheduled {
  ev_time : Q;
  ev_priority : nat;
  ev_id : nat;
  ev_callback : Callback
}.

(** Tuple comparison of the heap: time, then priority, then event id. *)
Definition key_leb (a b : Scheduled) : bool :=
  match (ev_time a ?= ev_time b)%Q with
  | Lt => true
  | Gt => false
  | Eq =>
      (ev_priority a <? ev_priority b)%nat
      || ((ev_priority a =? ev_priority b)%nat && (ev_id a <=? ev_id b)%nat)
  end.

(** [heapq.heappop]: the least tuple and the remaining ones.  The heap is
    kept as the list of its tuples, [heappush] being a cons. *)
Fixpoint heappop (q : list Scheduled) : option (Scheduled * list Scheduled) :=
  match q with
  | [] => None
  | x :: q' =>
      match heappop q' with
      | None => Some (x, [])
      | Some (m, rest) =>
          if key_leb x m then Some (x, q') else Some (m, x :: rest)
      end
  end.

(** Sum of an integer weight over the heap. *)
Fixpoint qsum (f : Scheduled -> Z) (q : list Scheduled) : Z :=
  match q with
  | [] => 0
  | ev :: q' => f ev + qsum f q'
  end.

(** A log of what a run does, most recent first; the code keeps none, and
    nothing in the model reads it.  It records a demand draw consumed by the
    store, a shipment handed to [schedule_inbound_shipment] with the time its
    arrival is due, and the application of an arrival ([on_order] decreased,
    [receive] called). *)
Inductive Obs : Type :=
| ObsDemand (day : Z) (at_time : Q) (demand_qty : Z)
| ObsSchedule (pid : nat) (receiver : Receiver) (quantity : Z) (due : Q)
| ObsDeliver (pid : nat) (receiver : Receiver) (quantity : Z) (at_time : Q).

Fixpoint Qsum (l : list Q) : Q :=
  match l with
  | [] => 0
  | x :: l' => x + Qsum l'
  end%Q.

Definition Qlen {A : Type} (l : list A) : Q := inject_Z (Z.of_nat (List.length l)).

(** [numpy.mean] of a one-dimensional array. *)
Definition np_mean (v : list Q) : Q := (Qsum v / Qlen v)%Q.

(** The loop of [_demand_multiplier_for_day], from the running product [m]. *)
Fixpoint _demand_multiplier_from {rt : Runtime} (peaks : list DemandPeak) (day : Z)
    (m : Q) : Q :=
  match peaks with
  | [] => m
  | peak :: peaks' =>
      _demand_multiplier_from peaks' day
        (if (start_day peak <=? day) && (day <=? end_day peak)
         then float_mul m (multiplier peak)
         else m)
  end.

Definition _demand_multiplier_for_day {rt : Runtime} (config : SimulationConfig)
    (day : Z) : Q :=
  _demand_multiplier_from (demand_peaks config) day 1%Q.

(** Line 154 of runner.py. *)
Definition service_level_of (stockout_days days : Z) : Q :=
  (1 - (if 0 <? days then inject_Z stockout_days / inject_Z days else 0))%Q.

(** Line 155 of runner.py. *)
Definition fill_rate_of (fulfilled_units demand_units : Z) : Q :=
  if 0 <? demand_units then (inject_Z fulfilled_units / inject_Z demand_units)%Q
  else 1%Q.

Definition mean_or_zero (v : list Q) : Q :=
  match v with
  | [] => 0%Q
  | _ => np_mean v
  end.

(** ** runner.py: one replication *)

Section Runner.

Context {rt : Runtime}.

(** The mutable objects [run_single] creates and its closures share: the
    environment ([now], [queue], [eid]), the generator, the two actors, the
    loop counter of [daily_process], the [timeseries] list, and the
    observation log. *)
Record Sim : Type := mkSim {
  now : Q;
  queue : list Scheduled;
  eid : nat;
  random_generator : Rng;
  store : Store;
  distribution_center : DistributionCenter;
  daily_day : Z;
  sim_timeseries : list Row;
  trace : list Obs
}.

(** State and exception monad over [Sim]. *)
Definition M (A : Type) : Type := Sim -> result (A * Sim).

Definition ret {A : Type} (a : A) : M A := fun s => inr (a, s).

Definition bind {A B : Type} (m : M A) (k : A -> M B) : M B :=
  fun s => match m s with
           | inl e => inl e
           | inr (a, s') => k a s'
           end.

Definition gets {A : Type} (f : Sim -> A) : M A := fun s => inr (f s, s).

Definition modify (f : Sim -> Sim) : M unit := fun s => inr (tt, f s).

Definition raise_result {A : Type} (r : result A) : M A :=
  fun s => match r with
           | inl e => inl e
           | inr a => inr (a, s)
           end.

Definition set_random_generator (g : Rng) (s : Sim) : Sim :=
  mkSim (now s) (queue s) (eid s) g (store s) (distribution_center s)
    (daily_day s) (sim_timeseries s) (trace s).

Definition set_store (st : Store) (s : Sim) : Sim :=
  mkSim (now s) (queue s) (eid s) (random_generator s) st (distribution_center s)
    (daily_day s) (sim_timeseries s) (trace s).

Definition set_distribution_center (dc : DistributionCenter) (s : Sim) : Sim :=
  mkSim (now s) (queue s) (eid s) (random_generator s) (store s) dc
    (daily_day s) (sim_timeseries s) (trace s).

Definition set_daily_day (d : Z) (s : Sim) : Sim :=
  mkSim (now s) (queue s) (eid s) (random_generator s) (store s)
    (distribution_center s) d (sim_timeseries s) (trace s).

Definition observe (o : Obs) (s : Sim) : Sim :=
  mkSim (now s) (queue s) (eid s) (random_generator s) (store s)
    (distribution_center s) (daily_day s) (sim_timeseries s) (o :: trace s).

(** A call of a sampler on the shared generator. *)
Definition draw {A : Type} (sample : Rng -> result (A * Rng)) : M A :=
  fun s => match sample (random_generator s) with
           | inl e => inl e
           | inr (a, g) => inr (a, set_random_generator g s)
           end.

(** [Environment.schedule]: the event is pushed with the float
    [self._now + delay]. *)
Definition env_schedule (priority : nat) (delay : Q) (cb : Callback) (s : Sim) : Sim :=
  mkSim (now s)
    (mkScheduled (float_add (now s) delay) priority (eid s) cb :: queue s)
    (S (eid s))
    (random_generator s) (store s) (distribution_center s)
    (daily_day s) (sim_timeseries s) (trace s).

Definition set_on_order (v : Z) (i : InventoryState) : InventoryState :=
  mkInventoryState (on_hand i) (backorder i) v.

Definition receiver_inventory (r : Receiver) (s : Sim) : InventoryState :=
  match r with
  | ToStore => store_inventory (store s)
  | ToDistributionCenter => dc_inventory (distribution_center s)
  end.

Definition set_receiver_inventory (r : Receiver) (i : InventoryState) (s : Sim) : Sim :=
  match r with
  | ToStore =>
      let st := store s in
      set_store (mkStore i (demand_units st) (fulfilled_units st)
                   (stockout_days st) (store_orders_placed st)) s
  | ToDistributionCenter =>
      set_distribution_center
        (mkDistributionCenter i (dc_orders_placed (distribution_center s))) s
  end.

(** [receiver.inventory.on_order += delta]. *)
Definition add_on_order (r : Receiver) (delta : Z) (s : Sim) : Sim :=
  let i := receiver_inventory r s in
  set_receiver_inventory r (set_on_order (on_order i + delta) i) s.

(** [receiver.receive(quantity)], dispatched on the receiving actor. *)
Definition receiver_receive (r : Receiver) (quantity : Z) (s : Sim) : Sim :=
  match r with
  | ToStore => set_store (Store_receive quantity (store s)) s
  | ToDistributionCenter =>
      set_distribution_center
        (DistributionCenter_receive quantity (distribution_center s)) s
  end.

(** [environment.process(arrival_process())]: the [Initialize] event of the
    new process; the shipment is logged with the time its arrival is due,
    which is the float that its timeout will be scheduled at. *)
Definition env_process_arrival (receiver : Receiver) (quantity : Z)
    (lead_time_days : Q) (s : Sim) : Sim :=
  observe (ObsSchedule (eid s) receiver quantity (float_add (now s) lead_time_days))
    (env_schedule URGENT 0 (ArrivalStart receiver quantity lead_time_days) s).

Variable config : SimulationConfig.

Local Notation "x <- m ;; k" := (bind m (fun x => k))
  (at level 61, m at next level, right associativity).
Local Notation "m ;; k" := (bind m (fun _ => k))
  (at level 61, right associativity).

Definition schedule_inbound_shipment (receiver : Receiver) (quantity : Z) : M unit :=
  if quantity <=? 0 then ret tt
  else
    modify (add_on_order receiver quantity) ;;
    lead_time_days <- draw (fun g =>
      lognormal_days g
        (lead_time_mean_days config) (lead_time_std_days config)) ;;
    delay <- draw (fun g =>
      disruption_delay g
        (disruption_probability_per_shipment config)
        (disruption_delay_days config)) ;;
    modify (env_process_arrival receiver quantity (float_add lead_time_days delay)).

(** The body of [arrival_process] after its timeout. *)
Definition deliver (pid : nat) (receiver : Receiver) (quantity : Z) (s : Sim) : Sim :=
  observe (ObsDeliver pid receiver quantity (now s))
    (receiver_receive receiver quantity
       (add_on_order receiver (- quantity) s)).

(** [store.consume_demand(...)] on day [day]. *)
Definition consume_demand (day demand_qty : Z) (s : Sim) : Sim :=
  observe (ObsDemand day (now s) demand_qty)
    (set_store (Store_consume_demand demand_qty (store s)) s).

Definition ship_to_store (quantity : Z) : M Z :=
  fun s =>
    let (shipped, dc) := DistributionCenter_ship_to_store quantity (distribution_center s) in
    inr (shipped, set_distribution_center dc s).

Definition incr_store_orders (s : Sim) : Sim :=
  let st := store s in
  set_store (mkStore (store_inventory st) (demand_units st) (fulfilled_units st)
               (stockout_days st) (store_orders_placed st + 1)) s.

Definition incr_dc_orders (s : Sim) : Sim :=
  let dc := distribution_center s in
  set_distribution_center
    (mkDistributionCenter (dc_inventory dc) (dc_orders_placed dc + 1)) s.

(** [store.inventory.backorder += unshipped_quantity]. *)
Definition add_store_backorder (unshipped_quantity : Z) (s : Sim) : Sim :=
  let i := store_inventory (store s) in
  set_receiver_inventory ToStore
    (mkInventoryState (on_hand i) (backorder i + unshipped_quantity) (on_order i)) s.

Definition append_row (day : Z) (s : Sim) : Sim :=
  let si := store_inventory (store s) in
  let di := dc_inventory (distribution_center s) in
  mkSim (now s) (queue s) (eid s) (random_generator s) (store s)
    (distribution_center s) (daily_day s)
    (sim_timeseries s ++
       [mkRow (inject_Z day) (inject_Z (on_hand si)) (inject_Z (backorder si))
          (inject_Z (on_order si)) (inject_Z (on_hand di)) (inject_Z (on_order di))])
    (trace s).

(** One iteration of the [for] loop of [daily_process], up to its [yield]. *)
Definition daily_body (day : Z) : M unit :=
  let demand_lambda :=
    float_mul (demand_lambda_per_day config) (_demand_multiplier_for_day config day) in
  demand <- draw (fun g => poisson_demand g demand_lambda) ;;
  modify (consume_demand day demand) ;;
  owed <- gets (fun s => backorder (store_inventory (store s))) ;;
  (if 0 <? owed then
     shipped_quantity <- ship_to_store owed ;;
     if 0 <? shipped_quantity
     then schedule_inbound_shipment ToStore shipped_quantity
     else ret tt
   else ret tt) ;;
  store_inventory_position <-
    gets (fun s => inventory_position (store_inventory (store s))) ;;
  store_replenishment_quantity <-
    raise_result (order_up_to_sS store_inventory_position
                    (s_store config) (S_store config)) ;;
  (if 0 <? store_replenishment_quantity then
     modify incr_store_orders ;;
     shipped_quantity <- ship_to_store store_replenishment_quantity ;;
     (if 0 <? shipped_quantity
      then schedule_inbound_shipment ToStore shipped_quantity
      else ret tt) ;;
     let unshipped_quantity := store_replenishment_quantity - shipped_quantity in
     if 0 <? unshipped_quantity
     then modify (add_store_backorder unshipped_quantity)
     else ret tt
   else ret tt) ;;
  dc_inventory_position <-
    gets (fun s => inventory_position (dc_inventory (distribution_center s))) ;;
  dc_replenishment_quantity <-
    raise_result (order_up_to_sS dc_inventory_position (s_dc config) (S_dc config)) ;;
  (if 0 <? dc_replenishment_quantity then
     modify incr_dc_orders ;;
     schedule_inbound_shipment ToDistributionCenter dc_replenishment_quantity
   else ret tt) ;;
  modify (append_row day).

(** Partial correctness of a computation that may raise. *)
Definition hoare {A : Type} (P : Sim -> Prop) (m : M A) (Q : A -> Sim -> Prop) : Prop :=
  forall s a s', P s -> m s = inr (a, s') -> Q a s'.

Inductive Outcome : Type :=
| Continue (s : Sim)
| Stopped (s : Sim)
| Raised (e : Exception).

(** [daily_process] resumed: the next value of [range(config.days)], the
    body and [yield environment.timeout(1.0)]; or the end of the loop. *)
Definition daily_process (s : Sim) : Outcome :=
  let day := daily_day s in
  if day <? days config then
    match daily_body day (set_daily_day (day + 1) s) with
    | inl e => Raised e
    | inr (_, s') => Continue (env_schedule NORMAL 1 DailyResume s')
    end
  else Continue (env_schedule NORMAL 0 ProcessDone s).

(** [arrival_process] started: [yield environment.timeout(lead_time_days)].
    [Timeout] rejects a negative delay (SimPy's message also shows the
    delay). *)
Definition arrival_process_start (pid : nat) (receiver : Receiver) (quantity : Z)
    (lead_time_days : Q) (s : Sim) : Outcome :=
  if Qltb lead_time_days 0 then Raised (ValueError "Negative delay")
  else Continue (env_schedule NORMAL lead_time_days
                   (ArrivalResume pid receiver quantity) s).

(** [arrival_process] resumed after its timeout, and its end. *)
Definition arrival_process_resume (pid : nat) (receiver : Receiver) (quantity : Z)
    (s : Sim) : Outcome :=
  Continue (env_schedule NORMAL 0 ProcessDone (deliver pid receiver quantity s)).

(** The environment after [heappop]: [now] is the time of the popped event. *)
Definition popped (ev : Scheduled) (rest : list Scheduled) (s : Sim) : Sim :=
  mkSim (ev_time ev) rest (eid s) (random_generator s) (store s)
    (distribution_center s) (daily_day s) (sim_timeseries s) (trace s).

(** [Environment.step]. *)
Definition step (s : Sim) : Outcome :=
  match heappop (queue s) with
  | None => Raised (RuntimeError "No scheduled events left")
  | Some (ev, rest) =>
      let s' := popped ev rest s in
      match ev_callback ev with
      | DailyResume => daily_process s'
      | ArrivalStart receiver quantity lead_time_days =>
          arrival_process_start (ev_id ev) receiver quantity lead_time_days s'
      | ArrivalResume pid receiver quantity =>
          arrival_process_resume pid receiver quantity s'
      | StopSimulation => Stopped s'
      | ProcessDone => Continue s'
      end
  end.

(** The loop [while True: self.step()] of [Environment.run]; [None] when
    [fuel] steps were not enough. *)
Fixpoint env_loop (fuel : nat) (s : Sim) : option (result Sim) :=
  match fuel with
  | O => None
  | S fuel' =>
      match step s with
      | Continue s' => env_loop fuel' s'
      | Stopped s' => Some (inr s')
      | Raised e => Some (inl e)
      end
  end.

(** Lines 50-64 and 148: the fresh objects and
    [environment.process(daily_process())]. *)
Definition initial_sim (g : Rng) : Sim :=
  env_schedule URGENT 0 DailyResume
    (mkSim 0 [] 0 g
       (mkStore (mkInventoryState (initial_on_hand_store config) 0 0) 0 0 0 0)
       (mkDistributionCenter (mkInventoryState (initial_on_hand_dc config) 0 0) 0)
       0 [] []).

(** A bound on the number of events one run can process (see
    [env_loop_enough_fuel]). *)
Definition run_fuel : nat := Z.to_nat (10 * Z.max 0 (days config) + 4).

(** Line 149: [environment.run(until=float(config.days))].  SimPy's message
    for a horizon that is not in the future also shows the horizon.  The last
    branch is never taken ([env_run_within_fuel]). *)
Definition env_run (s : Sim) : result Sim :=
  let at_time := inject_Z (days config) in
  if Qle_bool at_time (now s)
  then inl (ValueError "until must be > the current simulation time")
  else
    match env_loop run_fuel
            (env_schedule URGENT (at_time - now s) StopSimulation s) with
    | Some r => r
    | None => inl (RuntimeError "out of fuel")
    end.

(** Lines 50-149: the state of the run when [environment.run] returns. *)
Definition simulate (g : Rng) : result Sim := env_run (initial_sim g).

(** Lines 151-174. *)
Definition summarise (s : Sim) : SimulationResult :=
  let st := store s in
  let ts := sim_timeseries s in
  mkSimulationResult config
    (mkKPIs
       (service_level_of (stockout_days st) (days config))
       (fill_rate_of (fulfilled_units st) (demand_units st))
       (demand_units st)
       (fulfilled_units st)
       (stockout_days st)
       (mean_or_zero (map row_store_on_hand ts))
       (mean_or_zero (map row_dc_on_hand ts))
       (mean_or_zero (map row_store_backorder ts))
       (store_orders_placed st)
       (dc_orders_placed (distribution_center s)))
    ts.

(** [run_single], from the generator [np.random.default_rng(config.seed)]. *)
Definition run_single_from (g : Rng) : result SimulationResult :=
  match simulate g with
  | inl e => inl e
  | inr s => inr (summarise s)
  end.

End Runner.

(** ** runner.py: Monte Carlo *)

(** [numpy.std(v, ddof=1)]: the mean of the squared deviations from
    [numpy.mean(v)], with divisor [N - ddof], under a square root. *)
Definition np_std_ddof1 {rt : Runtime} (v : list Q) : Q :=
  let arrmean := np_mean v in
  math_sqrt (Qsum (map (fun x => (x - arrmean) * (x - arrmean)) v) / (Qlen v - 1))%Q.

(** [dataclasses.replace(config, seed=seed)]. *)
Definition replace_seed (config : SimulationConfig) (new_seed : option Z)
  : SimulationConfig :=
  mkSimulationConfig (days config) (demand_lambda_per_day config)
    (demand_peaks config) (s_store config) (S_store config) (s_dc config)
    (S_dc config) (initial_on_hand_store config) (initial_on_hand_dc config)
    (lead_time_mean_days config) (lead_time_std_days config)
    (disruption_probability_per_shipment config) (disruption_delay_days config)
    (holding_cost_per_unit_per_day config) new_seed.

(** The keys of [asdict(samples[0])], in field order, each with
    [float(getattr(k, field))]. *)
Definition kpi_fields : list (string * (KPIs -> Q)) :=
  [ ("service_level", service_level);
    ("fill_rate", fill_rate);
    ("demand_units", fun k => inject_Z (kpi_demand_units k));
    ("fulfilled_units", fun k => inject_Z (kpi_fulfilled_units k));
    ("stockout_days", fun k => inject_Z (kpi_stockout_days k));
    ("avg_on_hand_store", avg_on_hand_store);
    ("avg_on_hand_dc", avg_on_hand_dc);
    ("avg_backorder_store", avg_backorder_store);
    ("total_orders_store", fun k => inject_Z (total_orders_store k));
    ("total_orders_dc", fun k => inject_Z (total_orders_dc k)) ]%string.

(** [range(n)]. *)
Definition range (n : Z) : list Z := map Z.of_nat (seq 0 (Z.to_nat n)).

(** Dictionary lookup by key. *)
Fixpoint lookup {A : Type} (key : string) (d : list (string * A)) : option A :=
  match d with
  | [] => None
  | (k, v) :: d' => if String.eqb k key then Some v else lookup key d'
  end.

(** The statistics as the specification words them, over the [R] values of
    one KPI field: the arithmetic mean, and the sample standard deviation
    with Bessel's correction (sum of squared deviations divided by [R - 1]). *)
Definition arithmetic_mean (R : Z) (xs : list Q) : Q := (Qsum xs / inject_Z R)%Q.

Definition bessel_std {rt : Runtime} (R : Z) (xs : list Q) : Q :=
  math_sqrt
    (Qsum (map (fun x => (x - arithmetic_mean R xs) ^ 2) xs) / (inject_Z R - 1))%Q.

Section MonteCarlo.

Context {rt : Runtime}.

(** The state of the caller that the progress callback acts on. *)
Variable World : Type.

Definition run_single (config : SimulationConfig) (call : nat)
  : result SimulationResult :=
  run_single_from config (default_rng (seed config) call).

(** Lines 193-194: the configuration of replication [i]. *)
Definition replication_config (config : SimulationConfig) (i : Z) : SimulationConfig :=
  replace_seed config
    (match seed config with
     | None => None
     | Some base => Some (base + i)
     end).

Definition call_progress_cb (progress_cb : option (Q -> World -> World))
    (x : Q) (w : World) : World :=
  match progress_cb with
  | None => w
  | Some cb => cb x w
  end.

(** Lines 192-197: the loop over [range(replications)], from the iteration
    with index [i] on; [call] counts the generators created so far. *)
Fixpoint replication_loop (config : SimulationConfig) (replications : Z)
    (progress_cb : option (Q -> World -> World))
    (indices : list Z) (call : nat) (samples : list KPIs) (w : World)
  : result (list KPIs) * World :=
  match indices with
  | [] => (inr samples, w)
  | i :: indices' =>
      match run_single (replication_config config i) call with
      | inl e => (inl e, w)
      | inr r =>
          replication_loop config replications progress_cb indices' (S call)
            (samples ++ [kpis r])
            (call_progress_cb progress_cb
               (inject_Z (i + 1) / inject_Z replications)%Q w)
      end
  end.

(** Lines 199-205. *)
Definition summarise_samples (replications : Z) (samples : list KPIs)
  : MonteCarloSummary :=
  let fields := match samples with [] => [] | _ => kpi_fields end in
  let matrix := map (fun f => (fst f, map (snd f) samples)) fields in
  mkMonteCarloSummary replications
    (map (fun kv => (fst kv, np_mean (snd kv))) matrix)
    (map (fun kv => (fst kv,
                     if 1 <? replications
                     then np_std_ddof1 (snd kv)
                     else 0%Q)) matrix).

Definition monte_carlo (config : SimulationConfig) (replications : Z)
    (progress_cb : option (Q -> World -> World)) (call : nat) (w : World)
  : result MonteCarloResult * World :=
  if replications <=? 0 then (inl (ValueError "replications must be > 0"), w)
  else
    match replication_loop config replications progress_cb
            (range replications) call [] w with
    | (inl e, w') => (inl e, w')
    | (inr samples, w') =>
        (inr (mkMonteCarloResult config
                (summarise_samples replications samples) samples), w')
    end.

(** The calls of the progress callback that the specification asks for:
    [(i + 1) / R] for [i] in [range(R)], in order. *)
Definition progress_reports (progress_cb : option (Q -> World -> World))
    (R : Z) (w : World) : World :=
  fold_left
    (fun w i => call_progress_cb progress_cb (inject_Z (i + 1) / inject_Z R)%Q w)
    (range R) w.

End MonteCarlo.

Arguments call_progress_cb {World} progress_cb x w.
Arguments replication_loop {rt World} config replications progress_cb indices call samples w.
Arguments monte_carlo {rt World} config replications progress_cb call w.
Arguments progress_reports {World} progress_cb R w.

(** What the specification asks of the summary for one KPI: under the name of
    the field, the arithmetic mean of the field over the [R] samples, and as
    standard deviation 0 when [R = 1] and the Bessel-corrected sample
    standard deviation when [R > 1]. *)
Definition field_reported {rt : Runtime} (R : Z) (mc : MonteCarloResult)
    (name : string) (get : KPIs -> Q) : Prop :=
  lookup name (kpi_mean (summary mc))
  = Some (arithmetic_mean R (map get (samples mc))) /\
  (R = 1 -> lookup name (kpi_std (summary mc)) = Some 0%Q) /\
  (1 < R ->
   lookup name (kpi_std (summary mc))
   = Some (bessel_std R (map get (samples mc)))).

(** The ten fields of [KPIs] (lines 58-71 of [models.py]), by name. *)
Definition KPIs_field_names : list string :=
  [ "service_level"; "fill_rate"; "demand_units"; "fulfilled_units";
    "stockout_days"; "avg_on_hand_store"; "avg_on_hand_dc";
    "avg_backorder_store"; "total_orders_store"; "total_orders_dc" ]%string.

(** ** The run as a transition system

    [transition s s'] is one iteration of the loop of [Environment.run] that
    does not raise: the least event is popped and its callback runs. *)

Section Transitions.

Context {rt : Runtime}.
Variable config : SimulationConfig.

Inductive transition : Sim -> Sim -> Prop :=
| transition_day s ev rest u s2 :
    heappop (queue s) = Some (ev, rest) ->
    ev_callback ev = DailyResume ->
    daily_day s < days config ->
    daily_body config (daily_day s)
      (set_daily_day (daily_day s + 1) (popped ev rest s)) = inr (u, s2) ->
    transition s (env_schedule NORMAL 1 DailyResume s2)
| transition_days_over s ev rest :
    heappop (queue s) = Some (ev, rest) ->
    ev_callback ev = DailyResume ->
    days config <= daily_day s ->
    transition s (env_schedule NORMAL 0 ProcessDone (popped ev rest s))
| transition_arrival_start s ev rest receiver quantity lead :
    heappop (queue s) = Some (ev, rest) ->
    ev_callback ev = ArrivalStart receiver quantity lead ->
    (0 <= lead)%Q ->
    transition s
      (env_schedule NORMAL lead (ArrivalResume (ev_id ev) receiver quantity)
         (popped ev rest s))
| transition_arrival s ev rest pid receiver quantity :
    heappop (queue s) = Some (ev, rest) ->
    ev_callback ev = ArrivalResume pid receiver quantity ->
    transition s
      (env_schedule NORMAL 0 ProcessDone
         (deliver pid receiver quantity (popped ev rest s)))
| transition_done s ev rest :
    heappop (queue s) = Some (ev, rest) ->
    ev_callback ev = ProcessDone ->
    transition s (popped ev rest s)
| transition_stop s ev rest :
    heappop (queue s) = Some (ev, rest) ->
    ev_callback ev = StopSimulation ->
    transition s (popped ev rest s).

(** The environment when the loop of [Environment.run] starts. *)
Definition started (g : Rng) : Sim :=
  env_schedule URGENT (inject_Z (days config) - now (initial_sim config g))
    StopSimulation (initial_sim config g).

(** The states the loop goes through. *)
Inductive reachable (g : Rng) : Sim -> Prop :=
| reachable_start : reachable g (started g)
| reachable_step s s' : reachable g s -> transition s s' -> reachable g s'.

(** *** Stock levels and counters *)

Definition row_nonneg (row : Row) : Prop :=
  (0 <= row_store_on_hand row)%Q /\
  (0 <= row_dc_on_hand row)%Q /\
  (0 <= row_store_backorder row)%Q.

(** [slack] is 1 between the start of a day and its demand draw, when the
    loop counter is already one day ahead of the stockout counter. *)
Definition stock_invariant (slack : Z) (s : Sim) : Prop :=
  0 <= on_hand (store_inventory (store s)) /\
  0 <= backorder (store_inventory (store s)) /\
  0 <= on_hand (dc_inventory (distribution_center s)) /\
  0 <= fulfilled_units (store s) <= demand_units (store s) /\
  0 <= stockout_days (store s) /\
  stockout_days (store s) + slack <= daily_day s /\
  daily_day s <= Z.max 0 (days config) /\
  Forall row_nonneg (sim_timeseries s).

(** *** Pipeline stock *)

Definition Receiver_eqb (a b : Receiver) : bool :=
  match a, b with
  | ToStore, ToStore | ToDistributionCenter, ToDistributionCenter => true
  | _, _ => false
  end.

(** The quantity an event of the heap will deliver to [r]: that of an
    arrival process for [r] that has not yet run its delivery. *)
Definition pending_quantity (r : Receiver) (ev : Scheduled) : Z :=
  match ev_callback ev with
  | ArrivalStart r' n _ | ArrivalResume _ r' n => if Receiver_eqb r r' then n else 0
  | _ => 0
  end.

(** Sum of the quantities scheduled for [r] and not yet delivered. *)
Definition pipeline (r : Receiver) (q : list Scheduled) : Z :=
  qsum (pending_quantity r) q.

Definition shipment_positive (ev : Scheduled) : Prop :=
  match ev_callback ev with
  | ArrivalStart _ n _ | ArrivalResume _ _ n => 0 < n
  | _ => True
  end.

Definition row_on_order_nonneg (row : Row) : Prop :=
  (0 <= row_store_on_order row)%Q /\ (0 <= row_dc_on_order row)%Q.

Definition pipeline_invariant (s : Sim) : Prop :=
  (forall r, on_order (receiver_inventory r s) = pipeline r (queue s)) /\
  (forall ev, In ev (queue s) -> shipment_positive ev) /\
  Forall row_on_order_nonneg (sim_timeseries s).

(** *** Arrivals and demand draws *)










(** *** Work left *)

Definition event_weight (ev : Scheduled) : Z :=
  match ev_callback ev with
  | DailyResume => 2
  | ArrivalStart _ _ _ => 3
  | ArrivalResume _ _ _ => 2
  | StopSimulation => 1
  | ProcessDone => 1
  end.

(** Strictly decreasing along [step]; bounds the number of events of a run. *)
Definition remaining_work (s : Sim) : Z :=
  10 * Z.max 0 (days config - daily_day s) + qsum event_weight (queue s).

(** The heap weighs at most [3 * i] more than [W], and the loop counter of
    [daily_process] is [D]. *)
Definition work_bound (W D : Z) (i : nat) (s : Sim) : Prop :=
  qsum event_weight (queue s) <= W + 3 * Z.of_nat i /\ daily_day s = D.

End Transitions.

(** ** A small deterministic generator to run the model on concrete inputs

    A linear congruential generator over [Z]; the three sampling methods
    return values in the range of their NumPy counterparts (a non-negative
    count, a positive real, a real in [[0, 1)]). *)

Module TestRng.

Definition lcg (g : Z) : Z := (g * 1103515245 + 12345) mod 2147483648.

Definition poisson (g : Z) (lam : Q) : Z * Z :=
  let g' := lcg g in
  ((g' / 65536) mod (2 * Qfloor lam + 1), g').

Definition lognormal (g : Z) (mu sigma : Q) : Q * Z :=
  let g' := lcg g in
  (inject_Z (1 + (g' / 65536) mod 8) / 2, g')%Q.

Definition random (g : Z) : Q * Z :=
  let g' := lcg g in
  (inject_Z ((g' / 65536) mod 1000) / 1000, g')%Q.

Definition log (x : Q) : Q := (x - 1)%Q.

Definition sqrt (x : Q) : Q := x.

Definition default_rng (seed : option Z) (call : nat) : Z :=
  match seed with
  | Some n => n
  | None => 2024 + Z.of_nat call
  end.

#[global] Instance runtime : Runtime := {
  Rng := Z;
  rng_poisson := poisson;
  rng_lognormal := lognormal;
  rng_random := random;
  math_log := log;
  math_sqrt := sqrt;
  default_rng := default_rng;
  float_round := fun q => q;
  division_by_zero := "float division by zero"
}.

(** The progress sink of the examples appends to a list. *)
Definition record_progress : option (Q -> list Q -> list Q) :=
  Some (fun x log => log ++ [x]).

(** Two days, no demand, an empty distribution center that orders on day 0,
    and a lead time of exactly one day. *)
Definition tie_config : SimulationConfig :=
  mkSimulationConfig 2 0 [] 0 0 5 10 10 0 1 0 0 0 0 (Some 1).

(** The default configuration of [SimulationConfig] over 30 days, with
    disruptions. *)
Definition busy_config : SimulationConfig :=
  mkSimulationConfig 30 20 [] 80 160 300 600 120 500 7 2 (1 # 10) 3 0 (Some 1).

(** The state in which the run on [tie_config] ends. *)
Definition tie_final : Sim :=
  Eval vm_compute in
    match simulate tie_config (default_rng (seed tie_config) 0) with
    | inr s => s
    | inl _ => started tie_config 0
    end.



(** Five days of demand with the thresholds of the unit tests and a low
    initial stock at the store. *)
Definition week_config : SimulationConfig :=
  mkSimulationConfig 5 15 [] 50 100 150 300 20 200 4 1 (1 # 10) 2 0 (Some 42).

Definition week_result : SimulationResult :=
  Eval vm_compute in
    match run_single week_config 0 with
    | inr r => r
    | inl _ => summarise week_config (started week_config 0)
    end.

(** The run of replication 1 of a Monte Carlo batch on [week_config]. *)
Definition week_result_1 : SimulationResult :=
  Eval vm_compute in
    match run_single (replication_config week_config 1) 1 with
    | inr r => r
    | inl _ => summarise week_config (started week_config 0)
    end.

(** The runs of a Monte Carlo batch of two replications on [week_config]. *)
Definition week_runs (i : nat) : SimulationResult :=
  match i with
  | O => week_result
  | S _ => week_result_1
  end.

Definition week_monte_carlo : MonteCarloResult :=
  Eval vm_compute in
    match fst (monte_carlo week_config 2 record_progress 0 []) with
    | inr mc => mc
    | inl _ => mkMonteCarloResult week_config (mkMonteCarloSummary 0 [] []) []
    end.

(** The state in which the run on [week_config] ends. *)
Definition week_final : Sim :=
  Eval vm_compute in
    match simulate week_config (default_rng (seed week_config) 0) with
    | inr s => s
    | inl _ => started week_config 0
    end.

(** A horizon of zero days. *)
Definition zero_days_config : SimulationConfig :=
  mkSimulationConfig 0 20 [] 80 160 300 600 120 500 7 2 0 0 0 (Some 1).

End TestRng.


(** ** The stages of one day, and what a run may raise *)

Section Stages.

Context {rt : Runtime}.
Variable config : SimulationConfig.

Local Notation "x <- m ;; k" := (bind m (fun x => k))
  (at level 61, m at next level, right associativity).
Local Notation "m ;; k" := (bind m (fun _ => k))
  (at level 61, right associativity).

(** Lines 102-107 of runner.py: clearing accumulated backorders. *)
Definition backorder_leg : M unit :=
  owed <- gets (fun s => backorder (store_inventory (store s))) ;;
  if 0 <? owed then
    shipped_quantity <- ship_to_store owed ;;
    if 0 <? shipped_quantity
    then schedule_inbound_shipment config ToStore shipped_quantity
    else ret tt
  else ret tt.

(** Lines 115-123: what the store does with its replenishment quantity. *)
Definition store_leg (store_replenishment_quantity : Z) : M unit :=
  if 0 <? store_replenishment_quantity then
    modify incr_store_orders ;;
    shipped_quantity <- ship_to_store store_replenishment_quantity ;;
    (if 0 <? shipped_quantity
     then schedule_inbound_shipment config ToStore shipped_quantity
     else ret tt) ;;
    let unshipped_quantity := store_replenishment_quantity - shipped_quantity in
    if 0 <? unshipped_quantity
    then modify (add_store_backorder unshipped_quantity)
    else ret tt
  else ret tt.

(** Lines 131-133: what the distribution center does with its quantity. *)
Definition dc_leg (dc_replenishment_quantity : Z) : M unit :=
  if 0 <? dc_replenishment_quantity then
    modify incr_dc_orders ;;
    schedule_inbound_shipment config ToDistributionCenter dc_replenishment_quantity
  else ret tt.

Definition policies_valid : Prop :=
  s_store config <= S_store config /\ s_dc config <= S_dc config.

(** A computation raises only exceptions in [E]. *)
Definition raises_only {A : Type} (E : Exception -> Prop) (m : M A) : Prop :=
  forall s e, m s = inl e -> E e.

(** Not a [RuntimeError], the exception of [Environment.run] when the
    schedule runs empty. *)
Definition no_RuntimeError (e : Exception) : Prop :=
  forall msg, e <> RuntimeError msg.

(** The stop event is still in the heap. *)
Definition stop_pending (s : Sim) : Prop :=
  exists ev, In ev (queue s) /\ ev_callback ev = StopSimulation.

(** Line 99 of runner.py: the demand intensity of a day. *)
Definition demand_lambda (day : Z) : Q :=
  float_mul (demand_lambda_per_day config) (_demand_multiplier_for_day config day).


(** The states of the loop of [Environment.run] before it stops. *)
Inductive running (g : Rng) : Sim -> Prop :=
| running_start : running g (started config g)
| running_step s s' : running g s -> step config s = Continue s' -> running g s'.

(** *** The clock, the daily process and the rows *)

Definition is_daily (ev : Scheduled) : Z :=
  match ev_callback ev with
  | DailyResume => 1
  | _ => 0
  end.

(** At most one event resumes [daily_process]; it is due at the day the loop
    counter names, and is there as long as days are left; the stop event is
    due at the horizon; one row has been recorded per day run, in order. *)
Definition clock_invariant (s : Sim) : Prop :=
  qsum is_daily (queue s) <= 1 /\
  (forall ev, In ev (queue s) -> ev_callback ev = DailyResume ->
              (ev_time ev == inject_Z (daily_day s))%Q) /\
  (daily_day s < days config ->
   exists ev, In ev (queue s) /\ ev_callback ev = DailyResume) /\
  (forall ev, In ev (queue s) -> ev_callback ev = StopSimulation ->
              (ev_time ev == inject_Z (days config))%Q) /\
  0 <= daily_day s /\
  daily_day s <= Z.max 0 (days config) /\
  map row_day (sim_timeseries s) = map inject_Z (range (daily_day s)).

(** Inside the day that began at time [t] with loop counter [d]: no event
    resumes [daily_process], and [rows] rows are recorded. *)
Definition day_clock (d : Z) (t : Q) (rows : Z) (s : Sim) : Prop :=
  qsum is_daily (queue s) <= 0 /\
  (forall ev, In ev (queue s) -> ev_callback ev = StopSimulation ->
              (ev_time ev == inject_Z (days config))%Q) /\
  daily_day s = d /\
  now s = t /\
  map row_day (sim_timeseries s) = map inject_Z (range rows).

(** *** Events due at the same time *)





(** *** Counters *)

(** The three day counters against the loop counter of [daily_process];
    each slack is 1 from the start of a day until that day has had its
    chance to count. *)
Definition counters_invariant (stockout_slack store_slack dc_slack : Z) (s : Sim)
  : Prop :=
  0 <= stockout_days (store s) /\
  stockout_days (store s) + stockout_slack <= daily_day s /\
  0 <= store_orders_placed (store s) /\
  store_orders_placed (store s) + store_slack <= daily_day s /\
  0 <= dc_orders_placed (distribution_center s) /\
  dc_orders_placed (distribution_center s) + dc_slack <= daily_day s.

(** *** The distribution center *)

Definition dc_ceiling : Z := Z.max (initial_on_hand_dc config) (S_dc config).

Definition row_dc_position_bounded (row : Row) : Prop :=
  (inject_Z (s_dc config) <= row_dc_on_hand row + row_dc_on_order row)%Q /\
  (row_dc_on_hand row + row_dc_on_order row <= inject_Z dc_ceiling)%Q.

Definition dc_invariant (s : Sim) : Prop :=
  backorder (dc_inventory (distribution_center s)) = 0 /\
  0 <= on_hand (dc_inventory (distribution_center s)) /\
  inventory_position (dc_inventory (distribution_center s)) <= dc_ceiling /\
  Forall row_dc_position_bounded (sim_timeseries s).

End Stages.

(** ** Demand peaks as a product *)

Definition peak_covers (day : Z) (peak : DemandPeak) : bool :=
  (start_day peak <=? day) && (day <=? end_day peak).

(** The multipliers of the peaks whose window contains the day, multiplied in
    the order of the peaks, from 1. *)
Definition covering_product {rt : Runtime} (peaks : list DemandPeak) (day : Z) : Q :=
  fold_left float_mul (map multiplier (filter (peak_covers day) peaks)) 1%Q.

(** ** api/app.py

    The request models with their [Field] constraints, the in-memory job
    table, and the job that a request starts.  A job dictionary is a record
    of its seven keys, and [_jobs_by_id] an association list from job ids.
    The identifier ([uuid.uuid4()]) and the time stamps ([_utc_now_iso()])
    are arguments.  Every access to the table is made under [_jobs_lock];
    [run_job], which runs in a thread of its own, is the sequence of its
    updates of the table. *)

Record DemandPeakIn : Type := mkDemandPeakIn {
  in_start_day : Z;
  in_end_day : Z;
  in_multiplier : Q
}.

Record SimulationConfigIn : Type := mkSimulationConfigIn {
  in_days : Z;
  in_demand_lambda_per_day : Q;
  in_demand_peaks : list DemandPeakIn;
  in_s_store : Z;
  in_S_store : Z;
  in_s_dc : Z;
  in_S_dc : Z;
  in_initial_on_hand_store : Z;
  in_initial_on_hand_dc : Z;
  in_lead_time_mean_days : Q;
  in_lead_time_std_days : Q;
  in_disruption_probability_per_shipment : Q;
  in_disruption_delay_days : Q;
  in_seed : option Z
}.

Record SimulationRequest : Type := mkSimulationRequest {
  request_config : SimulationConfigIn;
  request_replications : Z
}.




(** Lines 77-99; [holding_cost_per_unit_per_day] keeps its default. *)
Definition _cfg_from_in (data : SimulationConfigIn) : SimulationConfig :=
  let peaks :=
    map (fun p => mkDemandPeak (in_start_day p) (in_end_day p) (in_multiplier p))
      (in_demand_peaks data) in
  mkSimulationConfig (in_days data) (in_demand_lambda_per_day data) peaks
    (in_s_store data) (in_S_store data) (in_s_dc data) (in_S_dc data)
    (in_initial_on_hand_store data) (in_initial_on_hand_dc data)
    (in_lead_time_mean_days data) (in_lead_time_std_days data)
    (in_disruption_probability_per_shipment data)
    (in_disruption_delay_days data) 0 (in_seed data).

(** The [payload] dictionaries of lines 164-169 and 180-184. *)
Inductive Payload : Type :=
| SinglePayload (payload_kpis : KPIs) (payload_timeseries : list Row)
    (payload_config : SimulationConfig)
| MonteCarloPayload (payload_summary : MonteCarloSummary)
    (payload_config : SimulationConfig).

(** The value of its ["type"] key. *)
Definition payload_type (payload : Payload) : string :=
  match payload with
  | SinglePayload _ _ _ => "single"
  | MonteCarloPayload _ _ => "monte_carlo"
  end.

(** A job dictionary (lines 150-158). *)
Record Job : Type := mkJob {
  job_id : string;
  job_status : string;
  job_progress : Q;
  job_created_at : string;
  job_finished_at : option string;
  job_result : option Payload;
  job_error : option string
}.

Definition Jobs : Type := list (string * Job).

(** [d[key] = v]. *)
Fixpoint dict_set {A : Type} (key : string) (v : A) (d : list (string * A))
  : list (string * A) :=
  match d with
  | [] => [(key, v)]
  | (k, x) :: d' =>
      if String.eqb k key then (k, v) :: d' else (k, x) :: dict_set key v d'
  end.

(** The keyword arguments that the calls of [_set_job_fields] pass. *)
Inductive JobField : Type :=
| status_ (v : string)
| progress_ (v : Q)
| finished_at_ (v : string)
| result_ (v : Payload)
| error_ (v : string).

Definition set_job_field (job : Job) (field : JobField) : Job :=
  match field with
  | status_ v =>
      mkJob (job_id job) v (job_progress job) (job_created_at job)
        (job_finished_at job) (job_result job) (job_error job)
  | progress_ v =>
      mkJob (job_id job) (job_status job) v (job_created_at job)
        (job_finished_at job) (job_result job) (job_error job)
  | finished_at_ v =>
      mkJob (job_id job) (job_status job) (job_progress job) (job_created_at job)
        (Some v) (job_result job) (job_error job)
  | result_ v =>
      mkJob (job_id job) (job_status job) (job_progress job) (job_created_at job)
        (job_finished_at job) (Some v) (job_error job)
  | error_ v =>
      mkJob (job_id job) (job_status job) (job_progress job) (job_created_at job)
        (job_finished_at job) (job_result job) (Some v)
  end.

(** Lines 123-131: [_jobs_by_id[job_id].update(fields)] when the job is in
    the table, nothing otherwise. *)
Definition _set_job_fields (id : string) (fields : list JobField) (jobs : Jobs)
  : Jobs :=
  match lookup id jobs with
  | Some job => dict_set id (fold_left set_job_field fields job) jobs
  | None => jobs
  end.

(** [str(exc)] of an exception raised with one message. *)
Definition str (exc : Exception) : string :=
  match exc with
  | ValueError msg | RuntimeError msg | ZeroDivisionError msg => msg
  end.

Inductive HTTPException : Type :=
| mkHTTPException (status_code : Z) (detail : string).

(** Lines 149-158 of [start_simulation]: the job enters the table. *)
Definition start_simulation (id created_at : string) (jobs : Jobs) : Jobs :=
  dict_set id (mkJob id "running" 0 created_at None None None) jobs.

(** Lines 209-217. *)
Definition get_simulation (id : string) (jobs : Jobs) : HTTPException + Job :=
  match lookup id jobs with
  | None => inl (mkHTTPException 404 "job not found")
  | Some job => inr job
  end.

Section Api.

Context {rt : Runtime}.

(** Lines 160-201: the thread of a job.  [call] counts the generators
    created by the process so far. *)
Definition run_job (request : SimulationRequest) (id finished_at : string)
    (call : nat) (jobs : Jobs) : Jobs :=
  let config := _cfg_from_in (request_config request) in
  let complete payload :=
    _set_job_fields id
      [status_ "complete"; finished_at_ finished_at; result_ payload] in
  let failed exc :=
    _set_job_fields id
      [status_ "error"; finished_at_ finished_at; error_ (str exc)] in
  if request_replications request =? 1 then
    match run_single config call with
    | inr result =>
        let payload :=
          SinglePayload (kpis result) (timeseries result) (result_config result) in
        complete payload (_set_job_fields id [progress_ 1] jobs)
    | inl exc => failed exc jobs
    end
  else
    let progress_callback progress := _set_job_fields id [progress_ progress] in
    match monte_carlo config (request_replications request)
            (Some progress_callback) call jobs with
    | (inr monte_carlo_result, jobs') =>
        let payload :=
          MonteCarloPayload (summary monte_carlo_result)
            (mc_config monte_carlo_result) in
        complete payload (_set_job_fields id [progress_ 1] jobs')
    | (inl exc, jobs') => failed exc jobs'
    end.

(** What a job's thread leaves of the job [before] it: finished at
    [finished_at], either complete with a payload of the kind [kind] and
    progress 1, or in error with the message of [raised]. *)
Definition job_finished (kind finished_at : string) (before : Job)
    (raised : option Exception) (job : Job) : Prop :=
  job_id job = job_id before /\
  job_created_at job = job_created_at before /\
  job_finished_at job = Some finished_at /\
  match raised with
  | None =>
      job_status job = "complete"%string /\
      job_progress job = 1%Q /\
      (exists payload,
          job_result job = Some payload /\ payload_type payload = kind) /\
      job_error job = job_error before
  | Some exc =>
      job_status job = "error"%string /\
      job_error job = Some (str exc) /\
      job_result job = job_result before
  end.

(** The outcome of the computation of a request. *)
Definition request_raises (request : SimulationRequest) (call : nat)
  : option Exception :=
  let config := _cfg_from_in (request_config request) in
  if request_replications request =? 1 then
    match run_single config call with
    | inr _ => None
    | inl exc => Some exc
    end
  else
    match fst (monte_carlo (World := unit) config
                 (request_replications request) None call tt) with
    | inr _ => None
    | inl exc => Some exc
    end.

Definition request_kind (request : SimulationRequest) : string :=
  if request_replications request =? 1 then "single" else "monte_carlo".

End Api.

(** [job] is [before] but for its progress. *)
Definition progress_only (before job : Job) : Prop :=
  job_id job = job_id before /\
  job_status job = job_status before /\
  job_created_at job = job_created_at before /\
  job_finished_at job = job_finished_at before /\
  job_result job = job_result before /\
  job_error job = job_error before.

(** The table [jobs'] is [jobs] but for the progress of job [id]. *)
Definition table_progress_only (id : string) (before : Job) (jobs jobs' : Jobs)
  : Prop :=
  (exists job, lookup id jobs' = Some job /\ progress_only before job) /\
  (forall other, other <> id -> lookup other jobs' = lookup other jobs).


(** ** More concrete inputs *)

Module Fixtures.

(** The configuration of [test_monte_carlo_supports_demand_peaks]. *)
Definition peak_config : SimulationConfig :=
  mkSimulationConfig 30 10 [mkDemandPeak 5 10 2] 80 160 300 600 120 500
    7 2 0 0 0 (Some 10).

(** One day, a store with 10 units that never reorders, and a lead time
    with mean 0: the run raises only when the day's demand exceeds the
    store's stock, so that a backorder is shipped.  With [TestRng] the
    demands under seeds 2, 3 and 4 are 5, 2 and 11. *)
Definition lazy_config : SimulationConfig :=
  mkSimulationConfig 1 10 [] 0 0 0 0 10 100 0 0 0 0 0 (Some 2).

Definition lazy_result_0 : SimulationResult :=
  Eval vm_compute in
    match run_single (rt := TestRng.runtime) (replication_config lazy_config 0) 0 with
    | inr r => r
    | inl _ => TestRng.week_result
    end.

Definition lazy_result_1 : SimulationResult :=
  Eval vm_compute in
    match run_single (rt := TestRng.runtime) (replication_config lazy_config 1) 1 with
    | inr r => r
    | inl _ => TestRng.week_result
    end.

Definition lazy_runs (i : nat) : SimulationResult :=
  match i with
  | O => lazy_result_0
  | S _ => lazy_result_1
  end.

(** The request of [test_api_simulation_single_completes]. *)
Definition api_request : SimulationRequest :=
  mkSimulationRequest
    (mkSimulationConfigIn 30 15 [] 80 160 200 400 120 300 7 2 0 0 (Some 123)) 1.


(** A table with two running jobs. *)
Definition api_jobs : Jobs :=
  start_simulation "job-2" "2024-01-01T00:00:01+00:00"
    (start_simulation "job-1" "2024-01-01T00:00:00+00:00" []).

Definition api_job_1 : Job :=
  mkJob "job-1" "running" 0 "2024-01-01T00:00:00+00:00" None None None.

End Fixtures.

(** * Properties *)

(** ** Comparisons *)

Lemma Qltb_true (x y : Q) : Qltb x y = true <-> (x < y)%Q.
Proof.
  unfold Qltb. rewrite negb_true_iff. split.
  - intros H. apply Qnot_le_lt. intros Hle.
    apply Qle_bool_iff in Hle. congruence.
  - intros H. destruct (Qle_bool y x) eqn:E; [|reflexivity].
    apply Qle_bool_iff in E. exfalso. apply (Qlt_not_le _ _ H E).
Qed.

Lemma Qltb_false (x y : Q) : Qltb x y = false <-> (y <= x)%Q.
Proof.
  unfold Qltb. rewrite negb_false_iff. apply Qle_bool_iff.
Qed.

(** ** Sums of floats *)

Section FloatFacts.

Context {rt : Runtime}.


Lemma float_add_0_l (y : Q) : (float_add 0 y == y)%Q.
Proof.
  unfold float_add. destruct (Qeq_bool y 0) eqn:E; [|reflexivity].
  apply Qeq_bool_iff in E. now rewrite E.
Qed.

Lemma is_integer_inject_Z (x : Q) (a : Z) :
  (x == inject_Z a)%Q -> is_integer x = true.
Proof.
  intros H. unfold is_integer. apply Qeq_bool_iff.
  rewrite (Qfloor_comp _ _ H), Qfloor_Z. exact H.
Qed.

(** Whole numbers add up exactly. *)
Lemma float_add_integer (x : Q) (a b : Z) :
  (x == inject_Z a)%Q ->
  (float_add x (inject_Z b) == inject_Z (a + b))%Q.
Proof.
  intros H. unfold float_add. rewrite inject_Z_plus.
  destruct (Qeq_bool (inject_Z b) 0) eqn:Eb.
  { apply Qeq_bool_iff in Eb. rewrite Eb, H. ring. }
  destruct (Qeq_bool x 0) eqn:Ex.
  { apply Qeq_bool_iff in Ex. rewrite <- H, Ex. ring. }
  rewrite (is_integer_inject_Z x a H).
  rewrite (is_integer_inject_Z (inject_Z b) b (Qeq_refl _)).
  cbn [andb]. rewrite H. reflexivity.
Qed.

End FloatFacts.

(** ** Actors and policy *)

(** C3. [Store.consume_demand] clamps the quantity at zero, adds it to
    [demand_units], fulfils [min(on_hand, qty)] (taken from [on_hand], added
    to [fulfilled_units]), adds the unmet remainder to [backorder], and adds
    exactly 1 to [stockout_days] if and only if the remainder is positive;
    [on_order] and [orders_placed] are untouched. *)
Theorem consume_demand_spec (demand_qty : Z) (self : Store) :
  let qty := Z.max 0 demand_qty in
  let fulfilled := Z.min (on_hand (store_inventory self)) qty in
  let unmet := qty - fulfilled in
  let self' := Store_consume_demand demand_qty self in
  0 <= qty /\
  demand_units self' = demand_units self + qty /\
  on_hand (store_inventory self') = on_hand (store_inventory self) - fulfilled /\
  fulfilled_units self' = fulfilled_units self + fulfilled /\
  0 <= unmet /\
  backorder (store_inventory self') = backorder (store_inventory self) + unmet /\
  stockout_days self' = stockout_days self + (if 0 <? unmet then 1 else 0) /\
  (stockout_days self' = stockout_days self + 1 <-> 0 < unmet) /\
  (stockout_days self' = stockout_days self <-> unmet = 0) /\
  on_order (store_inventory self') = on_order (store_inventory self) /\
  store_orders_placed self' = store_orders_placed self.
Proof.
  intros qty fulfilled unmet self'.
  assert (Hq : 0 <= qty) by (unfold qty; lia).
  assert (Hu : 0 <= unmet) by (unfold unmet, fulfilled; lia).
  subst self'. unfold Store_consume_demand. cbn.
  fold qty. fold fulfilled. fold unmet.
  destruct (0 <? unmet) eqn:E;
    [apply Z.ltb_lt in E | apply Z.ltb_ge in E];
    repeat split; try lia.
Qed.

(** C4. [order_up_to_sS] raises when [s > S]; otherwise it returns
    [max(0, S - inventory_position)] when [inventory_position <= s] and 0
    above [s]; the three values of the unit tests. *)
Theorem order_up_to_sS_spec (inventory_position s S : Z) :
  (S < s ->
   order_up_to_sS inventory_position s S
   = inl (ValueError "Policy requires s <= S")) /\
  (s <= S -> inventory_position <= s ->
   order_up_to_sS inventory_position s S = inr (Z.max 0 (S - inventory_position))) /\
  (s <= S -> s < inventory_position ->
   order_up_to_sS inventory_position s S = inr 0) /\
  order_up_to_sS 50 80 160 = inr 110 /\
  order_up_to_sS 81 80 160 = inr 0 /\
  order_up_to_sS 0 10 5 = inl (ValueError "Policy requires s <= S").
Proof.
  unfold order_up_to_sS. repeat split; try reflexivity.
  - intros H. apply Z.ltb_lt in H. now rewrite H.
  - intros H1 H2. apply Z.ltb_ge in H1. apply Z.leb_le in H2.
    now rewrite H1, H2.
  - intros H1 H2. apply Z.ltb_ge in H1. apply Z.leb_gt in H2.
    now rewrite H1, H2.
Qed.

Lemma order_up_to_sS_spec_witness :
  order_up_to_sS 7 9 3 = inl (ValueError "Policy requires s <= S") /\
  order_up_to_sS 4 10 25 = inr 21 /\
  order_up_to_sS 30 10 25 = inr 0.
Proof.
  split; [|split].
  - apply (proj1 (order_up_to_sS_spec 7 9 3)). lia.
  - apply (proj1 (proj2 (order_up_to_sS_spec 4 10 25))); lia.
  - apply (proj1 (proj2 (proj2 (order_up_to_sS_spec 30 10 25)))); lia.
Defined.

(** ** Samplers *)

Section SamplerFacts.

Context {rt : Runtime}.

(** C6. [disruption_delay] raises when the probability is outside [[0, 1]]
    or the delay is negative; on valid parameters with a zero probability
    or a zero delay it returns 0 and the very generator state it was given,
    so whatever is drawn next is what a run without the call draws. *)
Theorem disruption_delay_spec (rng : Rng) (probability delay_days : Q) :
  ((probability < 0)%Q \/ (1 < probability)%Q ->
   disruption_delay rng probability delay_days
   = inl (ValueError "disruption_probability_per_shipment must be in [0,1]")) /\
  ((0 <= probability)%Q -> (probability <= 1)%Q -> (delay_days < 0)%Q ->
   disruption_delay rng probability delay_days
   = inl (ValueError "disruption_delay_days must be >= 0")) /\
  ((0 <= probability)%Q -> (probability <= 1)%Q -> (0 <= delay_days)%Q ->
   (probability == 0)%Q \/ (delay_days == 0)%Q ->
   disruption_delay rng probability delay_days = inr (0%Q, rng) /\
   forall (A : Type) (next_draw : Rng -> A) r,
     disruption_delay rng probability delay_days = inr r ->
     next_draw (snd r) = next_draw rng).
Proof.
  assert (Hrange : (0 <= probability)%Q -> (probability <= 1)%Q ->
                   Qltb probability 0 || Qltb 1 probability = false).
  { intros H0 H1. apply orb_false_iff. split; now apply Qltb_false. }
  unfold disruption_delay. repeat split.
  - intros [H | H]; apply Qltb_true in H; rewrite H;
      [reflexivity | now rewrite orb_true_r].
  - intros H0 H1 Hd. rewrite (Hrange H0 H1).
    apply Qltb_true in Hd. now rewrite Hd.
  - rewrite (Hrange H H0). apply Qltb_false in H1. rewrite H1.
    destruct H2 as [E | E]; apply Qeq_bool_iff in E; rewrite E;
      [reflexivity | now rewrite orb_true_r].
  - intros A next_draw r. rewrite (Hrange H H0).
    apply Qltb_false in H1. rewrite H1.
    assert (E : Qeq_bool probability 0 || Qeq_bool delay_days 0 = true).
    { destruct H2 as [E | E]; apply Qeq_bool_iff in E; rewrite E;
        [reflexivity | now rewrite orb_true_r]. }
    rewrite E. intros Hr. injection Hr as <-. reflexivity.
Qed.

End SamplerFacts.

(** ** The lognormal sampler on binary64 floats *)






Section Binary64Theorem.

Context {rt : Binary64.Runtime}.




End Binary64Theorem.

(** ** The event heap *)

Lemma key_leb_true_time (a b : Scheduled) :
  key_leb a b = true -> (ev_time a <= ev_time b)%Q.
Proof.
  unfold key_leb. destruct (ev_time a ?= ev_time b)%Q eqn:E; intros H.
  - apply Qeq_alt in E. rewrite E. apply Qle_refl.
  - apply Qlt_alt in E. now apply Qlt_le_weak.
  - discriminate.
Qed.

Lemma key_leb_false_time (a b : Scheduled) :
  key_leb a b = false -> (ev_time b <= ev_time a)%Q.
Proof.
  unfold key_leb. destruct (ev_time a ?= ev_time b)%Q eqn:E; intros H.
  - apply Qeq_alt in E. rewrite E. apply Qle_refl.
  - discriminate.
  - apply Qgt_alt in E. now apply Qlt_le_weak.
Qed.

Lemma heappop_None (q : list Scheduled) : heappop q = None -> q = [].
Proof.
  destruct q as [|x q]; [reflexivity|]. simpl.
  destruct (heappop q) as [[m rest]|]; [|discriminate].
  destruct (key_leb x m); discriminate.
Qed.

Lemma heappop_In (q : list Scheduled) :
  forall ev rest, heappop q = Some (ev, rest) ->
  forall x, In x q <-> x = ev \/ In x rest.
Proof.
  induction q as [|y q IH]; intros ev rest H x; [discriminate|].
  simpl in H. destruct (heappop q) as [[m rest']|] eqn:E.
  - specialize (IH m rest' eq_refl).
    destruct (key_leb y m); injection H as <- <-; simpl.
    + split; intros [->|Hx]; auto.
    + rewrite IH. split; intros Hx; intuition auto.
  - apply heappop_None in E. subst q. injection H as <- <-.
    simpl. intuition auto.
Qed.

Lemma heappop_min_time (q : list Scheduled) :
  forall ev rest, heappop q = Some (ev, rest) ->
  forall x, In x rest -> (ev_time ev <= ev_time x)%Q.
Proof.
  induction q as [|y q IH]; intros ev rest H x Hx; [discriminate|].
  simpl in H. destruct (heappop q) as [[m rest']|] eqn:E.
  - pose proof (heappop_In q m rest' E) as Hin.
    specialize (IH m rest' eq_refl).
    destruct (key_leb y m) eqn:K; injection H as <- <-.
    + apply key_leb_true_time in K. apply Hin in Hx as [->|Hx]; [exact K|].
      eapply Qle_trans; [exact K | now apply IH].
    + apply key_leb_false_time in K. destruct Hx as [<-|Hx]; [exact K|].
      now apply IH.
  - injection H as <- <-. destruct Hx.
Qed.





Lemma heappop_qsum (f : Scheduled -> Z) (q : list Scheduled) :
  forall ev rest, heappop q = Some (ev, rest) -> qsum f q = f ev + qsum f rest.
Proof.
  induction q as [|y q IH]; intros ev rest H; [discriminate|].
  simpl in H. destruct (heappop q) as [[m rest']|] eqn:E.
  - specialize (IH m rest' eq_refl).
    destruct (key_leb y m); injection H as <- <-; simpl; lia.
  - apply heappop_None in E. subst q. injection H as <- <-. reflexivity.
Qed.

(** ** Reasoning about the monadic code *)

Section Hoare.

Context {rt : Runtime}.

Lemma hoare_ret {A : Type} (P : Sim -> Prop) (a : A) :
  hoare P (ret a) (fun _ => P).
Proof. intros s a' s' HP H. injection H as <- <-. exact HP. Qed.

Lemma hoare_bind {A B : Type} (P : Sim -> Prop) (Q : A -> Sim -> Prop)
    (R : B -> Sim -> Prop) (m : M A) (k : A -> M B) :
  hoare P m Q -> (forall a, hoare (Q a) (k a) R) -> hoare P (bind m k) R.
Proof.
  intros Hm Hk s b s' HP H. unfold bind in H.
  destruct (m s) as [e | [a s1]] eqn:E; [discriminate|].
  exact (Hk a s1 b s' (Hm s a s1 HP E) H).
Qed.

Lemma hoare_skip {A : Type} (P Q : Sim -> Prop) (a : A) :
  (forall s, P s -> Q s) -> hoare P (ret a) (fun _ => Q).
Proof. intros HPQ s a' s' HP H. injection H as <- <-. auto. Qed.

Lemma hoare_gets {A : Type} (P : Sim -> Prop) (f : Sim -> A) :
  hoare P (gets f) (fun _ => P).
Proof. intros s a s' HP H. injection H as <- <-. exact HP. Qed.

Lemma hoare_raise_result {A : Type} (P : Sim -> Prop) (r : result A) :
  hoare P (raise_result r) (fun _ => P).
Proof.
  intros s a s' HP H. unfold raise_result in H.
  destruct r; [discriminate|]. injection H as <- <-. exact HP.
Qed.

Lemma hoare_modify (P Q : Sim -> Prop) (f : Sim -> Sim) :
  (forall s, P s -> Q (f s)) -> hoare P (modify f) (fun _ => Q).
Proof. intros Hf s a s' HP H. injection H as <- <-. auto. Qed.

Lemma hoare_draw {A : Type} (P : Sim -> Prop) (sample : Rng -> result (A * Rng)) :
  (forall s g, P s -> P (set_random_generator g s)) ->
  hoare P (draw sample) (fun _ => P).
Proof.
  intros Hg s a s' HP H. unfold draw in H.
  destruct (sample (random_generator s)) as [e | [a' g]]; [discriminate|].
  injection H as <- <-. auto.
Qed.

Lemma hoare_if {A : Type} (P : Sim -> Prop) (Q : A -> Sim -> Prop)
    (b : bool) (m1 m2 : M A) :
  (b = true -> hoare P m1 Q) -> (b = false -> hoare P m2 Q) ->
  hoare P (if b then m1 else m2) Q.
Proof. destruct b; auto. Qed.

Lemma hoare_weaken {A : Type} (P P' : Sim -> Prop) (Q Q' : A -> Sim -> Prop)
    (m : M A) :
  hoare P m Q -> (forall s, P' s -> P s) -> (forall a s, Q a s -> Q' a s) ->
  hoare P' m Q'.
Proof. intros H HP HQ s a s' HP' E. eauto. Qed.

Variable config : SimulationConfig.

(** The proof rule of one day.  [P] holds before the demand draw; [Q i]
    holds afterwards, where [i] counts the calls of
    [schedule_inbound_shipment] that the day may have made so far. *)
Lemma daily_body_hoare (day : Z) (P : Sim -> Prop) (Q : nat -> Sim -> Prop) :
  (forall s g, P s -> P (set_random_generator g s)) ->
  (forall s demand, P s -> Q 0%nat (consume_demand day demand s)) ->
  (forall i s, Q i s -> Q (S i) s) ->
  (forall i quantity,
      hoare (Q i) (ship_to_store quantity) (fun _ => Q i)) ->
  (forall i receiver quantity,
      hoare (Q i) (schedule_inbound_shipment config receiver quantity)
        (fun _ => Q (S i))) ->
  (forall i s, Q i s -> Q i (incr_store_orders s)) ->
  (forall i s n, 0 < n -> Q i s -> Q i (add_store_backorder n s)) ->
  (forall i s, Q i s -> Q i (incr_dc_orders s)) ->
  (forall s, Q 3%nat s -> Q 3%nat (append_row day s)) ->
  hoare P (daily_body config day) (fun _ => Q 3%nat).
Proof.
  intros Hrng Hconsume Hmono Hship Hsched Hso Hbo Hdo Hrow.
  unfold daily_body.
  eapply hoare_bind; [apply hoare_draw, Hrng | intros demand].
  eapply hoare_bind; [apply hoare_modify; intros s; apply Hconsume | intros ?].
  eapply hoare_bind; [apply hoare_gets | intros owed].
  eapply hoare_bind with (Q := fun _ => Q 1%nat).
  { apply hoare_if; intros _.
    - eapply hoare_bind; [apply Hship | intros shipped].
      apply hoare_if; intros _; [apply Hsched|].
      apply hoare_skip, Hmono.
    - apply hoare_skip, Hmono. }
  intros ?.
  eapply hoare_bind; [apply hoare_gets | intros position].
  eapply hoare_bind; [apply hoare_raise_result | intros quantity].
  eapply hoare_bind with (Q := fun _ => Q 2%nat).
  { apply hoare_if; intros _.
    - eapply hoare_bind; [apply hoare_modify; intros s; apply Hso | intros ?].
      eapply hoare_bind; [apply Hship | intros shipped].
      eapply hoare_bind with (Q := fun _ => Q 2%nat).
      { apply hoare_if; intros _; [apply Hsched|].
        apply hoare_skip, Hmono. }
      intros ?. apply hoare_if; intros Hpos.
      + apply hoare_modify. intros s. apply Hbo. now apply Z.ltb_lt.
      + apply hoare_ret.
    - apply hoare_skip, Hmono. }
  intros ?.
  eapply hoare_bind; [apply hoare_gets | intros dc_position].
  eapply hoare_bind; [apply hoare_raise_result | intros dc_quantity].
  eapply hoare_bind with (Q := fun _ => Q 3%nat).
  { apply hoare_if; intros _.
    - eapply hoare_bind; [apply hoare_modify; intros s; apply Hdo | intros ?].
      apply Hsched.
    - apply hoare_skip, Hmono. }
  intros ?. apply hoare_modify. exact Hrow.
Qed.

End Hoare.

(** ** The event loop *)

Ltac sim_unfold :=
  unfold started, initial_sim, deliver, consume_demand, env_process_arrival,
    add_on_order, receiver_receive, add_store_backorder, incr_store_orders,
    incr_dc_orders, append_row in *;
  unfold set_receiver_inventory, receiver_inventory, env_schedule, popped,
    observe in *;
  unfold set_store, set_distribution_center, set_random_generator,
    set_daily_day, set_on_order in *.

Ltac sim_simpl :=
  sim_unfold;
  cbn [now queue eid random_generator store distribution_center daily_day
       sim_timeseries trace store_inventory demand_units fulfilled_units
       stockout_days store_orders_placed dc_inventory dc_orders_placed
       on_hand backorder on_order] in *.

Section RunFacts.

Context {rt : Runtime}.
Variable config : SimulationConfig.

Lemma step_transition (s s' : Sim) :
  step config s = Continue s' \/ step config s = Stopped s' ->
  transition config s s'.
Proof.
  unfold step. destruct (heappop (queue s)) as [[ev rest]|] eqn:Hpop.
  2:{ intros [H | H]; discriminate. }
  destruct (ev_callback ev) as [| r n lead | pid r n | |] eqn:Hcb.
  - unfold daily_process. cbn [daily_day popped].
    destruct (daily_day s <? days config) eqn:Hday.
    + apply Z.ltb_lt in Hday.
      destruct (daily_body config (daily_day s)
                  (set_daily_day (daily_day s + 1) (popped ev rest s)))
        as [e | [u s2]] eqn:Hbody.
      * intros [H | H]; discriminate.
      * intros [H | H]; [|discriminate]. injection H as <-.
        eapply transition_day; eauto.
    + apply Z.ltb_ge in Hday.
      intros [H | H]; [|discriminate]. injection H as <-.
      eapply transition_days_over; eauto.
  - unfold arrival_process_start. destruct (Qltb lead 0) eqn:Hlead.
    + intros [H | H]; discriminate.
    + apply Qltb_false in Hlead.
      intros [H | H]; [|discriminate]. injection H as <-.
      eapply transition_arrival_start; eauto.
  - unfold arrival_process_resume.
    intros [H | H]; [|discriminate]. injection H as <-.
    eapply transition_arrival; eauto.
  - intros [H | H]; [discriminate|]. injection H as <-.
    eapply transition_stop; eauto.
  - intros [H | H]; [|discriminate]. injection H as <-.
    eapply transition_done; eauto.
Qed.

Lemma env_loop_reachable (g : Rng) (fuel : nat) :
  forall s r, reachable config g s ->
  env_loop config fuel s = Some (inr r) -> reachable config g r.
Proof.
  induction fuel as [|fuel IH]; intros s r Hs H; [discriminate|].
  simpl in H. destruct (step config s) as [s1 | s1 | e] eqn:Hstep.
  - apply (IH s1 r); [|exact H].
    eapply reachable_step; [exact Hs | apply step_transition; auto].
  - injection H as <-.
    eapply reachable_step; [exact Hs | apply step_transition; auto].
  - discriminate.
Qed.

Lemma simulate_reachable (g : Rng) (s : Sim) :
  simulate config g = inr s -> 0 < days config /\ reachable config g s.
Proof.
  unfold simulate, env_run.
  destruct (Qle_bool (inject_Z (days config)) (now (initial_sim config g))) eqn:Hat;
    [discriminate|].
  assert (Hdays : 0 < days config).
  { destruct (Z_lt_le_dec 0 (days config)) as [Hlt | Hle]; [exact Hlt|].
    exfalso. assert (Qle_bool (inject_Z (days config)) 0 = true) as E.
    { apply Qle_bool_iff. rewrite (Zle_Qle (days config) 0) in Hle. exact Hle. }
    cbn [now initial_sim env_schedule] in Hat. congruence. }
  destruct (env_loop _ _ _) as [[e | r]|] eqn:Hloop; try discriminate.
  intros H. injection H as <-. split; [exact Hdays|].
  eapply env_loop_reachable; [apply reachable_start | exact Hloop].
Qed.

(** An invariant of the loop holds in every state of a run. *)
Lemma reachable_invariant (I : Sim -> Prop) (g : Rng) :
  I (started config g) ->
  (forall s s', I s -> transition config s s' -> I s') ->
  forall s, reachable config g s -> I s.
Proof.
  intros Hstart Hstep s Hs. induction Hs; eauto.
Qed.

(** What a call of [schedule_inbound_shipment] does when it returns. *)
Lemma schedule_inbound_shipment_cases (receiver : Receiver) (quantity : Z)
    (s s' : Sim) (u : unit) :
  schedule_inbound_shipment config receiver quantity s = inr (u, s') ->
  (quantity <= 0 /\ s' = s) \/
  (0 < quantity /\
   exists x g1 y g2,
     lognormal_days (random_generator s)
       (lead_time_mean_days config) (lead_time_std_days config) = inr (x, g1) /\
     disruption_delay g1 (disruption_probability_per_shipment config)
       (disruption_delay_days config) = inr (y, g2) /\
     s' = env_process_arrival receiver quantity (float_add x y)
            (set_random_generator g2 (add_on_order receiver quantity s))).
Proof.
  unfold schedule_inbound_shipment. destruct u.
  destruct (quantity <=? 0) eqn:Hq.
  - apply Z.leb_le in Hq. intros H. injection H as <-. left. auto.
  - apply Z.leb_gt in Hq. unfold bind, modify, draw.
    assert (Hg : random_generator (add_on_order receiver quantity s)
                 = random_generator s) by (destruct receiver; reflexivity).
    rewrite Hg.
    destruct (lognormal_days _ _ _) as [e | [x g1]] eqn:Hx; [discriminate|].
    cbn [random_generator set_random_generator].
    destruct (disruption_delay _ _ _) as [e | [y g2]] eqn:Hy; [discriminate|].
    intros H. injection H as <-. right. split; [exact Hq|].
    exists x, g1, y, g2. repeat split; assumption.
Qed.

End RunFacts.

(** ** Stock levels stay non-negative *)

Lemma inject_Z_nonneg (x : Z) : 0 <= x -> (0 <= inject_Z x)%Q.
Proof. intros H. rewrite Zle_Qle in H. exact H. Qed.

Section StockFacts.

Context {rt : Runtime}.
Variable config : SimulationConfig.

Lemma stock_consume_demand (day demand : Z) (s : Sim) :
  stock_invariant config 1 s ->
  stock_invariant config 0 (consume_demand day demand s).
Proof.
  unfold stock_invariant. sim_simpl. unfold Store_consume_demand. sim_simpl.
  intros (H1 & H2 & H3 & H4 & H5 & H6 & H7 & H8).
  destruct (0 <? _) eqn:E; [apply Z.ltb_lt in E | apply Z.ltb_ge in E];
    repeat split; try assumption; lia.
Qed.

Lemma stock_ship_to_store (slack quantity : Z) :
  hoare (stock_invariant config slack) (ship_to_store quantity)
    (fun _ => stock_invariant config slack).
Proof.
  intros s shipped s' H E.
  unfold ship_to_store, DistributionCenter_ship_to_store in E.
  destruct (quantity <=? 0); injection E as <- <-; [exact H|].
  revert H. unfold stock_invariant. sim_simpl.
  intros (H1 & H2 & H3 & H4 & H5 & H6 & H7 & H8).
  repeat split; try assumption; lia.
Qed.

Lemma stock_schedule_inbound_shipment (slack : Z) (receiver : Receiver) (quantity : Z) :
  hoare (stock_invariant config slack)
    (schedule_inbound_shipment config receiver quantity)
    (fun _ => stock_invariant config slack).
Proof.
  intros s u s' H E.
  apply schedule_inbound_shipment_cases in E
    as [[_ ->] | (_ & x & g1 & y & g2 & _ & _ & ->)]; [exact H|].
  revert H. unfold stock_invariant. destruct receiver; sim_simpl; exact (fun H => H).
Qed.

Lemma stock_receive (slack : Z) (receiver : Receiver) (pid : nat) (quantity : Z)
    (s : Sim) :
  stock_invariant config slack s ->
  stock_invariant config slack (deliver pid receiver quantity s).
Proof.
  unfold stock_invariant, Store_receive, DistributionCenter_receive.
  intros (H1 & H2 & H3 & H4 & H5 & H6 & H7 & H8).
  destruct receiver; sim_simpl;
    unfold Store_receive, DistributionCenter_receive;
    destruct (quantity <=? 0) eqn:Eq; sim_simpl;
    try (repeat split; try assumption; lia).
  apply Z.leb_gt in Eq.
  destruct (0 <? backorder (store_inventory (store s))) eqn:Eb;
    [apply Z.ltb_lt in Eb | apply Z.ltb_ge in Eb];
    repeat split; try assumption; lia.
Qed.

Lemma stock_append_row (day : Z) (s : Sim) :
  stock_invariant config 0 s -> stock_invariant config 0 (append_row day s).
Proof.
  unfold stock_invariant. sim_simpl.
  intros (H1 & H2 & H3 & H4 & H5 & H6 & H7 & H8).
  repeat split; try assumption; try lia.
  apply Forall_app. split; [exact H8|].
  constructor; [|constructor].
  unfold row_nonneg. cbn. auto using inject_Z_nonneg.
Qed.

Lemma stock_daily_body (day : Z) :
  hoare (stock_invariant config 1) (daily_body config day)
    (fun _ => stock_invariant config 0).
Proof.
  apply (daily_body_hoare config day (stock_invariant config 1)
           (fun _ => stock_invariant config 0)).
  - intros s g H. exact H.
  - intros s demand. apply stock_consume_demand.
  - auto.
  - intros _ quantity. apply stock_ship_to_store.
  - intros _ receiver quantity. apply stock_schedule_inbound_shipment.
  - intros _ s H. exact H.
  - intros _ s n Hn. unfold stock_invariant. sim_simpl.
    intros (H1 & H2 & H3 & H4 & H5 & H6 & H7 & H8).
    repeat split; try assumption; lia.
  - intros _ s H. exact H.
  - intros s. apply stock_append_row.
Qed.

Lemma stock_popped (slack : Z) (ev : Scheduled) (rest : list Scheduled) (s : Sim) :
  stock_invariant config slack s -> stock_invariant config slack (popped ev rest s).
Proof. exact (fun H => H). Qed.

Lemma stock_env_schedule (slack : Z) (p : nat) (delay : Q) (cb : Callback) (s : Sim) :
  stock_invariant config slack s ->
  stock_invariant config slack (env_schedule p delay cb s).
Proof. exact (fun H => H). Qed.

Lemma stock_transition (s s' : Sim) :
  stock_invariant config 0 s -> transition config s s' -> stock_invariant config 0 s'.
Proof.
  intros H T. destruct T as
    [s ev rest u s2 Hpop Hcb Hday Hbody | s ev rest Hpop Hcb Hday
     | s ev rest r n lead Hpop Hcb Hlead | s ev rest pid r n Hpop Hcb
     | s ev rest Hpop Hcb | s ev rest Hpop Hcb ].
  - apply stock_env_schedule.
    refine (stock_daily_body _ _ _ _ _ Hbody).
    revert H. unfold stock_invariant. sim_simpl.
    intros (H1 & H2 & H3 & H4 & H5 & H6 & H7 & H8).
    repeat split; try assumption; lia.
  - exact H.
  - exact H.
  - apply stock_env_schedule, stock_receive, stock_popped, H.
  - exact H.
  - exact H.
Qed.

Lemma stock_reachable (g : Rng) (s : Sim) :
  0 <= initial_on_hand_store config -> 0 <= initial_on_hand_dc config ->
  reachable config g s -> stock_invariant config 0 s.
Proof.
  intros Hs Hd. apply reachable_invariant; [|apply stock_transition].
  unfold stock_invariant. sim_simpl.
  repeat split; try assumption; try lia. constructor.
Qed.

End StockFacts.

(** ** Key performance indicators *)

Lemma ratio_bounds (a b : Z) :
  0 <= a <= b -> 0 < b ->
  (0 <= inject_Z a / inject_Z b <= 1)%Q.
Proof.
  intros [Ha Hab] Hb.
  assert (Hb' : (0 < inject_Z b)%Q) by (rewrite Zlt_Qlt in Hb; exact Hb).
  split.
  - apply Qle_shift_div_l; [exact Hb'|].
    rewrite Qmult_0_l. now apply inject_Z_nonneg.
  - apply Qle_shift_div_r; [exact Hb'|].
    rewrite Qmult_1_l. rewrite Zle_Qle in Hab. exact Hab.
Qed.

Lemma service_level_of_bounds (stockout days : Z) :
  0 <= stockout <= days -> 0 < days ->
  (0 <= service_level_of stockout days <= 1)%Q.
Proof.
  intros H Hd. unfold service_level_of.
  destruct (ratio_bounds stockout days H Hd) as [H0 H1].
  apply Z.ltb_lt in Hd. rewrite Hd.
  set (r := (inject_Z stockout / inject_Z days)%Q) in *.
  split; lra.
Qed.

Lemma fill_rate_of_bounds (fulfilled demand : Z) :
  0 <= fulfilled <= demand ->
  (0 <= fill_rate_of fulfilled demand <= 1)%Q.
Proof.
  intros H. unfold fill_rate_of.
  destruct (0 <? demand) eqn:E.
  - apply Z.ltb_lt in E. now apply ratio_bounds.
  - split; lra.
Qed.

Section RunSingleFacts.

Context {rt : Runtime}.

Lemma run_single_inv (config : SimulationConfig) (call : nat) (res : SimulationResult) :
  run_single config call = inr res ->
  exists s,
    res = summarise config s /\ 0 < days config /\
    reachable config (default_rng (seed config) call) s.
Proof.
  unfold run_single, run_single_from.
  destruct (simulate config _) as [e | s] eqn:E; [discriminate|].
  intros H. injection H as <-. exists s.
  apply simulate_reachable in E. tauto.
Qed.

(** [environment.run] rejects a horizon that is not in the future. *)
Lemma run_single_rejects_empty_horizon (config : SimulationConfig) (call : nat) :
  days config <= 0 ->
  run_single config call
  = inl (ValueError "until must be > the current simulation time").
Proof.
  intros H. unfold run_single, run_single_from, simulate, env_run.
  assert (E : Qle_bool (inject_Z (days config))
                (now (initial_sim config (default_rng (seed config) call))) = true).
  { apply Qle_bool_iff. rewrite Zle_Qle in H. exact H. }
  now rewrite E.
Qed.

(** C7. On a configuration with a horizon of at least one day and
    non-negative initial stocks, a run that completes has recorded only rows
    with non-negative on-hand stocks and backorder, has
    [0 <= fulfilled_units <= demand_units], and reports a service level and
    a fill rate in [[0, 1]]. *)
Theorem run_single_invariants (config : SimulationConfig) (call : nat)
    (res : SimulationResult) :
  1 <= days config ->
  0 <= initial_on_hand_store config ->
  0 <= initial_on_hand_dc config ->
  run_single config call = inr res ->
  Forall row_nonneg (timeseries res) /\
  0 <= kpi_fulfilled_units (kpis res) <= kpi_demand_units (kpis res) /\
  (0 <= service_level (kpis res) <= 1)%Q /\
  (0 <= fill_rate (kpis res) <= 1)%Q.
Proof.
  intros Hdays Hstore Hdc Hrun.
  apply run_single_inv in Hrun as (s & -> & _ & Hreach).
  apply stock_reachable in Hreach; [|assumption..].
  destruct Hreach as (H1 & H2 & H3 & H4 & H5 & H6 & H7 & H8).
  unfold summarise. cbn [timeseries kpis kpi_fulfilled_units kpi_demand_units
                           service_level fill_rate].
  repeat split; try assumption; try lia.
  - apply service_level_of_bounds; lia.
  - apply service_level_of_bounds; lia.
  - now apply fill_rate_of_bounds.
  - now apply fill_rate_of_bounds.
Qed.

(** C2 (as amended). A run that completes has a horizon of at least one day
    and reports [service_level = 1 - stockout_days / days]; in the guarded
    expression of line 154 a zero horizon replaces the ratio by 0, so that
    the expression is 1 there. *)
Theorem service_level_reported (config : SimulationConfig) (call : nat)
    (res : SimulationResult) :
  run_single config call = inr res ->
  1 <= days config /\
  (service_level (kpis res)
   == 1 - inject_Z (kpi_stockout_days (kpis res)) / inject_Z (days config))%Q /\
  (forall stockout, service_level_of stockout 0 = 1%Q).
Proof.
  intros Hrun. apply run_single_inv in Hrun as (s & -> & Hdays & _).
  split; [lia|]. split; [|reflexivity].
  unfold summarise. cbn [kpis service_level kpi_stockout_days].
  unfold service_level_of. apply Z.ltb_lt in Hdays. rewrite Hdays.
  reflexivity.
Qed.

End RunSingleFacts.

(** ** Pipeline stock *)

Lemma Receiver_eqb_refl (r : Receiver) : Receiver_eqb r r = true.
Proof. destruct r; reflexivity. Qed.

Lemma pipeline_nonneg (r : Receiver) (q : list Scheduled) :
  (forall ev, In ev q -> shipment_positive ev) -> 0 <= pipeline r q.
Proof.
  unfold pipeline. induction q as [|ev q IH]; intros H; simpl; [lia|].
  assert (0 <= pending_quantity r ev).
  { specialize (H ev (or_introl eq_refl)).
    unfold pending_quantity, shipment_positive in *.
    destruct (ev_callback ev); try lia; destruct (Receiver_eqb _ _); lia. }
  assert (0 <= qsum (pending_quantity r) q) by (apply IH; intros; apply H; now right).
  lia.
Qed.

Section PipelineFacts.

Context {rt : Runtime}.
Variable config : SimulationConfig.

Lemma on_order_Store_receive (quantity : Z) (st : Store) :
  on_order (store_inventory (Store_receive quantity st))
  = on_order (store_inventory st).
Proof. unfold Store_receive. now destruct (quantity <=? 0). Qed.

Lemma on_order_DistributionCenter_receive (quantity : Z) (dc : DistributionCenter) :
  on_order (dc_inventory (DistributionCenter_receive quantity dc))
  = on_order (dc_inventory dc).
Proof. unfold DistributionCenter_receive. now destruct (quantity <=? 0). Qed.

(** Delivery takes the quantity off [on_order] of the receiver, and off
    nothing else. *)
Lemma on_order_deliver (pid : nat) (receiver r : Receiver) (quantity : Z) (s : Sim) :
  on_order (receiver_inventory r (deliver pid receiver quantity s))
  = on_order (receiver_inventory r s)
    - (if Receiver_eqb r receiver then quantity else 0).
Proof.
  destruct receiver, r; sim_simpl;
    rewrite ?on_order_Store_receive, ?on_order_DistributionCenter_receive;
    cbn; lia.
Qed.

Lemma on_order_env_process_arrival (receiver r : Receiver) (quantity : Z)
    (lead : Q) (g : Rng) (s : Sim) :
  on_order (receiver_inventory r
              (env_process_arrival receiver quantity lead
                 (set_random_generator g (add_on_order receiver quantity s))))
  = on_order (receiver_inventory r s)
    + (if Receiver_eqb r receiver then quantity else 0).
Proof. destruct receiver, r; sim_simpl; cbn; lia. Qed.

Lemma pipeline_popped (s : Sim) (ev : Scheduled) (rest : list Scheduled) :
  heappop (queue s) = Some (ev, rest) ->
  pipeline_invariant s ->
  (forall r, on_order (receiver_inventory r s)
             = pending_quantity r ev + pipeline r rest) /\
  shipment_positive ev /\
  (forall x, In x rest -> shipment_positive x) /\
  Forall row_on_order_nonneg (sim_timeseries s).
Proof.
  intros Hpop (Hsum & Hpos & Hrows).
  pose proof (heappop_In _ _ _ Hpop) as Hin.
  repeat split.
  - intros r. rewrite Hsum. unfold pipeline. now apply heappop_qsum.
  - apply Hpos, Hin. now left.
  - intros x Hx. apply Hpos, Hin. now right.
  - exact Hrows.
Qed.

Lemma pipeline_schedule_inbound_shipment (receiver : Receiver) (quantity : Z) :
  hoare pipeline_invariant (schedule_inbound_shipment config receiver quantity)
    (fun _ => pipeline_invariant).
Proof.
  intros s u s' (Hsum & Hpos & Hrows) E.
  apply schedule_inbound_shipment_cases in E
    as [[_ ->] | (Hq & x & g1 & y & g2 & _ & _ & ->)]; [now repeat split|].
  repeat split.
  - intros r. rewrite on_order_env_process_arrival, Hsum.
    unfold pipeline. destruct receiver, r; sim_simpl; cbn; lia.
  - intros ev. destruct receiver; sim_simpl;
      (intros [<- | Hin]; [exact Hq | now apply Hpos]).
  - destruct receiver; exact Hrows.
Qed.

Lemma pipeline_append_row (day : Z) (s : Sim) :
  pipeline_invariant s -> pipeline_invariant (append_row day s).
Proof.
  intros (Hsum & Hpos & Hrows). repeat split; try assumption.
  sim_simpl. apply Forall_app. split; [exact Hrows|].
  constructor; [|constructor].
  pose proof (Hsum ToStore) as Hs. pose proof (Hsum ToDistributionCenter) as Hd.
  pose proof (pipeline_nonneg ToStore _ Hpos).
  pose proof (pipeline_nonneg ToDistributionCenter _ Hpos).
  sim_simpl. split; cbn; apply inject_Z_nonneg; lia.
Qed.

Lemma pipeline_frame (s s' : Sim) :
  queue s' = queue s ->
  sim_timeseries s' = sim_timeseries s ->
  (forall r, on_order (receiver_inventory r s') = on_order (receiver_inventory r s)) ->
  pipeline_invariant s -> pipeline_invariant s'.
Proof.
  intros Hq Ht Ho (Hsum & Hpos & Hrows). unfold pipeline_invariant.
  rewrite Hq, Ht. repeat split; try assumption.
  intros r. now rewrite Ho.
Qed.

Lemma pipeline_daily_body (day : Z) :
  hoare pipeline_invariant (daily_body config day) (fun _ => pipeline_invariant).
Proof.
  apply (daily_body_hoare config day pipeline_invariant (fun _ => pipeline_invariant)).
  - intros s g. apply pipeline_frame; try reflexivity; now intros [].
  - intros s demand. apply pipeline_frame; try reflexivity; now intros [].
  - auto.
  - intros _ quantity s shipped s' H E.
    unfold ship_to_store, DistributionCenter_ship_to_store in E.
    destruct (quantity <=? 0); injection E as <- <-; [exact H|].
    revert H. apply pipeline_frame; try reflexivity; now intros [].
  - intros _ receiver quantity. apply pipeline_schedule_inbound_shipment.
  - intros _ s. apply pipeline_frame; try reflexivity; now intros [].
  - intros _ s n _. apply pipeline_frame; try reflexivity; now intros [].
  - intros _ s. apply pipeline_frame; try reflexivity; now intros [].
  - intros s. apply pipeline_append_row.
Qed.

Lemma pipeline_transition (s s' : Sim) :
  pipeline_invariant s -> transition config s s' -> pipeline_invariant s'.
Proof.
  intros H T. destruct T as
    [s ev rest u s2 Hpop Hcb Hday Hbody | s ev rest Hpop Hcb Hday
     | s ev rest r n lead Hpop Hcb Hlead | s ev rest pid r n Hpop Hcb
     | s ev rest Hpop Hcb | s ev rest Hpop Hcb ];
    destruct (pipeline_popped s ev rest Hpop H) as (Hsum & Hev & Hpos & Hrows);
    unfold pending_quantity, shipment_positive in Hsum, Hev; rewrite Hcb in Hsum, Hev.
  - assert (Hmid : pipeline_invariant
                     (set_daily_day (daily_day s + 1) (popped ev rest s)))
      by (repeat split; assumption).
    pose proof (pipeline_daily_body _ _ _ _ Hmid Hbody) as (Hsum2 & Hpos2 & Hrows2).
    split; [|split].
    + intros r. exact (Hsum2 r).
    + intros x [<- | Hx]; [exact I | now apply Hpos2].
    + exact Hrows2.
  - split; [|split].
    + intros r. exact (Hsum r).
    + intros x [<- | Hx]; [exact I | now apply Hpos].
    + exact Hrows.
  - split; [|split].
    + intros r0. exact (Hsum r0).
    + intros x [<- | Hx]; [exact Hev | now apply Hpos].
    + exact Hrows.
  - split; [|split].
    + intros r0.
      assert (Eq : queue (deliver pid r n (popped ev rest s)) = rest)
        by (destruct r; reflexivity).
      change (on_order (receiver_inventory r0 (deliver pid r n (popped ev rest s)))
              = 0 + pipeline r0 (queue (deliver pid r n (popped ev rest s)))).
      rewrite Eq, on_order_deliver.
      change (receiver_inventory r0 (popped ev rest s))
        with (receiver_inventory r0 s).
      rewrite (Hsum r0). lia.
    + destruct r; (intros x [<- | Hx]; [exact I | now apply Hpos]).
    + destruct r; exact Hrows.
  - split; [exact Hsum | split; assumption].
  - split; [exact Hsum | split; assumption].
Qed.

Lemma pipeline_reachable (g : Rng) (s : Sim) :
  reachable config g s -> pipeline_invariant s.
Proof.
  apply reachable_invariant; [|apply pipeline_transition].
  repeat split.
  - now intros [].
  - sim_simpl. intros ev [<- | [<- | []]]; exact I.
  - constructor.
Qed.

End PipelineFacts.

Section PipelineTheorem.

Context {rt : Runtime}.

(** C10. In every state of a run, [on_order] of each location is the sum of
    the quantities of the shipments scheduled for it whose arrival has not
    been applied yet, hence non-negative, in the state and in every recorded
    row; [schedule_inbound_shipment] adds the shipped quantity to the
    receiver's [on_order] and to its pending arrivals together; a delivery
    takes the quantity off [on_order] and then calls [receive]; and
    scheduling a quantity that is not positive returns the state as it
    was (generator, heap and event counter included). *)
Theorem on_order_tracks_pipeline (config : SimulationConfig) (g : Rng) (s : Sim) :
  reachable config g s ->
  (forall r, on_order (receiver_inventory r s) = pipeline r (queue s)) /\
  (forall r, 0 <= on_order (receiver_inventory r s)) /\
  Forall row_on_order_nonneg (sim_timeseries s) /\
  (forall receiver quantity s',
      schedule_inbound_shipment config receiver quantity s = inr (tt, s') ->
      0 < quantity ->
      on_order (receiver_inventory receiver s')
      = on_order (receiver_inventory receiver s) + quantity /\
      pipeline receiver (queue s') = pipeline receiver (queue s) + quantity) /\
  (forall pid receiver quantity,
      deliver pid receiver quantity s
      = observe (ObsDeliver pid receiver quantity (now s))
          (receiver_receive receiver quantity
             (add_on_order receiver (- quantity) s)) /\
      on_order (receiver_inventory receiver (deliver pid receiver quantity s))
      = on_order (receiver_inventory receiver s) - quantity) /\
  (forall receiver quantity,
      quantity <= 0 ->
      schedule_inbound_shipment config receiver quantity s = inr (tt, s)).
Proof.
  intros Hreach.
  pose proof (pipeline_reachable config g s Hreach) as Hinv.
  destruct Hinv as (Hsum & Hpos & Hrows).
  split; [exact Hsum|]. split.
  { intros r. rewrite Hsum. now apply pipeline_nonneg. }
  split; [exact Hrows|]. split; [|split].
  - intros receiver quantity s' Hcall Hq.
    pose proof (pipeline_schedule_inbound_shipment config receiver quantity
                  s tt s' (conj Hsum (conj Hpos Hrows)) Hcall) as (Hsum' & _).
    apply schedule_inbound_shipment_cases in Hcall
      as [[Hle _] | (_ & x & g1 & y & g2 & _ & _ & ->)]; [lia|].
    rewrite <- (Hsum' receiver), <- (Hsum receiver).
    rewrite on_order_env_process_arrival, Receiver_eqb_refl. split; reflexivity.
  - intros pid receiver quantity. split; [reflexivity|].
    rewrite on_order_deliver, Receiver_eqb_refl. reflexivity.
  - intros receiver quantity Hq. unfold schedule_inbound_shipment.
    apply Z.leb_le in Hq. now rewrite Hq.
Qed.

End PipelineTheorem.

(** ** More rules for the monadic code *)

Section HoareMore.

Context {rt : Runtime}.

Lemma bind_assoc {A B C : Type} (m : M A) (f : A -> M B) (k : B -> M C) (s : Sim) :
  bind (bind m f) k s = bind m (fun x => bind (f x) k) s.
Proof. unfold bind. destruct (m s) as [e | [a s1]]; reflexivity. Qed.

Lemma hoare_assoc {A B C : Type} (P : Sim -> Prop) (Q : C -> Sim -> Prop)
    (m : M A) (f : A -> M B) (k : B -> M C) :
  hoare P (bind (bind m f) k) Q ->
  hoare P (bind m (fun x => bind (f x) k)) Q.
Proof.
  intros H s c s' HP E. rewrite <- bind_assoc in E. eauto.
Qed.

Lemma hoare_gets_value {A : Type} (P : Sim -> Prop) (f : Sim -> A) :
  hoare P (gets f) (fun a s => P s /\ a = f s).
Proof. intros s a s' HP H. injection H as <- <-. auto. Qed.

Lemma hoare_raise_value {A : Type} (P : Sim -> Prop) (r : result A) :
  hoare P (raise_result r) (fun a s => P s /\ r = inr a).
Proof.
  intros s a s' HP H. unfold raise_result in H.
  destruct r; [discriminate|]. injection H as <- <-. auto.
Qed.

Variable config : SimulationConfig.

(** The rule of one day by stages: [P] before the demand draw, [A] after it,
    [B] after the backorders were served, [C] after the store's order, [D]
    after the distribution center's, [R] once the row is recorded.  The two
    order stages know the quantity the policy returned. *)
Lemma daily_body_hoare_gen (day : Z) (P A B C D R : Sim -> Prop) :
  (forall s g, P s -> P (set_random_generator g s)) ->
  (forall s demand, P s -> A (consume_demand day demand s)) ->
  hoare A (backorder_leg config) (fun _ => B) ->
  (forall quantity,
      hoare (fun s => B s /\
                      order_up_to_sS (inventory_position (store_inventory (store s)))
                        (s_store config) (S_store config) = inr quantity)
        (store_leg config quantity) (fun _ => C)) ->
  (forall quantity,
      hoare (fun s => C s /\
                      order_up_to_sS
                        (inventory_position (dc_inventory (distribution_center s)))
                        (s_dc config) (S_dc config) = inr quantity)
        (dc_leg config quantity) (fun _ => D)) ->
  (forall s, D s -> R (append_row day s)) ->
  hoare P (daily_body config day) (fun _ => R).
Proof.
  intros Hrng Hconsume Hback Hstore Hdc Hrow.
  unfold daily_body.
  eapply hoare_bind; [apply hoare_draw, Hrng | intros demand].
  eapply hoare_bind; [apply hoare_modify; intros s; apply Hconsume | intros ?].
  apply hoare_assoc.
  eapply hoare_bind; [exact Hback | intros ?].
  eapply hoare_bind; [apply hoare_gets_value | intros position].
  eapply hoare_bind.
  { eapply hoare_weaken with (P := fun s => B s /\ position
                = inventory_position (store_inventory (store s)));
      [apply hoare_raise_value | auto | intros ? ? Hpost; exact Hpost]. }
  intros quantity.
  eapply hoare_bind.
  { eapply hoare_weaken; [apply (Hstore quantity) | | intros ? ? Hpost; exact Hpost].
    intros s [[HB ->] Hq]. auto. }
  intros ?.
  eapply hoare_bind; [apply hoare_gets_value | intros dc_position].
  eapply hoare_bind.
  { eapply hoare_weaken with (P := fun s => C s /\ dc_position
                = inventory_position (dc_inventory (distribution_center s)));
      [apply hoare_raise_value | auto | intros ? ? Hpost; exact Hpost]. }
  intros dc_quantity.
  eapply hoare_bind.
  { eapply hoare_weaken; [apply (Hdc dc_quantity) | | intros ? ? Hpost; exact Hpost].
    intros s [[HC ->] Hq]. auto. }
  intros ?. apply hoare_modify. exact Hrow.
Qed.

(** The stages when nothing depends on quantities: every call they make
    keeps [I]. *)
Lemma legs_keep (I : Sim -> Prop) :
  (forall quantity, hoare I (ship_to_store quantity) (fun _ => I)) ->
  (forall receiver quantity,
      hoare I (schedule_inbound_shipment config receiver quantity) (fun _ => I)) ->
  (forall s, I s -> I (incr_store_orders s)) ->
  (forall s n, 0 < n -> I s -> I (add_store_backorder n s)) ->
  (forall s, I s -> I (incr_dc_orders s)) ->
  hoare I (backorder_leg config) (fun _ => I) /\
  (forall quantity, hoare I (store_leg config quantity) (fun _ => I)) /\
  (forall quantity, hoare I (dc_leg config quantity) (fun _ => I)).
Proof.
  intros Hship Hsched Hso Hbo Hdo. split; [|split].
  - unfold backorder_leg.
    eapply hoare_bind; [apply hoare_gets | intros owed].
    apply hoare_if; intros _; [|apply hoare_ret].
    eapply hoare_bind; [apply Hship | intros shipped].
    apply hoare_if; intros _; [apply Hsched | apply hoare_ret].
  - intros quantity. unfold store_leg.
    apply hoare_if; intros _; [|apply hoare_ret].
    eapply hoare_bind; [apply hoare_modify, Hso | intros ?].
    eapply hoare_bind; [apply Hship | intros shipped].
    eapply hoare_bind with (Q := fun _ => I).
    { apply hoare_if; intros _; [apply Hsched | apply hoare_ret]. }
    intros ?. apply hoare_if; intros Hpos; [|apply hoare_ret].
    apply hoare_modify. intros s. apply Hbo. now apply Z.ltb_lt.
  - intros quantity. unfold dc_leg.
    apply hoare_if; intros _; [|apply hoare_ret].
    eapply hoare_bind; [apply hoare_modify, Hdo | intros ?].
    apply Hsched.
Qed.

End HoareMore.

(** ** Events resuming the daily process *)

Lemma is_daily_nonneg (ev : Scheduled) : 0 <= is_daily ev <= 1.
Proof. unfold is_daily. destruct (ev_callback ev); lia. Qed.

Lemma qsum_is_daily_nonneg (q : list Scheduled) : 0 <= qsum is_daily q.
Proof.
  induction q as [|ev q IH]; simpl; [lia|].
  pose proof (is_daily_nonneg ev). lia.
Qed.

Lemma no_daily (q : list Scheduled) :
  qsum is_daily q <= 0 ->
  forall ev, In ev q -> ev_callback ev <> DailyResume.
Proof.
  induction q as [|x q IH]; simpl; intros Hsum ev Hin Hcb; [destruct Hin|].
  pose proof (is_daily_nonneg x). pose proof (qsum_is_daily_nonneg q).
  destruct Hin as [<- | Hin].
  - assert (is_daily x = 1) by (unfold is_daily; now rewrite Hcb). lia.
  - apply (IH ltac:(lia) ev Hin Hcb).
Qed.

(** ** Arrivals and demand draws *)











Section ArrivalFacts.

Context {rt : Runtime}.
Variable config : SimulationConfig.

Hypothesis rng_lognormal_nonneg :
  forall g mu sigma, (0 <= fst (rng_lognormal g mu sigma))%Q.

Hypothesis float_add_ge :
  forall t d : Q, (0 <= d)%Q -> (t <= float_add t d)%Q.















End ArrivalFacts.

(** ** The loop terminates within its fuel *)

Lemma event_weight_pos (ev : Scheduled) : 0 < event_weight ev.
Proof. unfold event_weight. destruct (ev_callback ev); lia. Qed.

Lemma qsum_event_weight_nonneg (q : list Scheduled) : 0 <= qsum event_weight q.
Proof.
  induction q as [|ev q IH]; simpl; [lia|].
  pose proof (event_weight_pos ev). lia.
Qed.

Section Termination.

Context {rt : Runtime}.
Variable config : SimulationConfig.

Lemma work_frame (W D : Z) (i : nat) (s s' : Sim) :
  queue s' = queue s -> daily_day s' = daily_day s ->
  work_bound W D i s -> work_bound W D i s'.
Proof. unfold work_bound. intros -> ->. exact (fun H => H). Qed.

Lemma work_daily_body (day W D : Z) :
  hoare (work_bound W D 0) (daily_body config day) (fun _ => work_bound W D 3).
Proof.
  apply (daily_body_hoare config day (work_bound W D 0) (work_bound W D)).
  - intros s g. now apply work_frame.
  - intros s demand. now apply work_frame.
  - unfold work_bound. intros i s [H1 H2]. split; [lia | exact H2].
  - intros i quantity s shipped s' H E.
    unfold ship_to_store, DistributionCenter_ship_to_store in E.
    destruct (quantity <=? 0); injection E as <- <-; [exact H|].
    revert H. now apply work_frame.
  - intros i receiver quantity s u s' [H1 H2] E.
    apply schedule_inbound_shipment_cases in E
      as [[_ ->] | (_ & x & g1 & y & g2 & _ & _ & ->)].
    + split; [lia | exact H2].
    + unfold work_bound. rewrite Nat2Z.inj_succ.
      destruct receiver; sim_simpl;
        (split; [cbn [qsum event_weight ev_callback]; lia | exact H2]).
  - intros i s. now apply work_frame.
  - intros i s n _. now apply work_frame.
  - intros i s. now apply work_frame.
  - intros s. now apply work_frame.
Qed.

Lemma transition_decreases (s s' : Sim) :
  transition config s s' -> remaining_work config s' < remaining_work config s.
Proof.
  intros T. destruct T as
    [s ev rest u s2 Hpop Hcb Hday Hbody | s ev rest Hpop Hcb Hday
     | s ev rest r n lead Hpop Hcb Hlead | s ev rest pid r n Hpop Hcb
     | s ev rest Hpop Hcb | s ev rest Hpop Hcb ];
    unfold remaining_work;
    rewrite (heappop_qsum event_weight _ _ _ Hpop);
    unfold event_weight at 2; rewrite Hcb.
  - assert (Hpre : work_bound (qsum event_weight rest) (daily_day s + 1) 0
                     (set_daily_day (daily_day s + 1) (popped ev rest s))).
    { split; [cbn [queue popped set_daily_day]; lia | reflexivity]. }
    destruct (work_daily_body _ _ _ _ _ _ Hpre Hbody) as [H1 H2].
    cbn [daily_day queue env_schedule]. rewrite H2.
    cbn [qsum event_weight ev_callback]. lia.
  - cbn [daily_day queue env_schedule popped qsum event_weight ev_callback]. lia.
  - cbn [daily_day queue env_schedule popped qsum event_weight ev_callback]. lia.
  - assert (Hq : queue (deliver pid r n (popped ev rest s)) = rest)
      by (destruct r; reflexivity).
    assert (Hd : daily_day (deliver pid r n (popped ev rest s)) = daily_day s)
      by (destruct r; reflexivity).
    cbn [daily_day queue env_schedule]. rewrite Hq, Hd.
    cbn [qsum event_weight ev_callback]. lia.
  - cbn [daily_day queue env_schedule popped qsum event_weight ev_callback]. lia.
  - cbn [daily_day queue env_schedule popped qsum event_weight ev_callback]. lia.
Qed.

Lemma env_loop_enough_fuel (fuel : nat) :
  forall s, remaining_work config s < Z.of_nat fuel ->
  env_loop config fuel s <> None.
Proof.
  induction fuel as [|fuel IH]; intros s Hwork.
  - unfold remaining_work in Hwork.
    pose proof (qsum_event_weight_nonneg (queue s)). lia.
  - simpl. destruct (step config s) as [s1 | s1 | e] eqn:Hstep; try discriminate.
    apply IH.
    assert (transition config s s1) by (apply step_transition; auto).
    pose proof (transition_decreases s s1 H). lia.
Qed.

(** The fuel of [env_run] is never used up: a run either completes or
    raises an exception of the code. *)
Lemma env_run_within_fuel (g : Rng) :
  env_loop config (run_fuel config) (started config g) <> None.
Proof.
  apply env_loop_enough_fuel. unfold remaining_work, run_fuel.
  cbn [started initial_sim env_schedule daily_day queue qsum event_weight
       ev_callback]. lia.
Qed.

(** Whatever [simulate] returns on a positive horizon is what the loop
    returned. *)
Lemma simulate_within_fuel (g : Rng) :
  0 < days config ->
  exists r, env_loop config (run_fuel config) (started config g) = Some r /\
            simulate config g = r.
Proof.
  intros Hdays. pose proof (env_run_within_fuel g) as Hfuel.
  destruct (env_loop config (run_fuel config) (started config g)) as [r|] eqn:E;
    [|congruence].
  exists r. split; [reflexivity|]. unfold simulate, env_run.
  assert (Hat : Qle_bool (inject_Z (days config)) (now (initial_sim config g)) = false).
  { destruct (Qle_bool _ _) eqn:Hle; [|reflexivity].
    apply Qle_bool_iff in Hle. cbn [now initial_sim env_schedule] in Hle.
    change 0%Q with (inject_Z 0) in Hle. rewrite <- Zle_Qle in Hle. lia. }
  rewrite Hat. unfold started in E. now rewrite E.
Qed.

End Termination.

Section FreshFacts.

Context {rt : Runtime}.
Variable config : SimulationConfig.








End FreshFacts.

(** ** Arrivals due exactly at a draw *)


Section OrderFacts.

Context {rt : Runtime}.
Variable config : SimulationConfig.

Hypothesis rng_lognormal_nonneg :
  forall g mu sigma, (0 <= fst (rng_lognormal g mu sigma))%Q.

Hypothesis float_add_ge :
  forall t d : Q, (0 <= d)%Q -> (t <= float_add t d)%Q.















End OrderFacts.

Section ArrivalTheorem.

Context {rt : Runtime}.


End ArrivalTheorem.

(** ** Monte Carlo *)

Section MonteCarloFacts.

Context {rt : Runtime}.
Context {World : Type}.

Lemma replication_loop_completes (config : SimulationConfig) (R : Z)
    (progress_cb : option (Q -> World -> World)) (call0 : nat)
    (runs : nat -> SimulationResult) (m : nat) :
  forall (start : nat) (acc : list KPIs) (w : World),
    (forall i, (start <= i < start + m)%nat ->
               run_single (replication_config config (Z.of_nat i)) (call0 + i)
               = inr (runs i)) ->
    replication_loop config R progress_cb (map Z.of_nat (seq start m))
      (call0 + start) acc w
    = (inr (acc ++ map (fun i => kpis (runs i)) (seq start m)),
       fold_left
         (fun w i => call_progress_cb progress_cb
                       (inject_Z (i + 1) / inject_Z R)%Q w)
         (map Z.of_nat (seq start m)) w).
Proof.
  induction m as [|m IH]; intros start acc w Hruns.
  - simpl. now rewrite app_nil_r.
  - simpl. rewrite (Hruns start) by lia.
    rewrite <- Nat.add_succ_r, IH.
    + now rewrite <- app_assoc.
    + intros i Hi. apply Hruns. lia.
Qed.

Lemma replication_loop_length (config : SimulationConfig) (R : Z)
    (progress_cb : option (Q -> World -> World)) (indices : list Z) :
  forall (call : nat) (acc : list KPIs) (w : World) (ks : list KPIs) (w' : World),
    replication_loop config R progress_cb indices call acc w = (inr ks, w') ->
    List.length ks = (List.length acc + List.length indices)%nat.
Proof.
  induction indices as [|i indices IH]; intros call acc w ks w' H.
  - simpl in H. injection H as <- _. simpl. lia.
  - simpl in H.
    destruct (run_single (replication_config config i) call) as [e | r];
      [discriminate|].
    apply IH in H. rewrite H, length_app. simpl. lia.
Qed.

(** C8. [monte_carlo] raises when [R < 1].  Otherwise replication [i] runs
    on a configuration equal to the base but for its seed, which is
    [base_seed + i] when the base has a seed and absent when it has none;
    when the [R] replications complete, the progress callback has been
    called with [(i + 1) / R] after each of them, in order, and the result
    carries the base configuration, [summary.replications = R] and the [R]
    KPI records in order. *)
Theorem monte_carlo_spec (config : SimulationConfig) (R : Z)
    (progress_cb : option (Q -> World -> World)) (call : nat) (w : World)
    (runs : nat -> SimulationResult) :
  (R < 1 ->
   monte_carlo config R progress_cb call w
   = (inl (ValueError "replications must be > 0"), w)) /\
  (forall i,
      seed (replication_config config i)
      = match seed config with
        | Some base => Some (base + i)
        | None => None
        end /\
      replace_seed (replication_config config i) (seed config) = config) /\
  (1 <= R ->
   (forall i, (i < Z.to_nat R)%nat ->
              run_single (replication_config config (Z.of_nat i)) (call + i)
              = inr (runs i)) ->
   exists mc,
     monte_carlo config R progress_cb call w
     = (inr mc, progress_reports progress_cb R w) /\
     mc_config mc = config /\
     replications (summary mc) = R /\
     List.length (samples mc) = Z.to_nat R /\
     samples mc = map (fun i => kpis (runs i)) (seq 0 (Z.to_nat R))).
Proof.
  split; [|split].
  - intros HR. unfold monte_carlo.
    assert (E : (R <=? 0) = true) by (apply Z.leb_le; lia). now rewrite E.
  - intros i. split; [reflexivity|]. now destruct config.
  - intros HR Hruns. unfold monte_carlo, range.
    assert (E : (R <=? 0) = false) by (apply Z.leb_gt; lia). rewrite E.
    pose proof (replication_loop_completes config R progress_cb call runs
                  (Z.to_nat R) 0 [] w) as Hloop.
    rewrite Nat.add_0_r in Hloop. rewrite Hloop.
    + eexists. split; [reflexivity|]. cbn [mc_config summary samples app].
      unfold summarise_samples. cbn [replications].
      repeat split. now rewrite length_map, length_seq.
    + intros i Hi. apply Hruns. lia.
Qed.

Lemma monte_carlo_inv (config : SimulationConfig) (R : Z)
    (progress_cb : option (Q -> World -> World)) (call : nat) (w w' : World)
    (mc : MonteCarloResult) :
  monte_carlo config R progress_cb call w = (inr mc, w') ->
  1 <= R /\ Z.of_nat (List.length (samples mc)) = R /\
  summary mc = summarise_samples R (samples mc).
Proof.
  unfold monte_carlo. destruct (R <=? 0) eqn:E; [discriminate|].
  apply Z.leb_gt in E.
  destruct (replication_loop _ _ _ _ _ _ _) as [[e | ks] w1] eqn:Hloop;
    [discriminate|].
  intros H. injection H as <- _. cbn [samples summary].
  apply replication_loop_length in Hloop.
  unfold range in Hloop. rewrite length_map, length_seq in Hloop.
  simpl in Hloop. split; [lia|]. split; [|reflexivity].
  rewrite Hloop. lia.
Qed.

(** C9. In the summary of a completed [monte_carlo] over [R] replications,
    [kpi_mean] and [kpi_std] have exactly the ten fields of [KPIs] as keys,
    and each of the ten is reported under its own name with the arithmetic
    mean of its [R] samples; its standard deviation is 0 when [R = 1], and
    for [R > 1] the sample standard deviation with Bessel's correction. *)
Theorem monte_carlo_summary_stats (config : SimulationConfig) (R : Z)
    (progress_cb : option (Q -> World -> World)) (call : nat) (w w' : World)
    (mc : MonteCarloResult) :
  monte_carlo config R progress_cb call w = (inr mc, w') ->
  1 <= R /\
  replications (summary mc) = R /\
  Z.of_nat (List.length (samples mc)) = R /\
  map fst (kpi_mean (summary mc)) = KPIs_field_names /\
  map fst (kpi_std (summary mc)) = KPIs_field_names /\
  field_reported R mc "service_level" service_level /\
  field_reported R mc "fill_rate" fill_rate /\
  field_reported R mc "demand_units" (fun k => inject_Z (kpi_demand_units k)) /\
  field_reported R mc "fulfilled_units"
    (fun k => inject_Z (kpi_fulfilled_units k)) /\
  field_reported R mc "stockout_days" (fun k => inject_Z (kpi_stockout_days k)) /\
  field_reported R mc "avg_on_hand_store" avg_on_hand_store /\
  field_reported R mc "avg_on_hand_dc" avg_on_hand_dc /\
  field_reported R mc "avg_backorder_store" avg_backorder_store /\
  field_reported R mc "total_orders_store"
    (fun k => inject_Z (total_orders_store k)) /\
  field_reported R mc "total_orders_dc" (fun k => inject_Z (total_orders_dc k)).
Proof.
  intros H. apply monte_carlo_inv in H as (HR & Hlen & Hsum).
  split; [exact HR|]. split; [now rewrite Hsum|]. split; [exact Hlen|].
  assert (Hne : samples mc <> []).
  { intros E. rewrite E in Hlen. simpl in Hlen. lia. }
  assert (Hkm : kpi_mean (summary mc)
                = map (fun f => (fst f, np_mean (map (snd f) (samples mc))))
                    kpi_fields).
  { rewrite Hsum. unfold summarise_samples.
    destruct (samples mc); [contradiction|].
    cbn [kpi_mean]. now rewrite map_map. }
  assert (Hks : kpi_std (summary mc)
                = map (fun f => (fst f,
                                 if 1 <? R
                                 then np_std_ddof1 (map (snd f) (samples mc))
                                 else 0%Q))
                    kpi_fields).
  { rewrite Hsum. unfold summarise_samples.
    destruct (samples mc); [contradiction|].
    cbn [kpi_std]. now rewrite map_map. }
  assert (Hmean : forall get,
             np_mean (map get (samples mc))
             = arithmetic_mean R (map get (samples mc))).
  { intros get. unfold np_mean, arithmetic_mean, Qlen.
    now rewrite length_map, Hlen. }
  assert (Hstd : forall get,
             np_std_ddof1 (map get (samples mc))
             = bessel_std R (map get (samples mc))).
  { intros get. unfold np_std_ddof1, bessel_std.
    rewrite Hmean. unfold Qlen. now rewrite length_map, Hlen. }
  assert (Hfield : forall name get,
             lookup name (kpi_mean (summary mc))
             = Some (np_mean (map get (samples mc))) ->
             lookup name (kpi_std (summary mc))
             = Some (if 1 <? R then np_std_ddof1 (map get (samples mc))
                     else 0%Q) ->
             field_reported R mc name get).
  { intros name get Hm Hs. split; [|split].
    - now rewrite Hm, Hmean.
    - intros HR'. rewrite Hs.
      assert (E : (1 <? R) = false) by (apply Z.ltb_ge; lia). now rewrite E.
    - intros HR'. rewrite Hs.
      assert (E : (1 <? R) = true) by (apply Z.ltb_lt; lia).
      now rewrite E, Hstd. }
  split; [rewrite Hkm; reflexivity|]. split; [rewrite Hks; reflexivity|].
  repeat (split;
          [apply Hfield; [rewrite Hkm | rewrite Hks]; reflexivity|]).
  apply Hfield; [rewrite Hkm | rewrite Hks]; reflexivity.
Qed.

End MonteCarloFacts.

(** ** The properties on concrete runs *)



Lemma tie_final_reachable :
  reachable TestRng.tie_config (default_rng (seed TestRng.tie_config) 0)
    TestRng.tie_final.
Proof.
  apply simulate_reachable. reflexivity.
Qed.


Lemma week_final_reachable :
  reachable TestRng.week_config (default_rng (seed TestRng.week_config) 0)
    TestRng.week_final.
Proof.
  apply simulate_reachable. reflexivity.
Qed.



(** C2, as stated, fails on a zero horizon: the guard of line 154 yields 1,
    not 0, and the run itself raises before any KPI is computed. *)
Lemma service_level_zero_days_counterexample :
  days TestRng.zero_days_config = 0 /\
  ~ (service_level_of 0 (days TestRng.zero_days_config) == 0)%Q /\
  service_level_of 0 (days TestRng.zero_days_config) = 1%Q /\
  run_single TestRng.zero_days_config 0
  = inl (ValueError "until must be > the current simulation time").
Proof.
  split; [reflexivity|]. split; [|split].
  - vm_compute. discriminate.
  - reflexivity.
  - reflexivity.
Qed.

Lemma week_result_run :
  run_single TestRng.week_config 0 = inr TestRng.week_result.
Proof. reflexivity. Qed.

Lemma service_level_reported_witness :
  run_single TestRng.week_config 0 = inr TestRng.week_result /\
  (service_level (kpis TestRng.week_result)
   == 1 - inject_Z (kpi_stockout_days (kpis TestRng.week_result))
          / inject_Z (days TestRng.week_config))%Q.
Proof.
  split; [exact week_result_run|].
  apply (service_level_reported TestRng.week_config 0 TestRng.week_result).
  reflexivity.
Defined.





Lemma disruption_delay_spec_witness :
  disruption_delay (rt := TestRng.runtime) 5 (3 # 2) 2
  = inl (ValueError "disruption_probability_per_shipment must be in [0,1]") /\
  disruption_delay (rt := TestRng.runtime) 5 (1 # 2) (-2)
  = inl (ValueError "disruption_delay_days must be >= 0") /\
  disruption_delay (rt := TestRng.runtime) 5 0 3 = inr (0%Q, 5) /\
  disruption_delay (rt := TestRng.runtime) 5 (1 # 2) 0 = inr (0%Q, 5).
Proof.
  split; [|split; [|split]].
  - apply (disruption_delay_spec (rt := TestRng.runtime) 5 (3 # 2) 2).
    right. reflexivity.
  - apply (disruption_delay_spec (rt := TestRng.runtime) 5 (1 # 2) (-2));
      reflexivity || discriminate.
  - apply (disruption_delay_spec (rt := TestRng.runtime) 5 0 3);
      try discriminate. left. reflexivity.
  - apply (disruption_delay_spec (rt := TestRng.runtime) 5 (1 # 2) 0);
      try discriminate. right. reflexivity.
Defined.

Lemma run_single_invariants_witness :
  run_single TestRng.week_config 0 = inr TestRng.week_result /\
  Forall row_nonneg (timeseries TestRng.week_result) /\
  0 <= kpi_fulfilled_units (kpis TestRng.week_result)
    <= kpi_demand_units (kpis TestRng.week_result) /\
  (0 <= service_level (kpis TestRng.week_result) <= 1)%Q /\
  (0 <= fill_rate (kpis TestRng.week_result) <= 1)%Q.
Proof.
  split; [exact week_result_run|].
  apply (run_single_invariants TestRng.week_config 0 TestRng.week_result).
  - vm_compute. discriminate.
  - vm_compute. discriminate.
  - vm_compute. discriminate.
  - reflexivity.
Defined.

Lemma week_runs_complete (i : nat) :
  (i < Z.to_nat 2)%nat ->
  run_single (replication_config TestRng.week_config (Z.of_nat i)) (0 + i)
  = inr (TestRng.week_runs i).
Proof.
  intros Hi. destruct i as [|[|i]]; [reflexivity.. |].
  exfalso. change (Z.to_nat 2) with 2%nat in Hi. lia.
Qed.

Lemma monte_carlo_spec_witness :
  monte_carlo TestRng.week_config 0 TestRng.record_progress 0 []
  = (inl (ValueError "replications must be > 0"), []) /\
  exists mc,
    monte_carlo TestRng.week_config 2 TestRng.record_progress 0 []
    = (inr mc, [1 # 2; 2 # 2]%Q) /\
    replications (summary mc) = 2 /\
    samples mc = [kpis (TestRng.week_runs 0); kpis (TestRng.week_runs 1)].
Proof.
  split.
  - apply (monte_carlo_spec TestRng.week_config 0 TestRng.record_progress
             0 [] TestRng.week_runs). lia.
  - destruct (proj2 (proj2 (monte_carlo_spec TestRng.week_config 2
                              TestRng.record_progress 0 [] TestRng.week_runs)))
      as (mc & Hrun & _ & Hrep & _ & Hsamples).
    + lia.
    + exact week_runs_complete.
    + exists mc. split; [exact Hrun|]. split; [exact Hrep | exact Hsamples].
Defined.

Lemma week_monte_carlo_run :
  monte_carlo TestRng.week_config 2 TestRng.record_progress 0 []
  = (inr TestRng.week_monte_carlo, [1 # 2; 2 # 2]%Q).
Proof. reflexivity. Qed.

Lemma monte_carlo_summary_stats_witness :
  monte_carlo TestRng.week_config 2 TestRng.record_progress 0 []
  = (inr TestRng.week_monte_carlo, [1 # 2; 2 # 2]%Q) /\
  map fst (kpi_mean (summary TestRng.week_monte_carlo)) = KPIs_field_names /\
  map fst (kpi_std (summary TestRng.week_monte_carlo)) = KPIs_field_names /\
  field_reported 2 TestRng.week_monte_carlo "fill_rate" fill_rate /\
  field_reported 2 TestRng.week_monte_carlo "demand_units"
    (fun k => inject_Z (kpi_demand_units k)) /\
  field_reported 2 TestRng.week_monte_carlo "total_orders_dc"
    (fun k => inject_Z (total_orders_dc k)).
Proof.
  split; [exact week_monte_carlo_run|].
  destruct (monte_carlo_summary_stats TestRng.week_config 2
              TestRng.record_progress 0 [] [1 # 2; 2 # 2]%Q
              TestRng.week_monte_carlo week_monte_carlo_run)
    as (_ & _ & _ & Hmean & Hstd & _ & Hfill & Hdemand & _ & _ & _ & _ & _ & _
        & Hdc).
  split; [exact Hmean|]. split; [exact Hstd|]. split; [exact Hfill|].
  split; [exact Hdemand | exact Hdc].
Defined.

Lemma on_order_tracks_pipeline_witness :
  reachable TestRng.week_config (default_rng (seed TestRng.week_config) 0)
    TestRng.week_final /\
  (forall r, on_order (receiver_inventory r TestRng.week_final)
             = pipeline r (queue TestRng.week_final)) /\
  (forall r, 0 <= on_order (receiver_inventory r TestRng.week_final)).
Proof.
  split; [exact week_final_reachable|].
  destruct (on_order_tracks_pipeline TestRng.week_config
              (default_rng (seed TestRng.week_config) 0) TestRng.week_final
              week_final_reachable) as (Hsum & Hnonneg & _).
  split; [exact Hsum | exact Hnonneg].
Defined.

(** * Further properties of the code *)

(** ** Actors *)

(** [Store.receive] ignores a quantity that is not positive.  A positive
    quantity raises [on_hand - backorder] by exactly that quantity and
    touches neither [on_order] nor the counters; with a non-negative
    backorder it clears backorder first, so that [on_hand] grows only
    when no backorder is left. *)
Theorem Store_receive_backorder_first (quantity : Z) (self : Store) :
  let inv := store_inventory self in
  let self' := Store_receive quantity self in
  let inv' := store_inventory self' in
  (quantity <= 0 -> self' = self) /\
  (0 < quantity ->
   on_hand inv' - backorder inv' = on_hand inv - backorder inv + quantity /\
   on_order inv' = on_order inv /\
   demand_units self' = demand_units self /\
   fulfilled_units self' = fulfilled_units self /\
   stockout_days self' = stockout_days self /\
   store_orders_placed self' = store_orders_placed self) /\
  (0 < quantity -> 0 <= backorder inv ->
   backorder inv' = Z.max 0 (backorder inv - quantity) /\
   on_hand inv' = on_hand inv + Z.max 0 (quantity - backorder inv) /\
   (on_hand inv < on_hand inv' -> backorder inv' = 0)).
Proof.
  cbv zeta. unfold Store_receive. split; [|split].
  - intros H. apply Z.leb_le in H. now rewrite H.
  - intros H. apply Z.leb_gt in H. rewrite H. cbn.
    destruct (0 <? backorder (store_inventory self)) eqn:E;
      [apply Z.ltb_lt in E | apply Z.ltb_ge in E]; repeat split; lia.
  - intros H Hb. apply Z.leb_gt in H. rewrite H. cbn.
    destruct (0 <? backorder (store_inventory self)) eqn:E;
      [apply Z.ltb_lt in E | apply Z.ltb_ge in E]; repeat split; lia.
Qed.

Lemma Store_receive_backorder_first_witness :
  Store_receive 0 (mkStore (mkInventoryState 3 5 7) 10 9 1 2)
  = mkStore (mkInventoryState 3 5 7) 10 9 1 2 /\
  backorder (store_inventory
               (Store_receive 8 (mkStore (mkInventoryState 3 5 7) 10 9 1 2)))
  = Z.max 0 (5 - 8) /\
  on_hand (store_inventory
             (Store_receive 8 (mkStore (mkInventoryState 3 5 7) 10 9 1 2)))
  = 3 + Z.max 0 (8 - 5).
Proof.
  pose proof (Store_receive_backorder_first 0
                (mkStore (mkInventoryState 3 5 7) 10 9 1 2)) as H0.
  pose proof (Store_receive_backorder_first 8
                (mkStore (mkInventoryState 3 5 7) 10 9 1 2)) as H8.
  cbv zeta in H0, H8.
  split; [apply H0; lia|].
  destruct H8 as (_ & _ & H8).
  destruct H8 as (Hb & Hh & _); [lia | cbn; lia |].
  split; [exact Hb | exact Hh].
Defined.

(** On a distribution center with non-negative stock, [ship_to_store] ships
    [min(on_hand, max(0, quantity))]: never a negative quantity, never more
    than asked, never more than there is; the stock left is non-negative;
    and receiving the shipped quantity back restores the center. *)
Theorem ship_to_store_bounds (quantity : Z) (self : DistributionCenter) :
  0 <= on_hand (dc_inventory self) ->
  let shipped := fst (DistributionCenter_ship_to_store quantity self) in
  let self' := snd (DistributionCenter_ship_to_store quantity self) in
  shipped = Z.min (on_hand (dc_inventory self)) (Z.max 0 quantity) /\
  0 <= shipped /\
  shipped <= Z.max 0 quantity /\
  on_hand (dc_inventory self') = on_hand (dc_inventory self) - shipped /\
  0 <= on_hand (dc_inventory self') /\
  backorder (dc_inventory self') = backorder (dc_inventory self) /\
  on_order (dc_inventory self') = on_order (dc_inventory self) /\
  dc_orders_placed self' = dc_orders_placed self /\
  DistributionCenter_receive shipped self' = self.
Proof.
  intros Hstock. cbv zeta.
  unfold DistributionCenter_ship_to_store, DistributionCenter_receive.
  destruct self as [[h b o] n]. cbn in Hstock |- *.
  destruct (quantity <=? 0) eqn:E; cbn.
  - apply Z.leb_le in E. repeat split; try lia.
  - apply Z.leb_gt in E.
    destruct (Z.min h quantity <=? 0) eqn:E2; cbn;
      [apply Z.leb_le in E2 | apply Z.leb_gt in E2];
      repeat split; try lia.
    + assert (Z.min h quantity = 0) as -> by lia.
      now rewrite Z.sub_0_r.
    + f_equal. f_equal. lia.
Qed.

Lemma ship_to_store_bounds_witness :
  0 <= on_hand (dc_inventory (mkDistributionCenter (mkInventoryState 40 0 6) 2)) /\
  fst (DistributionCenter_ship_to_store 100
         (mkDistributionCenter (mkInventoryState 40 0 6) 2))
  = Z.min 40 (Z.max 0 100).
Proof.
  split; [cbn; lia|].
  apply (ship_to_store_bounds 100
           (mkDistributionCenter (mkInventoryState 40 0 6) 2)).
  cbn. lia.
Defined.

(** ** Policy *)

(** When [order_up_to_sS] returns, the quantity is non-negative; ordering it
    brings a position at or below [s] exactly to [S] and leaves a position
    above [s] alone, so that the new position is at least [s]; and asking
    again on the new position orders nothing. *)
Theorem order_up_to_sS_reaches_S (inventory_position s S quantity : Z) :
  order_up_to_sS inventory_position s S = inr quantity ->
  s <= S /\
  0 <= quantity /\
  (inventory_position <= s -> inventory_position + quantity = S) /\
  (s < inventory_position -> quantity = 0) /\
  s <= inventory_position + quantity /\
  order_up_to_sS (inventory_position + quantity) s S = inr 0.
Proof.
  unfold order_up_to_sS.
  destruct (S <? s) eqn:E; [discriminate|]. apply Z.ltb_ge in E.
  destruct (inventory_position <=? s) eqn:E2;
    [apply Z.leb_le in E2 | apply Z.leb_gt in E2];
    intros H; injection H as <-.
  - repeat split; try lia.
    destruct (inventory_position + Z.max 0 (S - inventory_position) <=? s) eqn:E3;
      [|reflexivity].
    apply Z.leb_le in E3. f_equal. lia.
  - repeat split; try lia. rewrite Z.add_0_r.
    apply Z.leb_gt in E2. now rewrite E2.
Qed.

Lemma order_up_to_sS_reaches_S_witness :
  order_up_to_sS 50 80 160 = inr 110 /\
  50 + 110 = 160 /\
  order_up_to_sS (50 + 110) 80 160 = inr 0.
Proof.
  pose proof (order_up_to_sS_reaches_S 50 80 160 110 eq_refl)
    as (_ & _ & Hto & _ & _ & Hagain).
  split; [reflexivity|]. split; [apply Hto; lia | exact Hagain].
Defined.

(** ** Samplers and demand peaks *)

Section SamplerValues.

Context {rt : Runtime}.

(** A [disruption_delay] that returns gives 0 or [delay_days], hence a
    non-negative delay; unless it short-circuits it makes exactly one
    [random()] draw and returns [delay_days] when the draw is below the
    probability, 0 otherwise. *)
Theorem disruption_delay_values (rng : Rng) (probability delay_days y : Q)
    (rng' : Rng) :
  disruption_delay rng probability delay_days = inr (y, rng') ->
  (y = 0%Q \/ y = delay_days) /\
  (0 <= y)%Q /\
  (~ (probability == 0)%Q -> ~ (delay_days == 0)%Q ->
   rng' = snd (rng_random rng) /\
   ((fst (rng_random rng) < probability)%Q -> y = delay_days) /\
   ((probability <= fst (rng_random rng))%Q -> y = 0%Q)).
Proof.
  intros H. split; [|split].
  - revert H. unfold disruption_delay.
    destruct (Qltb probability 0 || Qltb 1 probability); [discriminate|].
    destruct (Qltb delay_days 0); [discriminate|].
    destruct (Qeq_bool probability 0 || Qeq_bool delay_days 0).
    + intros H. injection H as <- _. now left.
    + destruct (rng_random rng) as [u g]. intros H. injection H as <- _.
      destruct (Qltb u probability); auto.
  - revert H. unfold disruption_delay.
    destruct (Qltb probability 0 || Qltb 1 probability); [discriminate|].
    destruct (Qltb delay_days 0) eqn:E; [discriminate|].
    apply Qltb_false in E.
    destruct (Qeq_bool probability 0 || Qeq_bool delay_days 0).
    + intros H. injection H as <- _. apply Qle_refl.
    + destruct (rng_random rng) as [u g]. intros H. injection H as <- _.
      destruct (Qltb u probability); [exact E | apply Qle_refl].
  - intros Hp Hd. revert H. unfold disruption_delay.
    destruct (Qltb probability 0 || Qltb 1 probability); [discriminate|].
    destruct (Qltb delay_days 0); [discriminate|].
    assert (E : Qeq_bool probability 0 || Qeq_bool delay_days 0 = false).
    { apply orb_false_iff. split.
      - destruct (Qeq_bool probability 0) eqn:E; [|reflexivity].
        apply Qeq_bool_iff in E. contradiction.
      - destruct (Qeq_bool delay_days 0) eqn:E; [|reflexivity].
        apply Qeq_bool_iff in E. contradiction. }
    rewrite E. destruct (rng_random rng) as [u g]. cbn [fst snd].
    intros H. injection H as <- <-. split; [reflexivity|]. split.
    + intros Hu. apply Qltb_true in Hu. now rewrite Hu.
    + intros Hu. apply Qltb_false in Hu. now rewrite Hu.
Qed.

End SamplerValues.

Lemma disruption_delay_values_witness :
  disruption_delay (rt := TestRng.runtime) 5 (3 # 4) 3 = inr (3%Q, 1222621274) /\
  (3%Q = 0%Q \/ 3%Q = 3%Q).
Proof.
  split; [reflexivity|].
  apply (disruption_delay_values (rt := TestRng.runtime) 5 (3 # 4) 3 3
           1222621274).
  reflexivity.
Defined.

Section MultiplierFacts.

Context {rt : Runtime}.

Lemma _demand_multiplier_from_product (peaks : list DemandPeak) (day : Z) :
  forall m, _demand_multiplier_from peaks day m
            = fold_left float_mul (map multiplier (filter (peak_covers day) peaks)) m.
Proof.
  induction peaks as [|peak peaks IH]; intros m; simpl; [reflexivity|].
  rewrite IH. unfold peak_covers at 2.
  destruct ((start_day peak <=? day) && (day <=? end_day peak)); reflexivity.
Qed.

Lemma _demand_multiplier_from_outside (peaks : list DemandPeak) (day : Z) :
  (forall peak, In peak peaks -> peak_covers day peak = false) ->
  forall m, _demand_multiplier_from peaks day m = m.
Proof.
  induction peaks as [|peak peaks IH]; intros Hout m; simpl; [reflexivity|].
  pose proof (Hout peak (or_introl eq_refl)) as E. unfold peak_covers in E.
  rewrite E. apply IH. intros p Hp. apply Hout. now right.
Qed.

Lemma fold_left_float_mul_nonneg (l : list Q) :
  (forall q, (0 <= q)%Q -> (0 <= float_round q)%Q) ->
  Forall (fun x => (0 < x)%Q) l ->
  forall m, (0 <= m)%Q -> (0 <= fold_left float_mul l m)%Q.
Proof.
  intros Hround. induction 1 as [|x l Hx Hl IH]; intros m Hm; simpl; [exact Hm|].
  apply IH. apply Hround. apply Qmult_le_0_compat; [exact Hm|].
  now apply Qlt_le_weak.
Qed.

Lemma covering_multipliers_Forall (P : Q -> Prop) (peaks : list DemandPeak) (day : Z) :
  Forall (fun peak => P (multiplier peak)) peaks ->
  Forall P (map multiplier (filter (peak_covers day) peaks)).
Proof.
  induction 1 as [|peak peaks Hp Hl IH]; simpl; [constructor|].
  destruct (peak_covers day peak); simpl; [constructor|]; assumption.
Qed.

(** Lines 33-40 of [runner.py]: [_demand_multiplier_for_day] multiplies 1.0,
    in the order of the peaks, by the multiplier of each peak whose window
    contains the day, and by nothing else, each product rounded to a float;
    it is exactly 1 on a day no peak covers; and, rounding keeping what is
    not negative so, it is not negative when every multiplier is positive
    (a product of positive floats may underflow to zero). *)
Theorem _demand_multiplier_for_day_product (config : SimulationConfig) (day : Z) :
  _demand_multiplier_for_day config day
  = covering_product (demand_peaks config) day /\
  ((forall peak, In peak (demand_peaks config) ->
                 day < start_day peak \/ end_day peak < day) ->
   _demand_multiplier_for_day config day = 1%Q) /\
  ((forall q, (0 <= q)%Q -> (0 <= float_round q)%Q) ->
   Forall (fun peak => (0 < multiplier peak)%Q) (demand_peaks config) ->
   (0 <= _demand_multiplier_for_day config day)%Q).
Proof.
  unfold _demand_multiplier_for_day, covering_product. split; [|split].
  - apply _demand_multiplier_from_product.
  - intros Hout. apply _demand_multiplier_from_outside.
    intros peak Hin. unfold peak_covers. apply andb_false_iff.
    destruct (Hout peak Hin) as [H | H]; [left | right]; now apply Z.leb_gt.
  - intros Hround Hpos. rewrite _demand_multiplier_from_product.
    apply fold_left_float_mul_nonneg; [exact Hround | | discriminate].
    now apply covering_multipliers_Forall.
Qed.

End MultiplierFacts.

Lemma _demand_multiplier_for_day_product_witness :
  _demand_multiplier_for_day (rt := TestRng.runtime) Fixtures.peak_config 4 = 1%Q /\
  (0 <= _demand_multiplier_for_day (rt := TestRng.runtime) Fixtures.peak_config 7)%Q.
Proof.
  pose proof (_demand_multiplier_for_day_product (rt := TestRng.runtime)
                Fixtures.peak_config) as H.
  split.
  - apply (H 4). cbn. intros peak [<- | []]. cbn. lia.
  - apply (H 7).
    + intros q Hq. exact Hq.
    + cbn. constructor; [reflexivity | constructor].
Defined.

(** ** Arrivals and the inventory position *)

Section DeliveryFacts.

Context {rt : Runtime}.

(** Applying an arrival moves its quantity out of the pipeline and into
    stock or cleared backorder: the receiver's inventory position stays what
    it was, and the other location is not touched. *)
Theorem deliver_keeps_position (pid : nat) (receiver : Receiver) (quantity : Z)
    (s : Sim) :
  0 <= quantity ->
  inventory_position (receiver_inventory receiver (deliver pid receiver quantity s))
  = inventory_position (receiver_inventory receiver s) /\
  (forall r, r <> receiver ->
             receiver_inventory r (deliver pid receiver quantity s)
             = receiver_inventory r s).
Proof.
  intros Hq. split.
  - unfold inventory_position.
    destruct receiver; sim_simpl;
      unfold Store_receive, DistributionCenter_receive;
      destruct (quantity <=? 0) eqn:E;
      [apply Z.leb_le in E | apply Z.leb_gt in E
      |apply Z.leb_le in E | apply Z.leb_gt in E]; cbn; try lia;
      destruct (0 <? backorder (store_inventory (store s))); lia.
  - intros r Hr. destruct receiver, r; try contradiction; reflexivity.
Qed.

End DeliveryFacts.

Lemma deliver_keeps_position_witness :
  0 <= 52 /\
  inventory_position
    (receiver_inventory ToStore (deliver 15 ToStore 52 TestRng.week_final))
  = inventory_position (receiver_inventory ToStore TestRng.week_final).
Proof.
  split; [lia|].
  apply (deliver_keeps_position 15 ToStore 52 TestRng.week_final). lia.
Defined.


(** ** The loop before it stops *)

Lemma range_succ (d : Z) : 0 <= d -> range (d + 1) = range d ++ [d].
Proof.
  intros Hd. unfold range.
  replace (Z.to_nat (d + 1)) with (S (Z.to_nat d)) by lia.
  rewrite seq_S, map_app. simpl. now rewrite Z2Nat.id.
Qed.

Section LoopFacts.

Context {rt : Runtime}.
Variable config : SimulationConfig.

Lemma running_reachable (g : Rng) (s : Sim) :
  running config g s -> reachable config g s.
Proof.
  induction 1 as [|s s' _ IH Hstep]; [constructor|].
  eapply reachable_step; [exact IH | apply step_transition; auto].
Qed.

(** What the loop returns is what [step] returned in a state it went
    through. *)
Lemma env_loop_running (g : Rng) (fuel : nat) :
  forall s o, running config g s -> env_loop config fuel s = Some o ->
  exists s', running config g s' /\
             match o with
             | inr r => step config s' = Stopped r
             | inl e => step config s' = Raised e
             end.
Proof.
  induction fuel as [|fuel IH]; intros s o Hs H; [discriminate|].
  simpl in H. destruct (step config s) as [s1 | s1 | e] eqn:Hstep.
  - apply (IH s1 o); [|exact H]. eapply running_step; eauto.
  - injection H as <-. eauto.
  - injection H as <-. eauto.
Qed.

Lemma step_Stopped_inv (s r : Sim) :
  step config s = Stopped r ->
  exists ev rest,
    heappop (queue s) = Some (ev, rest) /\
    ev_callback ev = StopSimulation /\ r = popped ev rest s.
Proof.
  unfold step. destruct (heappop (queue s)) as [[ev rest]|]; [|discriminate].
  destruct (ev_callback ev) as [| r0 n lead | pid r0 n | |] eqn:Hcb.
  - unfold daily_process.
    destruct (_ <? _); [destruct (daily_body _ _ _) as [e | [u s2]]|];
      discriminate.
  - unfold arrival_process_start. destruct (Qltb lead 0); discriminate.
  - discriminate.
  - intros H. injection H as <-. eauto.
  - discriminate.
Qed.

End LoopFacts.

(** ** One row per day *)

Section ClockFacts.

Context {rt : Runtime}.
Variable config : SimulationConfig.

Lemma day_clock_frame (d : Z) (t : Q) (rows : Z) (s s' : Sim) :
  queue s' = queue s -> daily_day s' = daily_day s -> now s' = now s ->
  sim_timeseries s' = sim_timeseries s ->
  day_clock config d t rows s -> day_clock config d t rows s'.
Proof. unfold day_clock. intros -> -> -> ->. exact (fun H => H). Qed.

Lemma day_clock_legs (d : Z) (t : Q) (rows : Z) :
  hoare (day_clock config d t rows) (backorder_leg config)
    (fun _ => day_clock config d t rows) /\
  (forall quantity,
      hoare (day_clock config d t rows) (store_leg config quantity)
        (fun _ => day_clock config d t rows)) /\
  (forall quantity,
      hoare (day_clock config d t rows) (dc_leg config quantity)
        (fun _ => day_clock config d t rows)).
Proof.
  apply legs_keep.
  - intros quantity s shipped s' H E.
    unfold ship_to_store, DistributionCenter_ship_to_store in E.
    destruct (quantity <=? 0); injection E as <- <-; [exact H|].
    revert H. now apply day_clock_frame.
  - intros receiver quantity s u s' H E.
    apply schedule_inbound_shipment_cases in E
      as [[_ ->] | (_ & y & g1 & z & g2 & _ & _ & ->)]; [exact H|].
    destruct H as (Hcnt & Hstop & Hd & Ht & Hrows).
    destruct receiver; (split; [|split; [|split; [|split]]]);
      try assumption;
      intros ev [<- | Hin] Hcb; try discriminate; now apply Hstop.
  - intros s. now apply day_clock_frame.
  - intros s n _. now apply day_clock_frame.
  - intros s. now apply day_clock_frame.
Qed.

Lemma clock_daily_body (d : Z) (t : Q) (day : Z) :
  0 <= day ->
  hoare (day_clock config d t day) (daily_body config day)
    (fun _ => day_clock config d t (day + 1)).
Proof.
  intros Hday. destruct (day_clock_legs d t day) as (Hb & Hs & Hd).
  apply (daily_body_hoare_gen config day (day_clock config d t day)
           (day_clock config d t day) (day_clock config d t day)
           (day_clock config d t day) (day_clock config d t day)).
  - intros s g. now apply day_clock_frame.
  - intros s demand. now apply day_clock_frame.
  - exact Hb.
  - intros quantity. eapply hoare_weaken; [apply (Hs quantity) | | auto].
    intros s [H _]. exact H.
  - intros quantity. eapply hoare_weaken; [apply (Hd quantity) | | auto].
    intros s [H _]. exact H.
  - intros s (Hcnt & Hstop & Hdd & Ht & Hrows).
    split; [exact Hcnt|]. split; [exact Hstop|]. split; [exact Hdd|].
    split; [exact Ht|].
    unfold append_row. cbn [sim_timeseries].
    rewrite map_app, Hrows, range_succ, map_app by exact Hday. reflexivity.
Qed.

Lemma clock_push (p : nat) (delay : Q) (cb : Callback) (s : Sim) :
  cb <> DailyResume -> cb <> StopSimulation ->
  clock_invariant config s -> clock_invariant config (env_schedule p delay cb s).
Proof.
  intros Hd Hs (Hcnt & Htime & Hex & Hstop & H0 & Hmax & Hrows).
  assert (Hw : is_daily (mkScheduled (float_add (now s) delay) p (eid s) cb) = 0).
  { unfold is_daily. cbn. destruct cb; try reflexivity. contradiction. }
  split; [|split; [|split; [|split; [|split; [|split]]]]];
    cbn [queue daily_day sim_timeseries env_schedule]; try assumption.
  - cbn [qsum]. rewrite Hw. lia.
  - intros ev [<- | Hin] Hcb; [contradiction | now apply Htime].
  - intros Hlt. destruct (Hex Hlt) as (ev & Hin & Hcb).
    exists ev. split; [now right | exact Hcb].
  - intros ev [<- | Hin] Hcb; [contradiction | now apply Hstop].
Qed.

Lemma clock_pop_other (s : Sim) (ev : Scheduled) (rest : list Scheduled) :
  heappop (queue s) = Some (ev, rest) ->
  ev_callback ev <> DailyResume ->
  clock_invariant config s -> clock_invariant config (popped ev rest s).
Proof.
  intros Hpop Hev (Hcnt & Htime & Hex & Hstop & H0 & Hmax & Hrows).
  pose proof (heappop_In _ _ _ Hpop) as Hin.
  pose proof (heappop_qsum is_daily _ _ _ Hpop) as Hsum.
  pose proof (is_daily_nonneg ev).
  split; [|split; [|split; [|split; [|split; [|split]]]]];
    cbn [queue daily_day sim_timeseries popped]; try assumption.
  - lia.
  - intros x Hx. apply Htime, Hin. now right.
  - intros Hlt. destruct (Hex Hlt) as (x & Hx & Hcb).
    apply Hin in Hx as [-> | Hx]; [contradiction|]. eauto.
  - intros x Hx. apply Hstop, Hin. now right.
Qed.

Lemma clock_frame (s s' : Sim) :
  queue s' = queue s -> daily_day s' = daily_day s ->
  sim_timeseries s' = sim_timeseries s ->
  clock_invariant config s -> clock_invariant config s'.
Proof. unfold clock_invariant. intros -> -> ->. exact (fun H => H). Qed.

Lemma clock_transition (s s' : Sim) :
  clock_invariant config s -> transition config s s' -> clock_invariant config s'.
Proof.
  intros H T. destruct T as
    [s ev rest u s2 Hpop Hcb Hday Hbody | s ev rest Hpop Hcb Hday
     | s ev rest r n lead Hpop Hcb Hlead | s ev rest pid r n Hpop Hcb
     | s ev rest Hpop Hcb | s ev rest Hpop Hcb ].
  - destruct H as (Hcnt & Htime & Hex & Hstop & H0 & Hmax & Hrows).
    pose proof (heappop_In _ _ _ Hpop) as Hin.
    pose proof (heappop_qsum is_daily _ _ _ Hpop) as Hsum.
    assert (Hw : is_daily ev = 1) by (unfold is_daily; now rewrite Hcb).
    assert (Htev : (ev_time ev == inject_Z (daily_day s))%Q).
    { apply Htime; [apply Hin; now left | exact Hcb]. }
    assert (Hpre : day_clock config (daily_day s + 1) (ev_time ev) (daily_day s)
                     (set_daily_day (daily_day s + 1) (popped ev rest s))).
    { split; [|split; [|split; [|split]]];
        cbn [queue daily_day now sim_timeseries set_daily_day popped];
        try reflexivity; try assumption.
      - lia.
      - intros x Hx. apply Hstop, Hin. now right. }
    destruct (clock_daily_body _ _ _ H0 _ _ _ Hpre Hbody)
      as (Hcnt2 & Hstop2 & Hd2 & Ht2 & Hrows2).
    split; [|split; [|split; [|split; [|split; [|split]]]]];
      cbn [queue daily_day sim_timeseries env_schedule].
    + cbn [qsum is_daily ev_callback]. lia.
    + intros x [<- | Hx] Hxcb.
      * cbn [ev_time]. rewrite Ht2, Hd2.
        exact (float_add_integer (ev_time ev) (daily_day s) 1 Htev).
      * exfalso. exact (no_daily _ Hcnt2 x Hx Hxcb).
    + intros _. eexists. split; [left; reflexivity | reflexivity].
    + intros x [<- | Hx] Hxcb; [discriminate | now apply Hstop2].
    + lia.
    + lia.
    + rewrite Hd2. exact Hrows2.
  - destruct H as (Hcnt & Htime & Hex & Hstop & H0 & Hmax & Hrows).
    pose proof (heappop_In _ _ _ Hpop) as Hin.
    pose proof (heappop_qsum is_daily _ _ _ Hpop) as Hsum.
    assert (Hw : is_daily ev = 1) by (unfold is_daily; now rewrite Hcb).
    assert (Hnone : qsum is_daily rest <= 0) by lia.
    split; [|split; [|split; [|split; [|split; [|split]]]]];
      cbn [queue daily_day sim_timeseries env_schedule popped];
      try assumption.
    + cbn [qsum is_daily ev_callback]. lia.
    + intros x [<- | Hx] Hxcb; [discriminate|].
      exfalso. exact (no_daily _ Hnone x Hx Hxcb).
    + intros Hlt. lia.
    + intros x [<- | Hx] Hxcb; [discriminate|]. apply Hstop; [|exact Hxcb].
      apply Hin. now right.
  - apply clock_push; [discriminate | discriminate|].
    apply (clock_pop_other s ev rest Hpop); [congruence | exact H].
  - apply clock_push; [discriminate | discriminate|].
    apply (clock_frame (popped ev rest s)); try (destruct r; reflexivity).
    apply (clock_pop_other s ev rest Hpop); [congruence | exact H].
  - apply (clock_pop_other s ev rest Hpop); [congruence | exact H].
  - apply (clock_pop_other s ev rest Hpop); [congruence | exact H].
Qed.

Lemma clock_reachable (g : Rng) (s : Sim) :
  reachable config g s -> clock_invariant config s.
Proof.
  apply reachable_invariant; [|apply clock_transition].
  split; [|split; [|split; [|split; [|split; [|split]]]]];
    cbn [queue daily_day sim_timeseries started initial_sim env_schedule now].
  - cbn. lia.
  - intros ev [<- | [<- | []]] Hcb; [discriminate|]. reflexivity.
  - intros _. eexists. split; [right; left; reflexivity | reflexivity].
  - intros ev [<- | [<- | []]] Hcb; [|discriminate]. cbn [ev_time].
    rewrite float_add_0_l. ring.
  - lia.
  - lia.
  - reflexivity.
Qed.

(** When the loop stops, [daily_process] has run every day of the horizon. *)
Lemma stopped_after_last_day (g : Rng) (s r : Sim) :
  0 < days config ->
  running config g s -> step config s = Stopped r ->
  daily_day r = days config /\ reachable config g r.
Proof.
  intros Hdays Hrun Hstep.
  pose proof (running_reachable config g s Hrun) as Hreach.
  assert (Hr : reachable config g r).
  { eapply reachable_step; [exact Hreach | apply step_transition; auto]. }
  split; [|exact Hr].
  destruct (step_Stopped_inv config s r Hstep) as (ev & rest & Hpop & Hcb & ->).
  destruct (clock_reachable g s Hreach)
    as (Hcnt & Htime & Hex & Hstop & H0 & Hmax & Hrows).
  cbn [daily_day popped].
  destruct (Z_lt_le_dec (daily_day s) (days config)) as [Hlt | Hge]; [|lia].
  exfalso. destruct (Hex Hlt) as (x & Hx & Hxcb).
  pose proof (heappop_In _ _ _ Hpop) as Hin.
  assert (Hev : (ev_time ev == inject_Z (days config))%Q).
  { apply Hstop; [apply Hin; now left | exact Hcb]. }
  pose proof (Htime x Hx Hxcb) as Htx.
  apply Hin in Hx as [-> | Hx]; [congruence|].
  pose proof (heappop_min_time _ _ _ Hpop x Hx) as Hmin.
  rewrite Hev, Htx in Hmin. rewrite <- Zle_Qle in Hmin. lia.
Qed.

End ClockFacts.

Section CompletedRuns.

Context {rt : Runtime}.

(** A completed [run_single] is the summary of the state in which the loop
    popped the [until] event. *)
Lemma run_single_stopped (config : SimulationConfig) (call : nat)
    (res : SimulationResult) :
  run_single config call = inr res ->
  exists s r,
    0 < days config /\
    running config (default_rng (seed config) call) s /\
    step config s = Stopped r /\ res = summarise config r.
Proof.
  intros H. unfold run_single, run_single_from in H.
  destruct (simulate config _) as [e | r] eqn:E; [discriminate|].
  injection H as <-.
  destruct (simulate_reachable config _ _ E) as [Hdays _].
  destruct (simulate_within_fuel config (default_rng (seed config) call) Hdays)
    as (o & Hloop & Ho).
  rewrite E in Ho. subst o.
  destruct (env_loop_running config _ _ _ _ (running_start config _) Hloop)
    as (s & Hs & Hstep).
  exists s, r. auto.
Qed.



End CompletedRuns.


(** ** Orders placed *)

Section CounterFacts.

Context {rt : Runtime}.
Variable config : SimulationConfig.

Lemma counters_frame (a b c : Z) (s s' : Sim) :
  stockout_days (store s') = stockout_days (store s) ->
  store_orders_placed (store s') = store_orders_placed (store s) ->
  dc_orders_placed (distribution_center s')
  = dc_orders_placed (distribution_center s) ->
  daily_day s' = daily_day s ->
  counters_invariant a b c s -> counters_invariant a b c s'.
Proof. unfold counters_invariant. intros -> -> -> ->. exact (fun H => H). Qed.

Lemma counters_ship_to_store (a b c quantity : Z) :
  hoare (counters_invariant a b c) (ship_to_store quantity)
    (fun _ => counters_invariant a b c).
Proof.
  intros s shipped s' H E.
  unfold ship_to_store, DistributionCenter_ship_to_store in E.
  destruct (quantity <=? 0); injection E as <- <-; [exact H|].
  revert H. now apply counters_frame.
Qed.

Lemma counters_schedule_inbound_shipment (a b c : Z) (receiver : Receiver)
    (quantity : Z) :
  hoare (counters_invariant a b c)
    (schedule_inbound_shipment config receiver quantity)
    (fun _ => counters_invariant a b c).
Proof.
  intros s u s' H E.
  apply schedule_inbound_shipment_cases in E
    as [[_ ->] | (_ & x & g1 & y & g2 & _ & _ & ->)]; [exact H|].
  revert H. destruct receiver; now apply counters_frame.
Qed.

Lemma counters_backorder_leg (a b c : Z) :
  hoare (counters_invariant a b c) (backorder_leg config)
    (fun _ => counters_invariant a b c).
Proof.
  unfold backorder_leg.
  eapply hoare_bind; [apply hoare_gets | intros owed].
  apply hoare_if; intros _; [|apply hoare_ret].
  eapply hoare_bind; [apply counters_ship_to_store | intros shipped].
  apply hoare_if; intros _;
    [apply counters_schedule_inbound_shipment | apply hoare_ret].
Qed.

Lemma counters_store_leg (quantity : Z) :
  hoare (counters_invariant 0 1 1) (store_leg config quantity)
    (fun _ => counters_invariant 0 0 1).
Proof.
  unfold store_leg. apply hoare_if; intros _.
  - eapply hoare_bind with (Q := fun _ => counters_invariant 0 0 1).
    { apply hoare_modify. intros s. unfold counters_invariant. sim_simpl. lia. }
    intros ?.
    eapply hoare_bind; [apply counters_ship_to_store | intros shipped].
    eapply hoare_bind with (Q := fun _ => counters_invariant 0 0 1).
    { apply hoare_if; intros _;
        [apply counters_schedule_inbound_shipment | apply hoare_ret]. }
    intros ?. apply hoare_if; intros _; [|apply hoare_ret].
    apply hoare_modify. intros s. now apply counters_frame.
  - intros s u s' H E. injection E as <- <-. revert H.
    unfold counters_invariant. lia.
Qed.

Lemma counters_dc_leg (quantity : Z) :
  hoare (counters_invariant 0 0 1) (dc_leg config quantity)
    (fun _ => counters_invariant 0 0 0).
Proof.
  unfold dc_leg. apply hoare_if; intros _.
  - eapply hoare_bind with (Q := fun _ => counters_invariant 0 0 0).
    { apply hoare_modify. intros s. unfold counters_invariant. sim_simpl. lia. }
    intros ?. apply counters_schedule_inbound_shipment.
  - intros s u s' H E. injection E as <- <-. revert H.
    unfold counters_invariant. lia.
Qed.

Lemma counters_daily_body (day : Z) :
  hoare (counters_invariant 1 1 1) (daily_body config day)
    (fun _ => counters_invariant 0 0 0).
Proof.
  apply (daily_body_hoare_gen config day (counters_invariant 1 1 1)
           (counters_invariant 0 1 1) (counters_invariant 0 1 1)
           (counters_invariant 0 0 1) (counters_invariant 0 0 0)).
  - intros s g. now apply counters_frame.
  - intros s demand. unfold counters_invariant. sim_simpl.
    unfold Store_consume_demand. sim_simpl.
    destruct (0 <? _); lia.
  - apply counters_backorder_leg.
  - intros quantity.
    eapply hoare_weaken; [apply (counters_store_leg quantity) | | auto].
    intros s [H _]. exact H.
  - intros quantity.
    eapply hoare_weaken; [apply (counters_dc_leg quantity) | | auto].
    intros s [H _]. exact H.
  - intros s. now apply counters_frame.
Qed.

Lemma counters_transition (s s' : Sim) :
  counters_invariant 0 0 0 s -> transition config s s' ->
  counters_invariant 0 0 0 s'.
Proof.
  intros H T. destruct T as
    [s ev rest u s2 Hpop Hcb Hday Hbody | s ev rest Hpop Hcb Hday
     | s ev rest r n lead Hpop Hcb Hlead | s ev rest pid r n Hpop Hcb
     | s ev rest Hpop Hcb | s ev rest Hpop Hcb ];
    try (revert H; now apply counters_frame).
  - assert (Hpre : counters_invariant 1 1 1
                     (set_daily_day (daily_day s + 1) (popped ev rest s))).
    { revert H. unfold counters_invariant. sim_simpl. lia. }
    pose proof (counters_daily_body _ _ _ _ Hpre Hbody) as Hpost.
    revert Hpost. now apply counters_frame.
  - revert H. apply counters_frame; try reflexivity;
      destruct r; sim_simpl;
      unfold Store_receive, DistributionCenter_receive;
      destruct (n <=? 0); reflexivity.
Qed.

Lemma counters_reachable (g : Rng) (s : Sim) :
  reachable config g s -> counters_invariant 0 0 0 s.
Proof.
  apply reachable_invariant; [|apply counters_transition].
  unfold counters_invariant. sim_simpl. lia.
Qed.

End CounterFacts.

Section OrdersTheorem.

Context {rt : Runtime}.

(** Lines 113-116 and 129-132 of [runner.py]: each day the store places at
    most one replenishment order and the distribution center at most one,
    so on a completed run [total_orders_store] and [total_orders_dc] lie
    between 0 and [days]. *)
Theorem orders_at_most_one_per_day (config : SimulationConfig) (call : nat)
    (res : SimulationResult) :
  run_single config call = inr res ->
  0 <= total_orders_store (kpis res) <= days config /\
  0 <= total_orders_dc (kpis res) <= days config.
Proof.
  intros H.
  destruct (run_single_stopped config call res H)
    as (s & r & Hdays & Hrun & Hstep & ->).
  destruct (stopped_after_last_day config _ s r Hdays Hrun Hstep) as [Hd Hr].
  pose proof (counters_reachable config _ r Hr) as Hc.
  unfold counters_invariant in Hc. rewrite Hd in Hc.
  cbn [kpis summarise total_orders_store total_orders_dc]. lia.
Qed.

End OrdersTheorem.

Lemma orders_at_most_one_per_day_witness :
  run_single (rt := TestRng.runtime) TestRng.week_config 0
  = inr TestRng.week_result /\
  0 <= total_orders_store (kpis TestRng.week_result)
    <= days TestRng.week_config /\
  0 <= total_orders_dc (kpis TestRng.week_result)
    <= days TestRng.week_config.
Proof.
  split; [reflexivity|].
  apply (orders_at_most_one_per_day (rt := TestRng.runtime)
           TestRng.week_config 0 TestRng.week_result).
  reflexivity.
Defined.

(** ** The stock position of the distribution center *)

Section DcFacts.

Context {rt : Runtime}.
Variable config : SimulationConfig.

Lemma dc_frame (s s' : Sim) :
  distribution_center s' = distribution_center s ->
  sim_timeseries s' = sim_timeseries s ->
  dc_invariant config s -> dc_invariant config s'.
Proof. unfold dc_invariant. intros -> ->. exact (fun H => H). Qed.

Lemma dc_ship_to_store (quantity : Z) :
  hoare (dc_invariant config) (ship_to_store quantity)
    (fun _ => dc_invariant config).
Proof.
  intros s shipped s' H E.
  unfold ship_to_store, DistributionCenter_ship_to_store in E.
  destruct (quantity <=? 0) eqn:Hq; injection E as <- <-; [exact H|].
  apply Z.leb_gt in Hq. revert H. unfold dc_invariant, inventory_position.
  sim_simpl. intros (H1 & H2 & H3 & H4).
  repeat split; try assumption; lia.
Qed.

Lemma dc_schedule_to_store (quantity : Z) :
  hoare (dc_invariant config)
    (schedule_inbound_shipment config ToStore quantity)
    (fun _ => dc_invariant config).
Proof.
  intros s u s' H E.
  apply schedule_inbound_shipment_cases in E
    as [[_ ->] | (_ & x & g1 & y & g2 & _ & _ & ->)]; [exact H|].
  revert H. now apply dc_frame.
Qed.

Lemma dc_backorder_leg :
  hoare (dc_invariant config) (backorder_leg config)
    (fun _ => dc_invariant config).
Proof.
  unfold backorder_leg.
  eapply hoare_bind; [apply hoare_gets | intros owed].
  apply hoare_if; intros _; [|apply hoare_ret].
  eapply hoare_bind; [apply dc_ship_to_store | intros shipped].
  apply hoare_if; intros _; [apply dc_schedule_to_store | apply hoare_ret].
Qed.

Lemma dc_store_leg (quantity : Z) :
  hoare (dc_invariant config) (store_leg config quantity)
    (fun _ => dc_invariant config).
Proof.
  unfold store_leg. apply hoare_if; intros _; [|apply hoare_ret].
  eapply hoare_bind with (Q := fun _ => dc_invariant config).
  { apply hoare_modify. intros s. now apply dc_frame. }
  intros ?.
  eapply hoare_bind; [apply dc_ship_to_store | intros shipped].
  eapply hoare_bind with (Q := fun _ => dc_invariant config).
  { apply hoare_if; intros _; [apply dc_schedule_to_store | apply hoare_ret]. }
  intros ?. apply hoare_if; intros _; [|apply hoare_ret].
  apply hoare_modify. intros s. now apply dc_frame.
Qed.

(** After its replenishment decision the distribution center's position is
    back at [s_dc] or above. *)
Lemma dc_dc_leg (quantity : Z) :
  hoare (fun s => dc_invariant config s /\
                  order_up_to_sS
                    (inventory_position (dc_inventory (distribution_center s)))
                    (s_dc config) (S_dc config) = inr quantity)
    (dc_leg config quantity)
    (fun _ s => dc_invariant config s /\
                s_dc config
                <= inventory_position (dc_inventory (distribution_center s))).
Proof.
  intros s u s' [H Hq] E. unfold order_up_to_sS in Hq.
  destruct (S_dc config <? s_dc config) eqn:HsS; [discriminate|].
  apply Z.ltb_ge in HsS.
  unfold dc_leg in E. destruct (0 <? quantity) eqn:Hpos.
  - apply Z.ltb_lt in Hpos. unfold bind, modify in E.
    apply schedule_inbound_shipment_cases in E
      as [[Hle _] | (_ & x & g1 & y & g2 & _ & _ & ->)]; [lia|].
    revert H Hq. unfold dc_invariant, dc_ceiling, inventory_position.
    sim_simpl. intros (H1 & H2 & H3 & H4) Hq.
    destruct (_ <=? _) eqn:Hle; injection Hq as Hq; [|lia].
    apply Z.leb_le in Hle.
    repeat split; try assumption; lia.
  - apply Z.ltb_ge in Hpos. injection E as <- <-. split; [exact H|].
    destruct (_ <=? _) eqn:Hle; injection Hq as Hq;
      [apply Z.leb_le in Hle | apply Z.leb_gt in Hle]; lia.
Qed.

Lemma dc_daily_body (day : Z) :
  hoare (dc_invariant config) (daily_body config day)
    (fun _ => dc_invariant config).
Proof.
  apply (daily_body_hoare_gen config day (dc_invariant config)
           (dc_invariant config) (dc_invariant config) (dc_invariant config)
           (fun s => dc_invariant config s /\
                     s_dc config
                     <= inventory_position
                          (dc_inventory (distribution_center s)))).
  - intros s g. now apply dc_frame.
  - intros s demand. now apply dc_frame.
  - apply dc_backorder_leg.
  - intros quantity.
    eapply hoare_weaken; [apply (dc_store_leg quantity) | | auto].
    intros s [H _]. exact H.
  - intros quantity. apply dc_dc_leg.
  - intros s [(H1 & H2 & H3 & H4) Hlow].
    unfold dc_invariant. sim_simpl.
    split; [exact H1|]. split; [exact H2|]. split; [exact H3|].
    apply Forall_app. split; [exact H4|]. constructor; [|constructor].
    unfold row_dc_position_bounded, inventory_position in *.
    cbn [row_dc_on_hand row_dc_on_order].
    rewrite <- inject_Z_plus, <- !Zle_Qle. lia.
Qed.

Lemma dc_transition (s s' : Sim) :
  pipeline_invariant s -> dc_invariant config s -> transition config s s' ->
  dc_invariant config s'.
Proof.
  intros Hpipe H T. destruct T as
    [s ev rest u s2 Hpop Hcb Hday Hbody | s ev rest Hpop Hcb Hday
     | s ev rest r n lead Hpop Hcb Hlead | s ev rest pid r n Hpop Hcb
     | s ev rest Hpop Hcb | s ev rest Hpop Hcb ];
    try (revert H; now apply dc_frame).
  - assert (Hpre : dc_invariant config
                     (set_daily_day (daily_day s + 1) (popped ev rest s))).
    { revert H. now apply dc_frame. }
    pose proof (dc_daily_body _ _ _ _ Hpre Hbody) as Hpost.
    revert Hpost. now apply dc_frame.
  - destruct r; [revert H; now apply dc_frame|].
    assert (Hn : 0 < n).
    { destruct Hpipe as (_ & Hposv & _).
      specialize (Hposv ev (proj2 (heappop_In _ _ _ Hpop ev) (or_introl eq_refl))).
      unfold shipment_positive in Hposv. now rewrite Hcb in Hposv. }
    revert H. unfold dc_invariant, inventory_position. sim_simpl.
    unfold DistributionCenter_receive. sim_simpl.
    destruct (n <=? 0) eqn:Hle; [apply Z.leb_le in Hle; lia|]. sim_simpl.
    intros (H1 & H2 & H3 & H4). repeat split; try assumption; lia.
Qed.

Lemma dc_reachable (g : Rng) (s : Sim) :
  0 <= initial_on_hand_dc config ->
  reachable config g s -> dc_invariant config s.
Proof.
  intros Hinit Hs. induction Hs as [|s s' Hs IH T].
  - unfold dc_invariant, dc_ceiling, inventory_position. sim_simpl.
    repeat split; try lia. constructor.
  - apply (dc_transition s s'); [|exact IH | exact T].
    exact (pipeline_reachable config g s Hs).
Qed.

End DcFacts.

Section DcTheorem.

Context {rt : Runtime}.

(** Lines 125-133 and 135-147 of [runner.py]: when the distribution center
    starts with a non-negative stock, every recorded row has
    [s_dc <= dc_on_hand + dc_on_order <= max(initial_on_hand_dc, S_dc)]:
    each day ends with the center's position restored to at least its
    reorder point and never above its order-up-to level (or its initial
    stock, if that was higher). *)
Theorem dc_position_between_s_and_S (config : SimulationConfig) (call : nat)
    (res : SimulationResult) :
  0 <= initial_on_hand_dc config ->
  run_single config call = inr res ->
  Forall (fun row =>
            (inject_Z (s_dc config) <= row_dc_on_hand row + row_dc_on_order row)%Q /\
            (row_dc_on_hand row + row_dc_on_order row
             <= inject_Z (Z.max (initial_on_hand_dc config) (S_dc config)))%Q)
    (timeseries res).
Proof.
  intros Hinit H.
  destruct (run_single_inv config call res H) as (s & -> & _ & Hs).
  destruct (dc_reachable config _ s Hinit Hs) as (_ & _ & _ & Hrows).
  exact Hrows.
Qed.

End DcTheorem.

Lemma dc_position_between_s_and_S_witness :
  0 <= initial_on_hand_dc TestRng.week_config /\
  run_single (rt := TestRng.runtime) TestRng.week_config 0
  = inr TestRng.week_result /\
  Forall (fun row =>
            (inject_Z (s_dc TestRng.week_config)
             <= row_dc_on_hand row + row_dc_on_order row)%Q /\
            (row_dc_on_hand row + row_dc_on_order row
             <= inject_Z (Z.max (initial_on_hand_dc TestRng.week_config)
                            (S_dc TestRng.week_config)))%Q)
    (timeseries TestRng.week_result).
Proof.
  assert (Hinit : 0 <= initial_on_hand_dc TestRng.week_config)
    by (vm_compute; discriminate).
  split; [exact Hinit|]. split; [reflexivity|].
  apply (dc_position_between_s_and_S (rt := TestRng.runtime)
           TestRng.week_config 0 TestRng.week_result Hinit).
  reflexivity.
Defined.

(** ** Runs with an invalid policy *)

Section RejectionFacts.

Context {rt : Runtime}.
Variable config : SimulationConfig.

(** With a policy whose [S] is below its [s] no day runs to its end. *)
Lemma daily_body_invalid_policy (day : Z) :
  S_store config < s_store config \/ S_dc config < s_dc config ->
  hoare (fun _ => True) (daily_body config day) (fun _ _ => False).
Proof.
  intros Hbad.
  assert (Hok : forall position s S quantity,
             order_up_to_sS position s S = inr quantity -> s <= S).
  { intros position s S quantity. unfold order_up_to_sS.
    destruct (S <? s) eqn:E; [discriminate|]. now apply Z.ltb_ge in E. }
  apply (daily_body_hoare_gen config day (fun _ => True) (fun _ => True)
           (fun _ => True) (fun _ => s_store config <= S_store config)
           (fun _ => False)); auto.
  - intros s a s' _ _. exact I.
  - intros quantity s u s' [_ Hq] _. exact (Hok _ _ _ _ Hq).
  - intros quantity s u s' [Hstore Hq] _.
    pose proof (Hok _ _ _ _ Hq). lia.
Qed.

(** No day has been run, or the policies are valid. *)
Lemma policies_transition (s s' : Sim) :
  daily_day s <= 0 \/ policies_valid config ->
  transition config s s' ->
  daily_day s' <= 0 \/ policies_valid config.
Proof.
  intros H T. destruct T as
    [s ev rest u s2 Hpop Hcb Hday Hbody | s ev rest Hpop Hcb Hday
     | s ev rest r n lead Hpop Hcb Hlead | s ev rest pid r n Hpop Hcb
     | s ev rest Hpop Hcb | s ev rest Hpop Hcb ];
    try exact H.
  - right. unfold policies_valid.
    destruct (Z_le_gt_dec (s_store config) (S_store config)) as [Hs | Hs];
      [destruct (Z_le_gt_dec (s_dc config) (S_dc config)) as [Hd | Hd]|];
      [now split | exfalso | exfalso];
      (eapply (daily_body_invalid_policy (daily_day s)); [|exact I | exact Hbody]);
      lia.
  - destruct r; exact H.
Qed.

Lemma policies_reachable (g : Rng) (s : Sim) :
  reachable config g s -> daily_day s <= 0 \/ policies_valid config.
Proof.
  apply (reachable_invariant config
           (fun s => daily_day s <= 0 \/ policies_valid config));
    [|apply policies_transition].
  left. cbn. lia.
Qed.


End RejectionFacts.

Section RejectionTheorem.

Context {rt : Runtime}.

(** Lines 110-114 and 126-130 of [runner.py] with [order_up_to_sS]:
    [run_single] does not check the policies when it sets the run up, but
    each day calls [order_up_to_sS] for the store and for the distribution
    center.  So a run that returns a result had [s_store <= S_store] and
    [s_dc <= S_dc]: with [S < s] for either policy, [run_single] returns
    no result, whatever the other parameters and the generator. *)
Theorem completed_run_has_valid_policies (config : SimulationConfig)
    (call : nat) (res : SimulationResult) :
  run_single config call = inr res ->
  s_store config <= S_store config /\ s_dc config <= S_dc config.
Proof.
  intros H.
  destruct (run_single_stopped config call res H)
    as (s & r & Hdays & Hrun & Hstep & _).
  destruct (stopped_after_last_day config _ s r Hdays Hrun Hstep) as [Hd Hr].
  destruct (policies_reachable config _ r Hr) as [H0 | Hp].
  - rewrite Hd in H0. lia.
  - exact Hp.
Qed.

End RejectionTheorem.

Lemma completed_run_has_valid_policies_witness :
  run_single (rt := TestRng.runtime) TestRng.week_config 0
  = inr TestRng.week_result /\
  s_store TestRng.week_config <= S_store TestRng.week_config /\
  s_dc TestRng.week_config <= S_dc TestRng.week_config.
Proof.
  split; [reflexivity|].
  apply (completed_run_has_valid_policies (rt := TestRng.runtime)
           TestRng.week_config 0 TestRng.week_result).
  reflexivity.
Defined.

(** ** The schedule never runs empty *)

Section ScheduleFacts.

Context {rt : Runtime}.

Lemma raises_only_ret {A : Type} (E : Exception -> Prop) (a : A) :
  raises_only E (ret a).
Proof. intros s e H. discriminate. Qed.

Lemma raises_only_gets {A : Type} (E : Exception -> Prop) (f : Sim -> A) :
  raises_only E (gets f).
Proof. intros s e H. discriminate. Qed.

Lemma raises_only_modify (E : Exception -> Prop) (f : Sim -> Sim) :
  raises_only E (modify f).
Proof. intros s e H. discriminate. Qed.

Lemma raises_only_bind {A B : Type} (E : Exception -> Prop) (m : M A)
    (k : A -> M B) :
  raises_only E m -> (forall a, raises_only E (k a)) -> raises_only E (bind m k).
Proof.
  intros Hm Hk s e. unfold bind.
  destruct (m s) as [e' | [a s']] eqn:Hms.
  - intros H. injection H as <-. exact (Hm s e' Hms).
  - apply Hk.
Qed.

Lemma raises_only_if {A : Type} (E : Exception -> Prop) (b : bool) (m1 m2 : M A) :
  raises_only E m1 -> raises_only E m2 -> raises_only E (if b then m1 else m2).
Proof. now destruct b. Qed.

Lemma raises_only_draw {A : Type} (E : Exception -> Prop)
    (sample : Rng -> result (A * Rng)) :
  (forall g e, sample g = inl e -> E e) -> raises_only E (draw sample).
Proof.
  intros H s e. unfold draw.
  destruct (sample (random_generator s)) as [e' | [a g]] eqn:Hs; [|discriminate].
  intros H'. injection H' as <-. exact (H _ _ Hs).
Qed.

Lemma raises_only_raise_result {A : Type} (E : Exception -> Prop) (r : result A) :
  (forall e, r = inl e -> E e) -> raises_only E (raise_result r).
Proof.
  intros H s e. unfold raise_result. destruct r as [e' | a]; [|discriminate].
  intros H'. injection H' as <-. now apply H.
Qed.

Lemma raises_only_ship_to_store (E : Exception -> Prop) (quantity : Z) :
  raises_only E (ship_to_store quantity).
Proof.
  intros s e. unfold ship_to_store.
  destruct (DistributionCenter_ship_to_store _ _). discriminate.
Qed.

(** The samplers and the policy raise [ValueError] or [ZeroDivisionError]. *)
Lemma poisson_demand_no_RuntimeError (g : Rng) (lam : Q) (e : Exception) :
  poisson_demand g lam = inl e -> no_RuntimeError e.
Proof.
  unfold poisson_demand. destruct (Qltb lam 0); [|discriminate].
  intros H msg. injection H as <-. discriminate.
Qed.

Lemma lognormal_days_no_RuntimeError (g : Rng) (mean_days std_days : Q)
    (e : Exception) :
  lognormal_days g mean_days std_days = inl e -> no_RuntimeError e.
Proof.
  unfold lognormal_days, _lognormal_mu_sigma_from_mean_std, float_div.
  destruct (Qle_bool mean_days 0);
    [intros H msg; injection H as <-; discriminate|].
  destruct (Qltb std_days 0);
    [intros H msg; injection H as <-; discriminate|].
  destruct (Qeq_bool std_days 0).
  - cbn. discriminate.
  - destruct (Qeq_bool (float_mul mean_days mean_days) 0);
      [intros H msg; injection H as <-; discriminate|].
    match goal with
    | |- context [Qeq_bool ?sigma 0] => destruct (Qeq_bool sigma 0)
    end; discriminate.
Qed.

Lemma disruption_delay_no_RuntimeError (g : Rng) (probability delay_days : Q)
    (e : Exception) :
  disruption_delay g probability delay_days = inl e -> no_RuntimeError e.
Proof.
  unfold disruption_delay.
  destruct (Qltb probability 0 || Qltb 1 probability);
    [intros H msg; injection H as <-; discriminate|].
  destruct (Qltb delay_days 0);
    [intros H msg; injection H as <-; discriminate|].
  destruct (Qeq_bool probability 0 || Qeq_bool delay_days 0); [discriminate|].
  destruct (rng_random g). discriminate.
Qed.

Lemma order_up_to_sS_no_RuntimeError (position s S : Z) (e : Exception) :
  order_up_to_sS position s S = inl e -> no_RuntimeError e.
Proof.
  unfold order_up_to_sS. destruct (S <? s).
  - intros H msg. injection H as <-. discriminate.
  - destruct (position <=? s); discriminate.
Qed.

Variable config : SimulationConfig.

Lemma schedule_inbound_shipment_no_RuntimeError (receiver : Receiver)
    (quantity : Z) :
  raises_only no_RuntimeError (schedule_inbound_shipment config receiver quantity).
Proof.
  unfold schedule_inbound_shipment.
  apply raises_only_if; [apply raises_only_ret|].
  apply raises_only_bind; [apply raises_only_modify | intros ?].
  apply raises_only_bind.
  { apply raises_only_draw. intros g e. apply lognormal_days_no_RuntimeError. }
  intros lead. apply raises_only_bind.
  { apply raises_only_draw. intros g e. apply disruption_delay_no_RuntimeError. }
  intros delay. apply raises_only_modify.
Qed.

Lemma daily_body_no_RuntimeError (day : Z) :
  raises_only no_RuntimeError (daily_body config day).
Proof.
  unfold daily_body.
  apply raises_only_bind.
  { apply raises_only_draw. intros g e. apply poisson_demand_no_RuntimeError. }
  intros demand.
  apply raises_only_bind; [apply raises_only_modify | intros ?].
  apply raises_only_bind; [apply raises_only_gets | intros owed].
  apply raises_only_bind.
  { apply raises_only_if; [|apply raises_only_ret].
    apply raises_only_bind; [apply raises_only_ship_to_store | intros shipped].
    apply raises_only_if;
      [apply schedule_inbound_shipment_no_RuntimeError | apply raises_only_ret]. }
  intros ?.
  apply raises_only_bind; [apply raises_only_gets | intros position].
  apply raises_only_bind.
  { apply raises_only_raise_result. apply order_up_to_sS_no_RuntimeError. }
  intros quantity.
  apply raises_only_bind.
  { apply raises_only_if; [|apply raises_only_ret].
    apply raises_only_bind; [apply raises_only_modify | intros ?].
    apply raises_only_bind; [apply raises_only_ship_to_store | intros shipped].
    apply raises_only_bind.
    { apply raises_only_if;
        [apply schedule_inbound_shipment_no_RuntimeError | apply raises_only_ret]. }
    intros ?. apply raises_only_if;
      [apply raises_only_modify | apply raises_only_ret]. }
  intros ?.
  apply raises_only_bind; [apply raises_only_gets | intros dc_position].
  apply raises_only_bind.
  { apply raises_only_raise_result. apply order_up_to_sS_no_RuntimeError. }
  intros dc_quantity.
  apply raises_only_bind.
  { apply raises_only_if; [|apply raises_only_ret].
    apply raises_only_bind; [apply raises_only_modify | intros ?].
    apply schedule_inbound_shipment_no_RuntimeError. }
  intros ?. apply raises_only_modify.
Qed.

Lemma queue_member_daily_body (x : Scheduled) (day : Z) :
  hoare (fun s => In x (queue s)) (daily_body config day)
    (fun _ s => In x (queue s)).
Proof.
  apply (daily_body_hoare config day (fun s => In x (queue s))
           (fun _ s => In x (queue s))); auto.
  - intros _ quantity s shipped s' H E.
    unfold ship_to_store, DistributionCenter_ship_to_store in E.
    destruct (quantity <=? 0); injection E as <- <-; exact H.
  - intros _ receiver quantity s u s' H E.
    apply schedule_inbound_shipment_cases in E
      as [[_ ->] | (_ & y & g1 & z & g2 & _ & _ & ->)]; [exact H|].
    destruct receiver; right; exact H.
Qed.

(** A step that continues keeps every event it did not pop. *)
Lemma step_Continue_keeps (s s' : Sim) :
  step config s = Continue s' ->
  exists ev rest,
    heappop (queue s) = Some (ev, rest) /\
    ev_callback ev <> StopSimulation /\
    forall x, In x rest -> In x (queue s').
Proof.
  unfold step. destruct (heappop (queue s)) as [[ev rest]|]; [|discriminate].
  intros H. exists ev, rest. split; [reflexivity|].
  destruct (ev_callback ev) as [| r0 n lead | pid r0 n | |] eqn:Hcb.
  - split; [discriminate|]. revert H. unfold daily_process.
    cbn [daily_day popped].
    destruct (_ <? _).
    + destruct (daily_body _ _ _) as [e | [u s2]] eqn:Hbody; [discriminate|].
      intros H. injection H as <-. intros x Hx. right.
      exact (queue_member_daily_body x _
               (set_daily_day (daily_day s + 1) (popped ev rest s)) u s2
               Hx Hbody).
    + intros H. injection H as <-. intros x Hx. right. exact Hx.
  - split; [discriminate|]. revert H. unfold arrival_process_start.
    destruct (Qltb lead 0); [discriminate|].
    intros H. injection H as <-. intros x Hx. right. exact Hx.
  - split; [discriminate|]. injection H as <-.
    intros x Hx. right. destruct r0; exact Hx.
  - discriminate.
  - split; [discriminate|]. injection H as <-. auto.
Qed.

(** Until the loop stops, the stop event is in the heap. *)
Lemma running_stop_pending (g : Rng) (s : Sim) :
  running config g s -> stop_pending s.
Proof.
  induction 1 as [|s s' _ IH Hstep].
  - eexists. split; [left; reflexivity | reflexivity].
  - destruct IH as (x & Hx & Hcb).
    destruct (step_Continue_keeps s s' Hstep) as (ev & rest & Hpop & Hev & Hkeep).
    exists x. split; [|exact Hcb]. apply Hkeep.
    apply (heappop_In _ _ _ Hpop) in Hx as [-> | Hx]; [contradiction | exact Hx].
Qed.

(** What a step of the loop raises is no [RuntimeError]. *)
Lemma running_Raised (g : Rng) (s : Sim) (e : Exception) :
  running config g s -> step config s = Raised e -> no_RuntimeError e.
Proof.
  intros Hrun. unfold step.
  destruct (heappop (queue s)) as [[ev rest]|] eqn:Hpop.
  - destruct (ev_callback ev) as [| r0 n lead | pid r0 n | |]; try discriminate.
    + unfold daily_process. cbn [daily_day popped].
      destruct (_ <? _); [|discriminate].
      destruct (daily_body _ _ _) as [e' | [u s2]] eqn:Hbody; [|discriminate].
      intros H. injection H as <-.
      exact (daily_body_no_RuntimeError _ _ _ Hbody).
    + unfold arrival_process_start. destruct (Qltb lead 0); [|discriminate].
      intros H msg. injection H as <-. discriminate.
  - exfalso. destruct (running_stop_pending g s Hrun) as (x & Hx & _).
    apply heappop_None in Hpop. rewrite Hpop in Hx. exact Hx.
Qed.

End ScheduleFacts.

Section ScheduleTheorem.

Context {rt : Runtime}.

(** Lines 148-149 of [runner.py] with SimPy's [Environment.run]: the
    [until] event is scheduled before the loop starts and nothing removes it
    but the step that stops the loop, so [step] never finds the schedule
    empty, and the loop ends after at most [10 * days + 4] events.  Whatever
    [run_single] raises, it is not the [RuntimeError] with which
    [Environment.run] reports that no scheduled events are left. *)
Theorem run_single_schedule_never_empty (config : SimulationConfig) (call : nat)
    (msg : string) :
  env_loop config (run_fuel config)
    (started config (default_rng (seed config) call)) <> None /\
  run_single config call <> inl (RuntimeError msg).
Proof.
  split; [apply env_run_within_fuel|].
  unfold run_single, run_single_from, simulate, env_run.
  destruct (Qle_bool _ _); [discriminate|].
  fold (started config (default_rng (seed config) call)).
  destruct (env_loop config (run_fuel config)
              (started config (default_rng (seed config) call)))
    as [[e | r]|] eqn:Hloop.
  - destruct (env_loop_running config _ _ _ _ (running_start config _) Hloop)
      as (s & Hs & Hstep).
    intros H. injection H as ->.
    exact (running_Raised config _ s _ Hs Hstep msg eq_refl).
  - discriminate.
  - exfalso. exact (env_run_within_fuel config _ Hloop).
Qed.

End ScheduleTheorem.

(** ** Negative demand intensities *)

Section DemandFacts.

Context {rt : Runtime}.
Variable config : SimulationConfig.





End DemandFacts.

Section DemandTheorem.

Context {rt : Runtime}.


End DemandTheorem.


(** ** More on Monte Carlo batches *)

Lemma Qsum_bounds (lo hi : Q) (l : list Q) :
  Forall (fun x => (lo <= x <= hi)%Q) l ->
  (lo * Qlen l <= Qsum l <= hi * Qlen l)%Q.
Proof.
  unfold Qlen. induction 1 as [|x l [Hlo Hhi] Hl IH].
  - cbn [Qsum List.length]. change (inject_Z (Z.of_nat 0)) with 0%Q. lra.
  - cbn [Qsum List.length]. rewrite Nat2Z.inj_succ. unfold Z.succ.
    rewrite inject_Z_plus. change (inject_Z 1) with 1%Q.
    set (n := inject_Z (Z.of_nat (List.length l))) in *. lra.
Qed.

Lemma np_mean_bounds (lo hi : Q) (l : list Q) :
  l <> [] -> Forall (fun x => (lo <= x <= hi)%Q) l ->
  (lo <= np_mean l <= hi)%Q.
Proof.
  intros Hne Hl. destruct (Qsum_bounds lo hi l Hl) as [H1 H2].
  assert (Hpos : (0 < Qlen l)%Q).
  { unfold Qlen. change 0%Q with (inject_Z 0). rewrite <- Zlt_Qlt.
    destruct l; [contradiction | cbn [List.length]; lia]. }
  unfold np_mean. split.
  - apply Qle_shift_div_l; assumption.
  - apply Qle_shift_div_r; assumption.
Qed.

Section MonteCarloMore.

Context {rt : Runtime}.
Context {World : Type}.

Lemma replication_loop_app (config : SimulationConfig) (R : Z)
    (progress_cb : option (Q -> World -> World)) (l1 l2 : list Z) :
  forall (call : nat) (acc : list KPIs) (w : World),
    replication_loop config R progress_cb (l1 ++ l2) call acc w
    = match replication_loop config R progress_cb l1 call acc w with
      | (inr acc', w') =>
          replication_loop config R progress_cb l2
            (call + List.length l1) acc' w'
      | (inl e, w') => (inl e, w')
      end.
Proof.
  induction l1 as [|i l1 IH]; intros call acc w.
  - simpl. now rewrite Nat.add_0_r.
  - simpl.
    destruct (run_single (replication_config config i) call) as [e | r];
      [reflexivity|].
    rewrite IH. now rewrite Nat.add_succ_r.
Qed.

Lemma replication_loop_samples (P : KPIs -> Prop) (config : SimulationConfig)
    (R : Z) (progress_cb : option (Q -> World -> World)) (indices : list Z) :
  (forall i c r, run_single (replication_config config i) c = inr r ->
                 P (kpis r)) ->
  forall (call : nat) (acc : list KPIs) (w w' : World) (ks : list KPIs),
    Forall P acc ->
    replication_loop config R progress_cb indices call acc w = (inr ks, w') ->
    Forall P ks.
Proof.
  intros HP. induction indices as [|i indices IH]; intros call acc w w' ks Hacc H.
  - injection H as <- _. exact Hacc.
  - simpl in H.
    destruct (run_single (replication_config config i) call) as [e' | r] eqn:E;
      [discriminate|].
    apply (IH _ _ _ _ _) in H; [exact H|].
    apply Forall_app. split; [exact Hacc|]. constructor; [|constructor].
    exact (HP _ _ _ E).
Qed.

(** The rates of a completed run lie in [[0, 1]]. *)
Lemma run_single_rates (config : SimulationConfig) (call : nat)
    (res : SimulationResult) :
  0 <= initial_on_hand_store config -> 0 <= initial_on_hand_dc config ->
  run_single config call = inr res ->
  (0 <= service_level (kpis res) <= 1)%Q /\
  (0 <= fill_rate (kpis res) <= 1)%Q.
Proof.
  intros Hstore Hdc Hrun.
  apply run_single_inv in Hrun as (s & -> & Hdays & Hreach).
  apply stock_reachable in Hreach; [|assumption..].
  destruct Hreach as (H1 & H2 & H3 & H4 & H5 & H6 & H7 & H8).
  unfold summarise. cbn [kpis service_level fill_rate]. split.
  - apply service_level_of_bounds; lia.
  - now apply fill_rate_of_bounds.
Qed.

(** Lines 192-197 of [runner.py]: [monte_carlo] has no handler around
    [run_single].  When replication [k] is the first to raise, the batch
    raises that exception and returns no result; the progress callback has
    been called for the [k] replications before it, with [(i + 1) / R], and
    not for replication [k] or any later one. *)
Theorem monte_carlo_propagates_failure (config : SimulationConfig) (R : Z)
    (progress_cb : option (Q -> World -> World)) (call : nat) (w : World)
    (runs : nat -> SimulationResult) (k : nat) (e : Exception) :
  (k < Z.to_nat R)%nat ->
  (forall i, (i < k)%nat ->
             run_single (replication_config config (Z.of_nat i)) (call + i)
             = inr (runs i)) ->
  run_single (replication_config config (Z.of_nat k)) (call + k) = inl e ->
  monte_carlo config R progress_cb call w
  = (inl e,
     fold_left
       (fun w i => call_progress_cb progress_cb
                     (inject_Z (i + 1) / inject_Z R)%Q w)
       (range (Z.of_nat k)) w).
Proof.
  intros Hk Hruns Hfail. unfold monte_carlo.
  assert (E : (R <=? 0) = false) by (apply Z.leb_gt; lia). rewrite E.
  assert (Hsplit : range R
                   = map Z.of_nat (seq 0 k)
                     ++ map Z.of_nat (seq k (Z.to_nat R - k))).
  { unfold range. rewrite <- map_app, <- seq_app. f_equal. f_equal. lia. }
  rewrite Hsplit, replication_loop_app.
  pose proof (replication_loop_completes config R progress_cb call runs
                k 0 [] w) as Hloop.
  rewrite Nat.add_0_r in Hloop. rewrite Hloop by (intros i Hi; apply Hruns; lia).
  rewrite length_map, length_seq.
  destruct (Z.to_nat R - k)%nat as [|m] eqn:Hm; [lia|].
  cbn [seq map replication_loop]. rewrite Hfail.
  unfold range. now rewrite Nat2Z.id.
Qed.

(** Lines 199-202 of [runner.py], as [test_monte_carlo_supports_demand_peaks]
    checks on one input: when the initial stocks are non-negative, the
    means of [service_level] and of [fill_rate] reported by a completed
    batch lie in [[0, 1]]. *)
Theorem monte_carlo_mean_rates (config : SimulationConfig) (R : Z)
    (progress_cb : option (Q -> World -> World)) (call : nat) (w w' : World)
    (mc : MonteCarloResult) :
  0 <= initial_on_hand_store config ->
  0 <= initial_on_hand_dc config ->
  monte_carlo config R progress_cb call w = (inr mc, w') ->
  exists mean_service_level mean_fill_rate,
    lookup "service_level" (kpi_mean (summary mc)) = Some mean_service_level /\
    lookup "fill_rate" (kpi_mean (summary mc)) = Some mean_fill_rate /\
    (0 <= mean_service_level <= 1)%Q /\
    (0 <= mean_fill_rate <= 1)%Q.
Proof.
  intros Hstore Hdc H.
  assert (Hrates : Forall (fun k => (0 <= service_level k <= 1)%Q /\
                                    (0 <= fill_rate k <= 1)%Q) (samples mc)).
  { revert H. unfold monte_carlo. destruct (R <=? 0); [discriminate|].
    destruct (replication_loop _ _ _ _ _ _ _) as [[e' | ks] w1] eqn:Hloop;
      [discriminate|].
    intros H. injection H as <- _. cbn [samples].
    apply (replication_loop_samples _ config R progress_cb (range R))
      with (call := call) (acc := []) (w := w) (w' := w1);
      [|constructor | exact Hloop].
    intros i c r Hrun. revert Hrun. now apply run_single_rates. }
  apply monte_carlo_inv in H as (HR & Hlen & ->).
  destruct (samples mc) as [|k ks] eqn:Hks; [simpl in Hlen; lia|].
  rewrite <- Hks in *.
  assert (Hne : forall get : KPIs -> Q, map get (samples mc) <> []).
  { intros get. rewrite Hks. discriminate. }
  exists (np_mean (map service_level (samples mc))),
         (np_mean (map fill_rate (samples mc))).
  split; [now rewrite Hks|]. split; [now rewrite Hks|].
  split; (apply np_mean_bounds; [apply Hne|]); apply Forall_map;
    (eapply Forall_impl; [|exact Hrates]); intros a [Ha Hb]; assumption.
Qed.

End MonteCarloMore.

Lemma lazy_runs_complete (i : nat) :
  (i < 2)%nat ->
  run_single (rt := TestRng.runtime)
    (replication_config Fixtures.lazy_config (Z.of_nat i)) (0 + i)
  = inr (Fixtures.lazy_runs i).
Proof.
  intros Hi. destruct i as [|[|i]]; [reflexivity.. |]. lia.
Qed.

Lemma monte_carlo_propagates_failure_witness :
  monte_carlo (rt := TestRng.runtime) Fixtures.lazy_config 3
    TestRng.record_progress 0 []
  = (inl (ValueError "lognormal mean must be > 0"), [1 # 3; 2 # 3]%Q).
Proof.
  apply (monte_carlo_propagates_failure (rt := TestRng.runtime)
           Fixtures.lazy_config 3 TestRng.record_progress 0 []
           Fixtures.lazy_runs 2 (ValueError "lognormal mean must be > 0")).
  - vm_compute. lia.
  - exact lazy_runs_complete.
  - reflexivity.
Defined.

Lemma monte_carlo_mean_rates_witness :
  0 <= initial_on_hand_store TestRng.week_config /\
  0 <= initial_on_hand_dc TestRng.week_config /\
  exists mean_service_level mean_fill_rate,
    lookup "service_level" (kpi_mean (summary TestRng.week_monte_carlo))
    = Some mean_service_level /\
    lookup "fill_rate" (kpi_mean (summary TestRng.week_monte_carlo))
    = Some mean_fill_rate /\
    (0 <= mean_service_level <= 1)%Q /\
    (0 <= mean_fill_rate <= 1)%Q.
Proof.
  assert (Hstore : 0 <= initial_on_hand_store TestRng.week_config)
    by (vm_compute; discriminate).
  assert (Hdc : 0 <= initial_on_hand_dc TestRng.week_config)
    by (vm_compute; discriminate).
  split; [exact Hstore|]. split; [exact Hdc|].
  exact (monte_carlo_mean_rates (rt := TestRng.runtime) TestRng.week_config 2
           TestRng.record_progress 0 [] _ TestRng.week_monte_carlo
           Hstore Hdc week_monte_carlo_run).
Defined.

(** ** The job table of the API *)

Lemma lookup_dict_set_eq {A : Type} (key : string) (v : A) (d : list (string * A)) :
  lookup key (dict_set key v d) = Some v.
Proof.
  induction d as [|[k x] d IH]; simpl.
  - now rewrite String.eqb_refl.
  - destruct (String.eqb k key) eqn:E; simpl; rewrite E; [reflexivity | exact IH].
Qed.

Lemma lookup_dict_set_ne {A : Type} (key other : string) (v : A)
    (d : list (string * A)) :
  other <> key -> lookup other (dict_set key v d) = lookup other d.
Proof.
  intros Hne. induction d as [|[k x] d IH]; simpl.
  - destruct (String.eqb key other) eqn:E; [|reflexivity].
    apply String.eqb_eq in E. congruence.
  - destruct (String.eqb k key) eqn:E; simpl.
    + apply String.eqb_eq in E. subst k.
      destruct (String.eqb key other) eqn:E2; [|reflexivity].
      apply String.eqb_eq in E2. congruence.
    + now rewrite IH.
Qed.

Lemma _set_job_fields_lookup (id : string) (fields : list JobField) (jobs : Jobs)
    (job : Job) :
  lookup id jobs = Some job ->
  lookup id (_set_job_fields id fields jobs)
  = Some (fold_left set_job_field fields job).
Proof.
  intros H. unfold _set_job_fields. rewrite H. apply lookup_dict_set_eq.
Qed.

Lemma _set_job_fields_other (id other : string) (fields : list JobField)
    (jobs : Jobs) :
  other <> id ->
  lookup other (_set_job_fields id fields jobs) = lookup other jobs.
Proof.
  intros Hne. unfold _set_job_fields.
  destruct (lookup id jobs); [now apply lookup_dict_set_ne | reflexivity].
Qed.

Lemma table_progress_only_refl (id : string) (before : Job) (jobs : Jobs) :
  lookup id jobs = Some before -> table_progress_only id before jobs jobs.
Proof.
  intros H. split; [|reflexivity].
  exists before. split; [exact H|]. repeat split.
Qed.

Lemma table_progress_only_callback (id : string) (before : Job)
    (jobs jobs' : Jobs) (x : Q) :
  table_progress_only id before jobs jobs' ->
  table_progress_only id before jobs (_set_job_fields id [progress_ x] jobs').
Proof.
  intros [(job & Hjob & Hsame) Hother]. split.
  - eexists. split; [apply (_set_job_fields_lookup _ _ _ _ Hjob)|].
    exact Hsame.
  - intros other Hne. rewrite _set_job_fields_other by exact Hne.
    now apply Hother.
Qed.

Section LoopWorld.

Context {rt : Runtime}.

(** What every call of the progress callback keeps holds when the loop is
    left. *)
Lemma replication_loop_world {World : Type} (I : World -> Prop)
    (config : SimulationConfig) (R : Z)
    (progress_cb : option (Q -> World -> World)) (indices : list Z) :
  (forall x w, I w -> I (call_progress_cb progress_cb x w)) ->
  forall (call : nat) (acc : list KPIs) (w : World),
    I w -> I (snd (replication_loop config R progress_cb indices call acc w)).
Proof.
  intros Hcb. induction indices as [|i indices IH]; intros call acc w Hw.
  - exact Hw.
  - simpl.
    destruct (run_single (replication_config config i) call) as [e | r];
      [exact Hw|].
    apply IH, Hcb, Hw.
Qed.

(** The samples do not depend on the progress callback. *)
Lemma replication_loop_result {World World' : Type} (config : SimulationConfig)
    (R : Z) (progress_cb : option (Q -> World -> World))
    (progress_cb' : option (Q -> World' -> World')) (indices : list Z) :
  forall (call : nat) (acc : list KPIs) (w : World) (w' : World'),
    fst (replication_loop config R progress_cb indices call acc w)
    = fst (replication_loop config R progress_cb' indices call acc w').
Proof.
  induction indices as [|i indices IH]; intros call acc w w'.
  - reflexivity.
  - simpl.
    destruct (run_single (replication_config config i) call) as [e | r];
      [reflexivity|].
    apply IH.
Qed.

Lemma monte_carlo_world {World : Type} (I : World -> Prop)
    (config : SimulationConfig) (R : Z)
    (progress_cb : option (Q -> World -> World)) (call : nat) (w : World) :
  (forall x w, I w -> I (call_progress_cb progress_cb x w)) ->
  I w -> I (snd (monte_carlo config R progress_cb call w)).
Proof.
  intros Hcb Hw. unfold monte_carlo. destruct (R <=? 0); [exact Hw|].
  pose proof (replication_loop_world I config R progress_cb (range R) Hcb
                call [] w Hw) as H.
  destruct (replication_loop _ _ _ _ _ _ _) as [[e | ks] w1]; exact H.
Qed.

Lemma monte_carlo_result {World World' : Type} (config : SimulationConfig)
    (R : Z) (progress_cb : option (Q -> World -> World))
    (progress_cb' : option (Q -> World' -> World')) (call : nat)
    (w : World) (w' : World') :
  match fst (monte_carlo config R progress_cb call w),
        fst (monte_carlo config R progress_cb' call w') with
  | inl e, inl e' => e = e'
  | inr mc, inr mc' => mc = mc'
  | _, _ => False
  end.
Proof.
  unfold monte_carlo. destruct (R <=? 0); [reflexivity|].
  pose proof (replication_loop_result config R progress_cb progress_cb'
                (range R) call [] w w') as H.
  destruct (replication_loop config R progress_cb _ _ _ _) as [[e | ks] w1];
    destruct (replication_loop config R progress_cb' _ _ _ _) as [[e' | ks'] w1'];
    cbn [fst] in *; congruence.
Qed.

(** The job of [id] after its thread, and the other jobs. *)
Lemma run_job_outcome (request : SimulationRequest) (id finished_at : string)
    (call : nat) (jobs : Jobs) (before : Job) :
  lookup id jobs = Some before ->
  (exists job,
      lookup id (run_job request id finished_at call jobs) = Some job /\
      job_finished (request_kind request) finished_at before
        (request_raises request call) job) /\
  (forall other, other <> id ->
      lookup other (run_job request id finished_at call jobs)
      = lookup other jobs).
Proof.
  intros Hjob. unfold run_job, request_kind, request_raises.
  destruct (request_replications request =? 1).
  - destruct (run_single _ call) as [exc | result].
    + split.
      * eexists. split; [apply (_set_job_fields_lookup _ _ _ _ Hjob)|].
        repeat split.
      * intros other Hne. now apply _set_job_fields_other.
    + split.
      * eexists. split.
        { apply _set_job_fields_lookup.
          apply (_set_job_fields_lookup _ _ _ _ Hjob). }
        repeat split. eexists. split; reflexivity.
      * intros other Hne. now rewrite !_set_job_fields_other by exact Hne.
  - set (cb := Some (fun progress => _set_job_fields id [progress_ progress])).
    pose proof (monte_carlo_world (table_progress_only id before jobs)
                  (_cfg_from_in (request_config request))
                  (request_replications request) cb call jobs) as Hworld.
    pose proof (monte_carlo_result (_cfg_from_in (request_config request))
                  (request_replications request) cb
                  (@None (Q -> unit -> unit)) call jobs tt) as Hres.
    destruct (monte_carlo _ _ cb call jobs) as [[exc | mc] jobs'].
    + destruct (fst (monte_carlo _ _ None call tt)) as [exc' | mc'];
        [|contradiction].
      cbn [fst] in Hres. subst exc'.
      destruct Hworld as [(job & Hjob' & Hsame) Hother].
      { intros x w. apply table_progress_only_callback. }
      { now apply table_progress_only_refl. }
      split.
      * eexists. split; [apply (_set_job_fields_lookup _ _ _ _ Hjob')|].
        destruct Hsame as (H1 & H2 & H3 & H4 & H5 & H6).
        repeat split; assumption.
      * intros other Hne. rewrite _set_job_fields_other by exact Hne.
        now apply Hother.
    + destruct (fst (monte_carlo _ _ None call tt)) as [exc' | mc'];
        [contradiction|].
      destruct Hworld as [(job & Hjob' & Hsame) Hother].
      { intros x w. apply table_progress_only_callback. }
      { now apply table_progress_only_refl. }
      split.
      * eexists. split.
        { apply _set_job_fields_lookup.
          apply (_set_job_fields_lookup _ _ _ _ Hjob'). }
        destruct Hsame as (H1 & H2 & H3 & H4 & H5 & H6).
        repeat split; try assumption. eexists. split; reflexivity.
      * intros other Hne. rewrite !_set_job_fields_other by exact Hne.
        now apply Hother.
Qed.

End LoopWorld.

Section ApiTheorems.

Context {rt : Runtime}.

(** Lines 160-201 of [app.py]: the thread of a registered job never leaves
    it running.  Whatever the request, the job ends with [finished_at] set
    and either status [complete], progress 1 and a payload of the kind of
    the request ([single] for one replication, [monte_carlo] otherwise), or
    status [error] and, as its error, the message of the exception that
    [run_single] or [monte_carlo] raised; its id and creation time are
    kept, and no other job of the table is touched. *)
Theorem run_job_finishes (request : SimulationRequest) (id finished_at : string)
    (call : nat) (jobs : Jobs) (before : Job) :
  lookup id jobs = Some before ->
  (exists job,
      get_simulation id (run_job request id finished_at call jobs) = inr job /\
      job_finished (request_kind request) finished_at before
        (request_raises request call) job /\
      job_status job <> "running"%string) /\
  (forall other, other <> id ->
      get_simulation other (run_job request id finished_at call jobs)
      = get_simulation other jobs).
Proof.
  intros Hjob.
  destruct (run_job_outcome request id finished_at call jobs before Hjob)
    as [(job & Hlookup & Hfin) Hother].
  split.
  - exists job. unfold get_simulation. rewrite Hlookup.
    split; [reflexivity|]. split; [exact Hfin|].
    destruct Hfin as (_ & _ & _ & Hcase).
    destruct (request_raises request call); destruct Hcase as [-> _];
      discriminate.
  - intros other Hne. unfold get_simulation. now rewrite Hother.
Qed.

End ApiTheorems.

(** ** Requests with an invalid policy *)

Section InvalidPolicyRequests.

Context {rt : Runtime}.



End InvalidPolicyRequests.

(** ** The job table on concrete requests *)

Lemma run_job_finishes_witness :
  lookup "job-1" Fixtures.api_jobs = Some Fixtures.api_job_1 /\
  (exists job,
      get_simulation "job-1"
        (run_job (rt := TestRng.runtime) Fixtures.api_request "job-1"
           "2024-01-01T00:00:02+00:00" 0 Fixtures.api_jobs) = inr job /\
      job_finished (request_kind Fixtures.api_request)
        "2024-01-01T00:00:02+00:00" Fixtures.api_job_1
        (request_raises (rt := TestRng.runtime) Fixtures.api_request 0) job /\
      job_status job <> "running"%string) /\
  (forall other, other <> "job-1"%string ->
      get_simulation other
        (run_job (rt := TestRng.runtime) Fixtures.api_request "job-1"
           "2024-01-01T00:00:02+00:00" 0 Fixtures.api_jobs)
      = get_simulation other Fixtures.api_jobs).
Proof.
  assert (Hjob : lookup "job-1" Fixtures.api_jobs = Some Fixtures.api_job_1)
    by reflexivity.
  split; [exact Hjob|].
  exact (run_job_finishes (rt := TestRng.runtime) Fixtures.api_request "job-1"
           "2024-01-01T00:00:02+00:00" 0 Fixtures.api_jobs Fixtures.api_job_1
           Hjob).
Defined.


(** ** Averages *)

Lemma Qsum_nonneg (l : list Q) :
  Forall (fun x => (0 <= x)%Q) l -> (0 <= Qsum l)%Q.
Proof. induction 1 as [|x l Hx Hl IH]; simpl; lra. Qed.

Lemma mean_or_zero_nonneg (l : list Q) :
  Forall (fun x => (0 <= x)%Q) l -> (0 <= mean_or_zero l)%Q.
Proof.
  intros Hl. destruct l as [|x l]; [simpl; lra|].
  unfold mean_or_zero, np_mean. apply Qle_shift_div_l.
  - unfold Qlen. change 0%Q with (inject_Z 0). rewrite <- Zlt_Qlt.
    cbn [List.length]. lia.
  - rewrite Qmult_0_l. now apply Qsum_nonneg.
Qed.

Lemma mean_or_zero_bounds (lo hi : Q) (l : list Q) :
  (lo <= 0)%Q -> (0 <= hi)%Q ->
  Forall (fun x => (lo <= x <= hi)%Q) l ->
  (lo <= mean_or_zero l <= hi)%Q.
Proof.
  intros Hlo Hhi Hl. destruct l as [|x l]; [simpl; split; assumption|].
  unfold mean_or_zero. apply np_mean_bounds; [discriminate | exact Hl].
Qed.

Section AverageTheorem.

Context {rt : Runtime}.

(** Lines 157-159 of [runner.py]: when the initial stocks are non-negative,
    the three averages reported by a completed run are non-negative, and
    the average stock of the distribution center is at most
    [max(initial_on_hand_dc, S_dc)]. *)
Theorem run_single_averages (config : SimulationConfig) (call : nat)
    (res : SimulationResult) :
  0 <= initial_on_hand_store config ->
  0 <= initial_on_hand_dc config ->
  run_single config call = inr res ->
  (0 <= avg_on_hand_store (kpis res))%Q /\
  (0 <= avg_backorder_store (kpis res))%Q /\
  (0 <= avg_on_hand_dc (kpis res)
   <= inject_Z (Z.max (initial_on_hand_dc config) (S_dc config)))%Q.
Proof.
  intros Hstore Hdc Hrun.
  apply run_single_inv in Hrun as (s & -> & Hdays & Hreach).
  pose proof (stock_reachable config _ s Hstore Hdc Hreach)
    as (_ & _ & _ & _ & _ & _ & _ & Hrows).
  pose proof (pipeline_reachable config _ s Hreach) as (_ & _ & Hpipe).
  pose proof (dc_reachable config _ s Hdc Hreach) as (_ & _ & _ & Hpos).
  assert (Hceil : (0 <= inject_Z (Z.max (initial_on_hand_dc config) (S_dc config)))%Q).
  { change 0%Q with (inject_Z 0). rewrite <- Zle_Qle. lia. }
  rewrite Forall_forall in Hrows, Hpipe, Hpos.
  cbn [kpis summarise avg_on_hand_store avg_backorder_store avg_on_hand_dc].
  split; [|split].
  - apply mean_or_zero_nonneg, Forall_map, Forall_forall. intros r Hr.
    apply (Hrows r Hr).
  - apply mean_or_zero_nonneg, Forall_map, Forall_forall. intros r Hr.
    apply (Hrows r Hr).
  - apply mean_or_zero_bounds; [lra | exact Hceil|].
    apply Forall_map, Forall_forall. intros r Hr.
    destruct (Hrows r Hr) as (_ & H1 & _).
    destruct (Hpipe r Hr) as (_ & H2).
    destruct (Hpos r Hr) as (_ & H3).
    unfold dc_ceiling in H3. split; [exact H1 | lra].
Qed.

End AverageTheorem.

Lemma run_single_averages_witness :
  0 <= initial_on_hand_store TestRng.week_config /\
  0 <= initial_on_hand_dc TestRng.week_config /\
  run_single (rt := TestRng.runtime) TestRng.week_config 0
  = inr TestRng.week_result /\
  (0 <= avg_on_hand_store (kpis TestRng.week_result))%Q /\
  (0 <= avg_backorder_store (kpis TestRng.week_result))%Q /\
  (0 <= avg_on_hand_dc (kpis TestRng.week_result)
   <= inject_Z (Z.max (initial_on_hand_dc TestRng.week_config)
                  (S_dc TestRng.week_config)))%Q.
Proof.
  assert (Hstore : 0 <= initial_on_hand_store TestRng.week_config)
    by (vm_compute; discriminate).
  assert (Hdc : 0 <= initial_on_hand_dc TestRng.week_config)
    by (vm_compute; discriminate).
  split; [exact Hstore|]. split; [exact Hdc|]. split; [reflexivity|].
  apply (run_single_averages (rt := TestRng.runtime) TestRng.week_config 0
           TestRng.week_result Hstore Hdc).
  reflexivity.
Defined.
